(** * The Alibaba infoer of cloudinfo: a shallow embedding

    Source: [internal/cloudinfo/providers/alibaba/cloudinfo.go].

    The provider client ([CommonDescriber.ProcessCommonRequest]) is the only
    source of input: it is modelled as an oracle that may answer a request
    differently each time, depending on everything that was exchanged before.
    Every method of [AlibabaInfoer] becomes a function in a small monad that
    threads the exchanges made so far and the lines written to the logger, and
    that ends in a value, in a Go [error], or in a run-time panic. *)

From Stdlib Require Import ZArith PrimFloat FloatOps SpecFloat Ascii DecimalString.
From stdpp Require Import gmap strings list fin_maps.

Open Scope Z_scope.

(** ** Numbers *)

(** Go's [float64] is the kernel's binary64. *)
Abbreviation float64 := PrimFloat.float.

(** The conversion [float64(i)] of a Go [int]: round to nearest, ties to even. *)
Definition float64_of_int (i : Z) : float64 :=
  SF2Prim (binary_normalize prec emax i 0 false).

(** ** Errors

    An [error] is observed by the code through [err.Error()] and
    [emperror.Context(err)] only; labels are the strings attached with
    [emperror.With]. *)

Record error : Type := mkError {
  message : string;          (* err.Error() *)
  context : list string      (* emperror.Context(err) *)
}.

Definition errors_New (msg : string) : error := mkError msg [].

Definition emperror_With (err : error) (keyval : string) : error :=
  mkError (message err) (context err ++ [keyval]).

(** [emperror.Wrap] and [errors.Wrap]: the message is prefixed, the context kept. *)
Definition Wrap (err : error) (msg : string) : error :=
  mkError (msg +:+ ": " +:+ message err) (context err).

Fixpoint hasLabel (ctx : list string) (s : string) : bool :=
  match ctx with
  | [] => false
  | e :: ctx' => if String.eqb e s then true else hasLabel ctx' s
  end.

(** ** The data of the provider's API (packages ecs and bssopenapi) *)

(** [ecs.Zone]: [AvailableInstanceTypes.InstanceTypes] and, for each entry of
    [AvailableResources.ResourcesInfo], its [InstanceTypes.SupportedInstanceType]. *)
Record Zone : Type := mkZone {
  ZoneId : string;
  AvailableInstanceTypes : list string;
  AvailableResources : list (list string)
}.

Record InstanceType : Type := mkInstanceType {
  InstanceTypeId : string;
  InstanceBandwidthRx : Z;
  CpuCoreCount : Z;
  MemorySize : float64;
  GPUAmount : Z
}.

(** [ecs.SpotPriceType], the element of [response.SpotPrices.SpotPriceType]. *)
Record SpotPriceType : Type := mkSpotPriceType {
  SpotZoneId : string;
  SpotPrice : float64
}.

(** [bssopenapi.GetPayAsYouGoPriceResponse]; [ModuleDetail] lists the
    [OriginalCost] of [response.Data.ModuleDetails.ModuleDetail]. *)
Record GetPayAsYouGoPriceResponse : Type := mkPriceResponse {
  Success : bool;
  Code : string;
  ModuleDetail : list float64
}.

Inductive CommonRequest : Type :=
  | describeZonesRequest (region : string)
  | describeSpotPriceHistoryRequest (region instanceType : string)
  | getPayAsYouGoPriceRequest (region : string) (instanceTypes : list string)
  | describeInstanceTypesRequest.

(** The content of an HTTP response, by what [json.Unmarshal] makes of it:
    a document of one of the four response types, or bytes that it rejects
    with an error. A document of another type than the one asked for is
    rejected too. *)
Inductive HttpContent : Type :=
  | Malformed (e : error)
  | ZonesDocument (zones : list Zone)
  | InstanceTypesDocument (instanceTypes : list InstanceType)
  | SpotPriceHistoryDocument (spotPrices : list SpotPriceType)
  | PayAsYouGoPriceDocument (response : GetPayAsYouGoPriceResponse).

(** What [ProcessCommonRequest] returns: a response or an error. *)
Definition Reply : Type := HttpContent + error.

(** ** The types of the repository (package types) *)

Abbreviation SpotPriceInfo := (gmap string float64).

Record Price : Type := mkPrice {
  OnDemand : float64;              (* Price.OnDemandPrice *)
  Spot : SpotPriceInfo             (* Price.SpotPrice *)
}.

Record VMInfo : Type := mkVMInfo {
  Category : string;
  Type_ : string;
  OnDemandPrice : float64;
  Cpus : float64;
  Mem : float64;
  Gpus : float64;
  NtwPerf : string;
  NtwPerfCat : string;
  Zones : list string;
  Attributes : gmap string string
}.

(** ** The world: exchanges with the provider and the logger's output *)

Inductive Level : Type := LevelDebug | LevelWarn | LevelError.

Inductive FieldValue : Type :=
  | FieldString (s : string)
  | FieldInt (i : Z).

Record LogLine : Type := mkLogLine {
  level : Level;
  text : string;
  fields : list (string * FieldValue)
}.

Record World : Type := mkWorld {
  exchanges : list (CommonRequest * Reply);
  logged : list LogLine
}.

(** The [CommonDescriber] of the source: the reply to a request, given the
    exchanges that came before it. *)
Definition CommonDescriber : Type := list (CommonRequest * Reply) -> CommonRequest -> Reply.

Record AlibabaInfoer : Type := mkAlibabaInfoer {
  client : CommonDescriber
}.

(** ** Outcomes and the monad *)

Inductive outcome (A : Type) : Type :=
  | Ok (a : A)          (* return a, nil *)
  | Err (e : error)     (* return nil, e *)
  | Panic.              (* run-time panic: index out of range *)

Arguments Ok {A} a.
Arguments Err {A} e.
Arguments Panic {A}.

Definition M (A : Type) : Type := World -> World * outcome A.

Definition ret {A} (a : A) : M A := fun w => (w, Ok a).
Definition throw {A} (e : error) : M A := fun w => (w, Err e).
Definition panic {A} : M A := fun w => (w, Panic).

Definition bind {A B} (m : M A) (k : A -> M B) : M B :=
  fun w =>
    match m w with
    | (w', Ok a) => k a w'
    | (w', Err e) => (w', Err e)
    | (w', Panic) => (w', Panic)
    end.

(** [v, err := f(...)] followed by a test of [err]: the error becomes a value. *)
Definition attempt {A} (m : M A) : M (A + error) :=
  fun w =>
    match m w with
    | (w', Ok a) => (w', Ok (inl a))
    | (w', Err e) => (w', Ok (inr e))
    | (w', Panic) => (w', Panic)
    end.

Declare Scope go_scope.
Delimit Scope go_scope with go.
Notation "x <- m ;; k" := (bind m (fun x => k))
  (at level 100, m at next level, right associativity) : go_scope.
Notation "m ;;; k" := (bind m (fun _ => k))
  (at level 100, right associativity) : go_scope.
Open Scope go_scope.

Definition writeLog (l : Level) (msg : string) (kvs : list (string * FieldValue)) : M unit :=
  fun w => (mkWorld (exchanges w) (logged w ++ [mkLogLine l msg kvs]), Ok tt).

Definition ProcessCommonRequest (a : AlibabaInfoer) (request : CommonRequest) : M HttpContent :=
  fun w =>
    let reply := client a (exchanges w) request in
    (mkWorld (exchanges w ++ [(request, reply)]) (logged w),
     match reply with inl content => Ok content | inr err => Err err end).

(** [json.Unmarshal] into each of the four response types; [jsonError] is
    its error for a document of another type. *)
Definition jsonError : error := errors_New "json: cannot unmarshal".

Definition UnmarshalZones (c : HttpContent) : M (list Zone) :=
  match c with
  | ZonesDocument zones => ret zones
  | Malformed e => throw e
  | _ => throw jsonError
  end.

Definition UnmarshalInstanceTypes (c : HttpContent) : M (list InstanceType) :=
  match c with
  | InstanceTypesDocument its => ret its
  | Malformed e => throw e
  | _ => throw jsonError
  end.

Definition UnmarshalSpotPriceHistory (c : HttpContent) : M (list SpotPriceType) :=
  match c with
  | SpotPriceHistoryDocument sps => ret sps
  | Malformed e => throw e
  | _ => throw jsonError
  end.

Definition UnmarshalPayAsYouGoPrice (c : HttpContent) : M GetPayAsYouGoPriceResponse :=
  match c with
  | PayAsYouGoPriceDocument r => ret r
  | Malformed e => throw e
  | _ => throw jsonError
  end.

(** ** On-demand prices *)

Definition getPrice (a : AlibabaInfoer) (instanceTypes : list string) (region : string)
  : M (list float64) :=
  getPayAsYouGoPrice <- ProcessCommonRequest a (getPayAsYouGoPriceRequest region instanceTypes) ;;
  response <- UnmarshalPayAsYouGoPrice getPayAsYouGoPrice ;;
  if negb (Success response)
  then throw (emperror_With (errors_New "failed to get price") (Code response))
  else ret (ModuleDetail response).

(** The test of line 249: the message and the label of a parameter rejection. *)
Definition isParameterRejection (err : error) : bool :=
  String.eqb (message err) "failed to get price"
  && hasLabel (context err) "InvalidParameter".

(** Lines 250-257, [for i := 0; i < len(instanceTypes); i++]: [rest] is
    [instanceTypes[i:]]. The price of a single item is [prices[0]], which
    panics on an empty slice. *)
Fixpoint retrySingly (a : AlibabaInfoer) (region : string) (rest : list string)
    (allPrices : gmap string float64) : M (gmap string float64) :=
  match rest with
  | [] => ret allPrices
  | instanceType :: rest' =>
      r <- attempt (getPrice a [instanceType] region) ;;
      match r with
      | inr _ =>
          writeLog LevelDebug "no price for instance type"
                   [("instanceType", FieldString instanceType)] ;;;
          retrySingly a region rest' allPrices
      | inl prices =>
          match prices !! 0%nat with
          | None => panic
          | Some price => retrySingly a region rest' (<[instanceType := price]> allPrices)
          end
      end
  end.

(** Lines 262-264, [for i, price := range prices]: [prices] is what is left
    from index [i] on; [instanceTypes[i]] panics when out of range. *)
Fixpoint assignPrices (i : nat) (prices : list float64) (instanceTypes : list string)
    (allPrices : gmap string float64) : M (gmap string float64) :=
  match prices with
  | [] => ret allPrices
  | price :: prices' =>
      match instanceTypes !! i with
      | None => panic
      | Some instanceType =>
          assignPrices (S i) prices' instanceTypes (<[instanceType := price]> allPrices)
      end
  end.

(** Lines 247-265: the request for one batch and what follows from its reply. *)
Definition fetchBatch (a : AlibabaInfoer) (region : string) (instanceTypes : list string)
    (allPrices : gmap string float64) : M (gmap string float64) :=
  r <- attempt (getPrice a instanceTypes region) ;;
  match r with
  | inr err =>
      if isParameterRejection err
      then retrySingly a region instanceTypes allPrices
      else throw err
  | inl prices => assignPrices 0 prices instanceTypes allPrices
  end.

(** Lines 243-269, [for index, vm := range vms]: [n] is [len(vms)] and [rest]
    is [vms[index:]]. *)
Fixpoint batchLoop (a : AlibabaInfoer) (region : string) (n index : nat) (rest : list VMInfo)
    (instanceTypes : list string) (allPrices : gmap string float64)
  : M (gmap string float64) :=
  match rest with
  | [] => ret allPrices
  | vm :: rest' =>
      let instanceTypes := instanceTypes ++ [Type_ vm] in
      if (length instanceTypes =? 25)%nat || (index + 1 =? n)%nat
      then
        allPrices' <- fetchBatch a region instanceTypes allPrices ;;
        batchLoop a region n (S index) rest' [] allPrices'
      else batchLoop a region n (S index) rest' instanceTypes allPrices
  end.

(** [allPrices[vm.Type]]: a missing key reads as the zero value. *)
Definition priceOf (allPrices : gmap string float64) (instanceType : string) : float64 :=
  default 0%float (allPrices !! instanceType).

Definition withPrice (allPrices : gmap string float64) (vm : VMInfo) : VMInfo :=
  {| Category := Category vm;
     Type_ := Type_ vm;
     OnDemandPrice := priceOf allPrices (Type_ vm);
     Cpus := Cpus vm;
     Mem := Mem vm;
     Gpus := Gpus vm;
     NtwPerf := NtwPerf vm;
     NtwPerfCat := NtwPerfCat vm;
     Zones := Zones vm;
     Attributes := Attributes vm |}.

(** The first loop of [getOnDemandPrice]: the price map it builds. *)
Definition fetchPrices (a : AlibabaInfoer) (vms : list VMInfo) (region : string)
  : M (gmap string float64) :=
  batchLoop a region (length vms) 0 vms [] ∅.

Definition getOnDemandPrice (a : AlibabaInfoer) (vms : list VMInfo) (region : string)
  : M (list VMInfo) :=
  allPrices <- fetchPrices a vms region ;;
  ret (map (withPrice allPrices) vms).

(** ** Reading the exchanges of a price fetch *)

(** What [getPrice] makes of the provider's reply. *)
Definition priceResult (reply : Reply) : list float64 + error :=
  match reply with
  | inr err => inr err
  | inl (PayAsYouGoPriceDocument response) =>
      if negb (Success response)
      then inr (emperror_With (errors_New "failed to get price") (Code response))
      else inl (ModuleDetail response)
  | inl (Malformed e) => inr e
  | inl _ => inr jsonError
  end.

(** The consecutive batches of at most 25 of a list: all of 25 but the last. *)
Fixpoint batchesUpTo (fuel : nat) (l : list string) : list (list string) :=
  match fuel, l with
  | S fuel', _ :: _ => take 25 l :: batchesUpTo fuel' (drop 25 l)
  | _, _ => []
  end.

Definition batches (l : list string) : list (list string) := batchesUpTo (length l) l.

Fixpoint fetchBatches (a : AlibabaInfoer) (region : string) (bs : list (list string))
    (allPrices : gmap string float64) : M (gmap string float64) :=
  match bs with
  | [] => ret allPrices
  | b :: bs' =>
      allPrices' <- fetchBatch a region b allPrices ;;
      fetchBatches a region bs' allPrices'
  end.

(** What happened to one batch, read off the provider's replies: the reply to
    the batch request, and the replies to the single-item requests that
    followed a rejection. *)
Inductive BatchReport : Type :=
  | Accepted (reply : Reply)
  | Retried (reply : Reply) (followups : list Reply).

Definition isAccepted (reply : Reply) : bool :=
  match priceResult reply with inl _ => true | inr _ => false end.

Definition isRejection (reply : Reply) : bool :=
  match priceResult reply with inl _ => false | inr err => isParameterRejection err end.

Definition singleRequest (region instanceType : string) : CommonRequest :=
  getPayAsYouGoPriceRequest region [instanceType].

Definition exchangesOf (region : string) (run : list string * BatchReport)
  : list (CommonRequest * Reply) :=
  match run with
  | (b, Accepted reply) => [(getPayAsYouGoPriceRequest region b, reply)]
  | (b, Retried reply followups) =>
      (getPayAsYouGoPriceRequest region b, reply)
        :: zip (map (singleRequest region) b) followups
  end.

Definition wellFormed (run : list string * BatchReport) : Prop :=
  match run with
  | (b, Accepted reply) => isAccepted reply = true
  | (b, Retried reply followups) =>
      isRejection reply = true /\ length followups = length b
  end.

(** The members of a retried batch whose single-item request failed too, and
    the instance types that got a price. *)
Definition skippedOf (run : list string * BatchReport) : list string :=
  match run with
  | (b, Accepted _) => []
  | (b, Retried _ followups) =>
      (filter (fun x => isAccepted x.2 = false) (zip b followups)).*1
  end.

Definition pricedOf (run : list string * BatchReport) : list string :=
  match run with
  | (b, Accepted reply) =>
      match priceResult reply with
      | inl prices => take (length prices) b
      | inr _ => []
      end
  | (b, Retried _ followups) =>
      (filter (fun x => isAccepted x.2 = true) (zip b followups)).*1
  end.

(** An accepted reply is exact when it prices each instance type asked for. *)
Definition exact (run : list string * BatchReport) : Prop :=
  match run with
  | (b, Accepted reply) =>
      match priceResult reply with
      | inl prices => length prices = length b
      | inr _ => True
      end
  | (b, Retried _ _) => True
  end.

(** The line that [getOnDemandPrice] logs for a member it skips (line 253). *)
Definition noPriceLine (instanceType : string) : LogLine :=
  mkLogLine LevelDebug "no price for instance type"
            [("instanceType", FieldString instanceType)].

Definition noPriceLines (skipped : list string) : list LogLine :=
  map noPriceLine skipped.

(** The reports of a whole fetch, batch by batch. *)
Definition exchangesOfRuns (region : string) (runs : list (list string * BatchReport))
  : list (CommonRequest * Reply) :=
  concat (map (exchangesOf region) runs).

Definition skippedTypes (runs : list (list string * BatchReport)) : list string :=
  concat (map skippedOf runs).

Definition pricedTypes (runs : list (list string * BatchReport)) : list string :=
  concat (map pricedOf runs).

(** A price reply is exact when it carries one price for each instance type
    of its request. *)
Definition isExact (x : CommonRequest * Reply) : bool :=
  match x.1, priceResult x.2 with
  | getPayAsYouGoPriceRequest _ instanceTypes, inl prices =>
      (length prices =? length instanceTypes)%nat
  | _, _ => true
  end.

(** What a call added to the exchanges and to the log. *)
Definition newExchanges (w w' : World) : list (CommonRequest * Reply) :=
  drop (length (exchanges w)) (exchanges w').

Definition newLines (w w' : World) : list LogLine :=
  drop (length (logged w)) (logged w').

(** ** Zones and spot prices *)

Definition getZones (a : AlibabaInfoer) (region : string) : M (list Zone) :=
  r <- attempt (ProcessCommonRequest a (describeZonesRequest region)) ;;
  match r with
  | inr err => throw (Wrap err "DescribeZones API call problem")
  | inl describeZones => UnmarshalZones describeZones
  end.

(** A [types.SpotPriceInfo] is a Go map, hence a reference: [priceInfo] holds
    references into a store of maps, and a map that [priceInfo] refers to can
    still be written through the local variable [spotPrice]. *)
Record SpotStore : Type := mkSpotStore {
  heap : list SpotPriceInfo;
  priceInfo : gmap string nat
}.

(** Lines 99-105, [for _, priceType := range priceTypes]; [spotPrice] is the
    reference made at line 96. *)
Fixpoint scanPriceTypes (zoneId instanceType : string) (spotPrice : nat)
    (priceTypes : list SpotPriceType) (st : SpotStore) : SpotStore :=
  match priceTypes with
  | [] => st
  | priceType :: rest =>
      if String.eqb zoneId (SpotZoneId priceType)
      then mkSpotStore (alter (insert zoneId (SpotPrice priceType)) spotPrice (heap st))
                       (priceInfo st)
      else scanPriceTypes zoneId instanceType spotPrice rest
             (mkSpotStore (heap st) (<[instanceType := spotPrice]> (priceInfo st)))
  end.

(** Lines 81-107, the instance types of one zone. [priceInfo[instanceType] == nil]
    holds exactly when the key is missing, since only maps made at line 96 are
    stored. *)
Fixpoint spotPricesOfZone (a : AlibabaInfoer) (region : string) (zoneId : string)
    (instanceTypes : list string) (st : SpotStore) : M SpotStore :=
  match instanceTypes with
  | [] => ret st
  | instanceType :: rest =>
      match priceInfo st !! instanceType with
      | Some _ => spotPricesOfZone a region zoneId rest st
      | None =>
          r <- attempt (ProcessCommonRequest a
                          (describeSpotPriceHistoryRequest region instanceType)) ;;
          match r with
          | inr _ =>
              writeLog LevelError "failed to get spot price history"
                       [("region", FieldString region);
                        ("instancetype", FieldString instanceType)] ;;;
              spotPricesOfZone a region zoneId rest st
          | inl describeSpotPriceHistory =>
              priceTypes <- UnmarshalSpotPriceHistory describeSpotPriceHistory ;;
              let spotPrice := length (heap st) in
              let st' := mkSpotStore (heap st ++ [∅]) (priceInfo st) in
              spotPricesOfZone a region zoneId rest
                (scanPriceTypes zoneId instanceType spotPrice priceTypes st')
          end
      end
  end.

(** Lines 80-108, [for _, zone := range zones]. *)
Fixpoint spotPricesOfZones (a : AlibabaInfoer) (region : string) (zones : list Zone)
    (st : SpotStore) : M SpotStore :=
  match zones with
  | [] => ret st
  | zone :: rest =>
      st' <- spotPricesOfZone a region (ZoneId zone) (AvailableInstanceTypes zone) st ;;
      spotPricesOfZones a region rest st'
  end.

(** The map the caller receives: every reference read through the store. *)
Definition readPriceInfo (st : SpotStore) : gmap string SpotPriceInfo :=
  (fun spotPrice => default ∅ (heap st !! spotPrice)) <$> priceInfo st.

Definition getCurrentSpotPrices (a : AlibabaInfoer) (region : string)
  : M (gmap string SpotPriceInfo) :=
  writeLog LevelDebug "start retrieving spot price data" [("region", FieldString region)] ;;;
  zones <- getZones a region ;;
  st <- spotPricesOfZones a region zones (mkSpotStore [] ∅) ;;
  writeLog LevelDebug "retrieved spot price data" [("region", FieldString region)] ;;;
  ret (readPriceInfo st).

(** What [json.Unmarshal] makes of the content of a spot price history. *)
Definition spotPriceHistoryResult (content : HttpContent) : outcome (list SpotPriceType) :=
  match content with
  | SpotPriceHistoryDocument spotPrices => Ok spotPrices
  | Malformed e => Err e
  | _ => Err jsonError
  end.

(** The line that [getCurrentSpotPrices] logs for a failed request (line 85). *)
Definition spotFailureLine (region instanceType : string) : LogLine :=
  mkLogLine LevelError "failed to get spot price history"
            [("region", FieldString region); ("instancetype", FieldString instanceType)].

(** What a run of the spot price loops adds to the world, and how it can end. *)
Definition spotRun (region : string) (w : World) (run : World * outcome SpotStore) : Prop :=
  run.2 <> Panic /\
  exists new lines,
    exchanges run.1 = exchanges w ++ new /\
    logged run.1 = logged w ++ lines /\
    (forall e, run.2 = Err e ->
       exists instanceType content,
         (describeSpotPriceHistoryRequest region instanceType, inl content) ∈ new /\
         spotPriceHistoryResult content = Err e) /\
    (forall instanceType err,
       (describeSpotPriceHistoryRequest region instanceType, inr err) ∈ new ->
       spotFailureLine region instanceType ∈ lines).

(** [GetCurrentPrices]: the loop over the entries of [spotPrices], in the
    order of the map's iteration. The reports to the metrics package
    (line 382) write nothing that the method returns and are left out. *)
Definition GetCurrentPrices (a : AlibabaInfoer) (region : string)
  : M (gmap string Price) :=
  spotPrices <- getCurrentSpotPrices a region ;;
  ret (map_fold (fun instanceType sp prices =>
                   <[instanceType := mkPrice (-1)%float sp]> prices)
                ∅ spotPrices).

Definition HasShortLivedPriceInfo (a : AlibabaInfoer) : bool := false.

(** ** Virtual machines *)

Definition getInstanceTypes (a : AlibabaInfoer) : M (list InstanceType) :=
  r <- attempt (ProcessCommonRequest a describeInstanceTypesRequest) ;;
  match r with
  | inr err => throw (Wrap err "DescribeInstanceTypes API call problem")
  | inl describeInstanceTypes => UnmarshalInstanceTypes describeInstanceTypes
  end.

(** Lines 148-153: is the instance type among the supported ones
    (the loop stops at the first hit). *)
Fixpoint supports (supported : list string) (instanceTypeId : string) : bool :=
  match supported with
  | [] => false
  | availableInstanceType :: rest =>
      if String.eqb availableInstanceType instanceTypeId then true
      else supports rest instanceTypeId
  end.

(** Lines 147-154: one zone id per resource entry that supports the type. *)
Fixpoint zonesOfResources (zoneId : string) (resourcesInfo : list (list string))
    (instanceTypeId : string) (zones : list string) : list string :=
  match resourcesInfo with
  | [] => zones
  | supported :: rest =>
      zonesOfResources zoneId rest instanceTypeId
        (if supports supported instanceTypeId then zones ++ [zoneId] else zones)
  end.

(** Lines 146-155. *)
Fixpoint zonesOf (availableZones : list Zone) (instanceTypeId : string)
    (zones : list string) : list string :=
  match availableZones with
  | [] => zones
  | zone :: rest =>
      zonesOf rest instanceTypeId
        (zonesOfResources (ZoneId zone) (AvailableResources zone) instanceTypeId zones)
  end.

(** The decimal digits of a natural number. *)
Definition decimal (n : Z) : string :=
  DecimalString.NilZero.string_of_uint (N.to_uint (Z.to_N n)).

(** [num / den] rounded to the nearest integer, ties to even. *)
Definition roundHalfEven (num den : Z) : Z :=
  let q := num / den in
  let r := num mod den in
  if 2 * r <? den then q
  else if den <? 2 * r then q + 1
  else if Z.even q then q else q + 1.

(** [fmt.Sprintf("%.1f", x)]: the exact value of [x] rounded to one decimal,
    ties to even. *)
Definition Sprintf_1f (x : float64) : string :=
  match Prim2SF x with
  | S754_nan => "NaN"
  | S754_infinity s => if s then "-Inf" else "+Inf"
  | S754_zero s => (if s then "-" else "") +:+ "0.0"
  | S754_finite s m e =>
      let tenths :=
        if 0 <=? e then Z.pos m * 2 ^ e * 10
        else roundHalfEven (Z.pos m * 10) (2 ^ (- e)) in
      (if s then "-" else "") +:+ decimal (tenths / 10) +:+ "." +:+ decimal (tenths mod 10)
  end.

(** Line 158. *)
Definition networkPerformance (instanceType : InstanceType) : string :=
  Sprintf_1f (float64_of_int (InstanceBandwidthRx instanceType) / 1024000)%float
  +:+ " Gbit/s".

Section Package.

(** Functions of the repository that the file calls and does not define:
    each returns its value together with its [error], if any. *)
Variable MapNetworkPerf : string -> string * option error.
Variable mapCategory : string -> string * option error.
(** [cloudinfo.Attributes(fmt.Sprint(cpu), fmt.Sprint(mem), ntwPerfCat, category)] *)
Variable cloudinfoAttributes : Z -> float64 -> string -> string -> gmap string string.

(** Lines 157-181: the descriptor of one instance type that has zones. *)
Definition describeVM (region : string) (instanceType : InstanceType) (zones : list string)
  : M VMInfo :=
  let ntwPerf := networkPerformance instanceType in
  let '(ntwPerfCat, err) := MapNetworkPerf ntwPerf in
  match err with
  | Some err =>
      writeLog LevelDebug
        (message (Wrap err "failed to get network performance category"))
        [("region", FieldString region);
         ("instanceType", FieldString (InstanceTypeId instanceType))]
  | None => ret tt
  end ;;;
  let '(category, err) := mapCategory (InstanceTypeId instanceType) in
  match err with
  | Some err =>
      writeLog LevelDebug
        (message (Wrap err "failed to get virtual machine category"))
        [("region", FieldString region);
         ("instanceType", FieldString (InstanceTypeId instanceType))]
  | None => ret tt
  end ;;;
  ret {| Category := category;
         Type_ := InstanceTypeId instanceType;
         OnDemandPrice := 0%float;
         Cpus := float64_of_int (CpuCoreCount instanceType);
         Mem := MemorySize instanceType;
         Gpus := float64_of_int (GPUAmount instanceType);
         NtwPerf := ntwPerf;
         NtwPerfCat := ntwPerfCat;
         Zones := zones;
         Attributes := cloudinfoAttributes (CpuCoreCount instanceType)
                         (MemorySize instanceType) ntwPerfCat category |}.

(** Lines 144-183, [for _, instanceType := range instanceTypes]. *)
Fixpoint describeVMs (region : string) (availableZones : list Zone)
    (instanceTypes : list InstanceType) (vms : list VMInfo) : M (list VMInfo) :=
  match instanceTypes with
  | [] => ret vms
  | instanceType :: rest =>
      let zones := zonesOf availableZones (InstanceTypeId instanceType) [] in
      if (0 <? length zones)%nat
      then
        vm <- describeVM region instanceType zones ;;
        describeVMs region availableZones rest (vms ++ [vm])
      else describeVMs region availableZones rest vms
  end.

Definition GetVirtualMachines (a : AlibabaInfoer) (region : string) : M (list VMInfo) :=
  writeLog LevelDebug "getting product info" [("region", FieldString region)] ;;;
  instanceTypes <- getInstanceTypes a ;;
  availableZones <- getZones a region ;;
  vms <- describeVMs region availableZones instanceTypes [] ;;
  virtualMachines <- getOnDemandPrice a vms region ;;
  writeLog LevelDebug "found vms"
           [("region", FieldString region);
            ("numberOfVms", FieldInt (Z.of_nat (length virtualMachines)))] ;;;
  ret virtualMachines.

Definition svcAck : string := "ack".

Definition GetProducts (a : AlibabaInfoer) (vms : list VMInfo) (service regionId : string)
  : M (list VMInfo) :=
  vmList <-
    (if (length vms =? 0)%nat
     then
       r <- attempt (GetVirtualMachines a regionId) ;;
       match r with
       | inr err =>
           writeLog LevelWarn "could not get machine types for region"
                    [("regionId", FieldString regionId)] ;;;
           throw (Wrap err "failed to get products")
       | inl vmList => ret vmList
       end
     else ret vms) ;;
  if String.eqb service svcAck then ret vmList
  else if String.eqb service "compute" then ret vmList
  else throw (Wrap (errors_New service) "invalid service").

(** What [describeVM] returns and what it logs, as functions of the
    instance type. *)
Definition vmInfoOf (instanceType : InstanceType) (zones : list string) : VMInfo :=
  let ntwPerf := networkPerformance instanceType in
  let ntwPerfCat := (MapNetworkPerf ntwPerf).1 in
  let category := (mapCategory (InstanceTypeId instanceType)).1 in
  {| Category := category;
     Type_ := InstanceTypeId instanceType;
     OnDemandPrice := 0%float;
     Cpus := float64_of_int (CpuCoreCount instanceType);
     Mem := MemorySize instanceType;
     Gpus := float64_of_int (GPUAmount instanceType);
     NtwPerf := ntwPerf;
     NtwPerfCat := ntwPerfCat;
     Zones := zones;
     Attributes := cloudinfoAttributes (CpuCoreCount instanceType)
                     (MemorySize instanceType) ntwPerfCat category |}.

Definition mappingLine (region : string) (instanceType : InstanceType) (what : string)
    (err : error) : LogLine :=
  mkLogLine LevelDebug (message (Wrap err what))
            [("region", FieldString region);
             ("instanceType", FieldString (InstanceTypeId instanceType))].

Definition mappingLines (region : string) (instanceType : InstanceType) : list LogLine :=
  match (MapNetworkPerf (networkPerformance instanceType)).2 with
  | Some err =>
      [mappingLine region instanceType "failed to get network performance category" err]
  | None => []
  end ++
  match (mapCategory (InstanceTypeId instanceType)).2 with
  | Some err =>
      [mappingLine region instanceType "failed to get virtual machine category" err]
  | None => []
  end.

(** The instance types that some zone offers, in the order of the catalogue. *)
Definition hasZones (availableZones : list Zone) (instanceType : InstanceType) : bool :=
  (0 <? length (zonesOf availableZones (InstanceTypeId instanceType) []))%nat.

Definition offered (availableZones : list Zone) (instanceTypes : list InstanceType)
  : list InstanceType :=
  filter (fun instanceType => hasZones availableZones instanceType = true) instanceTypes.

End Package.

(** The services of the switch of [GetProducts]. *)
Definition supportedService (service : string) : bool :=
  String.eqb service "ack" || String.eqb service "compute".

Definition invalidService (service : string) : error :=
  Wrap (errors_New service) "invalid service".

(** ** Reading a run of [GetVirtualMachines] *)

(** What [getZones] and [getInstanceTypes] make of the provider's reply. *)
Definition zonesResult (reply : Reply) : outcome (list Zone) :=
  match reply with
  | inr err => Err (Wrap err "DescribeZones API call problem")
  | inl (ZonesDocument zones) => Ok zones
  | inl (Malformed e) => Err e
  | inl _ => Err jsonError
  end.

Definition instanceTypesResult (reply : Reply) : outcome (list InstanceType) :=
  match reply with
  | inr err => Err (Wrap err "DescribeInstanceTypes API call problem")
  | inl (InstanceTypesDocument instanceTypes) => Ok instanceTypes
  | inl (Malformed e) => Err e
  | inl _ => Err jsonError
  end.

(** The replies to the two requests that open [GetVirtualMachines]. *)
Definition catalogueReply (a : AlibabaInfoer) (w : World) : Reply :=
  client a (exchanges w) describeInstanceTypesRequest.

Definition zonesReply (a : AlibabaInfoer) (region : string) (w : World) : Reply :=
  client a (exchanges w ++ [(describeInstanceTypesRequest, catalogueReply a w)])
         (describeZonesRequest region).

(** Two worlds with the same exchanges: the provider cannot tell them apart. *)
Definition sameExchanges (w1 w2 : World) : Prop := exchanges w1 = exchanges w2.

(** A computation whose outcome and exchanges do not depend on the log. *)
Definition logBlind {A} (m : M A) : Prop :=
  forall w1 w2, sameExchanges w1 w2 ->
    (m w1).2 = (m w2).2 /\ sameExchanges (m w1).1 (m w2).1.

(** A mapper that returns the same categories and never an error. *)
Definition silenced (mapper : string -> string * option error) : string -> string * option error :=
  fun s => ((mapper s).1, None).

(** Two computations that end alike and leave the same exchanges. *)
Definition agree {A} (m1 m2 : M A) (w : World) : Prop :=
  (m1 w).2 = (m2 w).2 /\ sameExchanges (m1 w).1 (m2 w).1.

(** ** Providers and inputs for the examples *)

(** A provider that answers the [i]-th request of a run with the [i]-th reply
    of a script, whatever the request, and refuses the connection after that. *)
Definition scripted (script : list Reply) : AlibabaInfoer :=
  mkAlibabaInfoer
    (fun history _ => nth (length history) script (inr (errors_New "connection refused"))).

Definition successWith (prices : list float64) : Reply :=
  inl (PayAsYouGoPriceDocument (mkPriceResponse true "Success" prices)).

Definition invalidParameter : Reply :=
  inl (PayAsYouGoPriceDocument (mkPriceResponse false "InvalidParameter" [])).

Definition throttled : Reply :=
  inl (PayAsYouGoPriceDocument (mkPriceResponse false "Throttling" [])).

Definition emptyWorld : World := mkWorld [] [].

Definition vmOfType (instanceType : string) : VMInfo :=
  {| Category := "General purpose";
     Type_ := instanceType;
     OnDemandPrice := 0%float;
     Cpus := 2%float;
     Mem := 8%float;
     Gpus := 0%float;
     NtwPerf := "1.0 Gbit/s";
     NtwPerfCat := "medium";
     Zones := ["cn-hangzhou-b"];
     Attributes := ∅ |}.

(** A provider with a price list: it prices every instance type at 0.25,
    and rejects every request that names ["ecs.retired"]. *)
Definition priceList : AlibabaInfoer :=
  mkAlibabaInfoer
    (fun _ request =>
       match request with
       | getPayAsYouGoPriceRequest _ instanceTypes =>
           if supports instanceTypes "ecs.retired" then invalidParameter
           else successWith (map (fun _ => 0.25%float) instanceTypes)
       | _ => inr (errors_New "not a price request")
       end).

(** Twenty-seven instance types: two batches, the second with a retired type. *)
Definition catalogue : list string :=
  map (fun i => "ecs.g" +:+ decimal (Z.of_nat i)) (seq 1 25) ++ ["ecs.retired"; "ecs.c5"].

(** Reading a throughput such as "1.2 Gbit/s" in tenths of a Gbit/s: the
    digits up to the point, one digit, the unit. *)
Fixpoint readDigits (s : string) (acc : Z) : option (Z * string) :=
  match s with
  | EmptyString => None
  | String c rest =>
      if Ascii.eqb c "."%char then Some (acc, rest)
      else
        let d := Z.of_nat (Ascii.nat_of_ascii c) - 48 in
        if (0 <=? d) && (d <=? 9) then readDigits rest (10 * acc + d) else None
  end.

Definition parseThroughput (ntwPerf : string) : option Z :=
  match readDigits ntwPerf 0 with
  | Some (whole, String c unit) =>
      let d := Z.of_nat (Ascii.nat_of_ascii c) - 48 in
      if (0 <=? d) && (d <=? 9) && String.eqb unit " Gbit/s"
      then Some (10 * whole + d) else None
  | _ => None
  end.

Definition mappingError (ntwPerf : string) : error :=
  Wrap (errors_New ntwPerf) "could not determine network performance".

(** Modelled from the spec: [newAlibabaNetworkMapper] and its [MapNetworkPerf]
    are not among the sources. Sections 4.2 and 8 of the specification: a
    formatted throughput is mapped to one of four tiers by the thresholds
    low (0,1), medium [1,5), high [5,10), extra [10,infinity), in Gbit/s; an
    input that is in no range or cannot be parsed yields a MappingError, and
    it is the caller that has to apply a default tier: the mapper returns
    none with its error. *)
Definition specMapNetworkPerf (ntwPerf : string) : string * option error :=
  match parseThroughput ntwPerf with
  | Some tenths =>
      if tenths <=? 0 then ("", Some (mappingError ntwPerf))
      else if tenths <? 10 then ("low", None)
      else if tenths <? 50 then ("medium", None)
      else if tenths <? 100 then ("high", None)
      else ("extra", None)
  | None => ("", Some (mappingError ntwPerf))
  end.

(** Stand-ins, for the examples, for [mapCategory] and [cloudinfo.Attributes],
    which are not among the sources either: one category for every instance
    type, and the attributes that section 3 of the specification names. *)
Definition exampleCategory (instanceTypeId : string) : string * option error :=
  ("general", None).

Definition exampleAttributes (cpu : Z) (mem : float64) (ntwPerfCat category : string)
  : gmap string string :=
  {[ "cpu" := decimal cpu; "memory" := Sprintf_1f mem;
     "networkPerfTier" := ntwPerfCat; "category" := category ]}.

(** A region with two zones and three instance types: one offered in both
    zones, one with no bandwidth figure, one that no zone offers. *)
Definition hangzhouTypes : list InstanceType :=
  [mkInstanceType "ecs.g5.large" 1024000 2 8%float 0;
   mkInstanceType "ecs.t1.small" 0 1 1%float 0;
   mkInstanceType "ecs.gn5.large" 5120000 4 60%float 1].

Definition hangzhouZones : list Zone :=
  [mkZone "cn-hangzhou-b" ["ecs.g5.large"; "ecs.t1.small"]
          [["ecs.g5.large"; "ecs.t1.small"]];
   mkZone "cn-hangzhou-g" ["ecs.g5.large"] [["ecs.g5.large"]]].

Definition hangzhou : AlibabaInfoer :=
  mkAlibabaInfoer
    (fun _ request =>
       match request with
       | describeInstanceTypesRequest => inl (InstanceTypesDocument hangzhouTypes)
       | describeZonesRequest _ => inl (ZonesDocument hangzhouZones)
       | getPayAsYouGoPriceRequest _ instanceTypes =>
           successWith (map (fun _ => 0.25%float) instanceTypes)
       | describeSpotPriceHistoryRequest _ _ =>
           inl (SpotPriceHistoryDocument
                  [mkSpotPriceType "cn-hangzhou-g" 0.75%float;
                   mkSpotPriceType "cn-hangzhou-b" 0.5%float])
       end).

(** A provider that lists one zone with two instance types, fails the first
    spot price request and answers the second. *)
Definition flaky : AlibabaInfoer :=
  scripted
    [inl (ZonesDocument [mkZone "cn-hangzhou-b" ["ecs.g5.large"; "ecs.c5.large"] []]);
     inr (errors_New "timeout");
     inl (SpotPriceHistoryDocument
            [mkSpotPriceType "cn-hangzhou-g" 0.75%float;
             mkSpotPriceType "cn-hangzhou-b" 0.5%float])].

(** A provider that lists one zone and then sends a spot price history that
    [json.Unmarshal] rejects. *)
Definition garbled : AlibabaInfoer :=
  scripted
    [inl (ZonesDocument [mkZone "cn-hangzhou-b" ["ecs.g5.large"; "ecs.c5.large"] []]);
     inl (Malformed (errors_New "unexpected end of JSON input"))].

(** ** Further readings of a price fetch *)

(** A request that [getOnDemandPrice] may send for the instance types
    [types]: a price request in the region for at least one and at most 25
    of them. *)
Definition priceRequestFor (region : string) (types : list string)
    (x : CommonRequest * Reply) : Prop :=
  exists instanceTypes,
    x.1 = getPayAsYouGoPriceRequest region instanceTypes /\
    (0 < length instanceTypes <= 25)%nat /\
    (forall t, t ∈ instanceTypes -> t ∈ types).

(** Two descriptors that differ in their price at most. *)
Definition sameButPrice (vm vm' : VMInfo) : Prop :=
  Category vm' = Category vm /\ Type_ vm' = Type_ vm /\ Cpus vm' = Cpus vm /\
  Mem vm' = Mem vm /\ Gpus vm' = Gpus vm /\ NtwPerf vm' = NtwPerf vm /\
  NtwPerfCat vm' = NtwPerfCat vm /\ Zones vm' = Zones vm /\
  Attributes vm' = Attributes vm.

(** A descriptor with another price. *)
Definition setPrice (vm : VMInfo) (price : float64) : VMInfo :=
  {| Category := Category vm;
     Type_ := Type_ vm;
     OnDemandPrice := price;
     Cpus := Cpus vm;
     Mem := Mem vm;
     Gpus := Gpus vm;
     NtwPerf := NtwPerf vm;
     NtwPerfCat := NtwPerfCat vm;
     Zones := Zones vm;
     Attributes := Attributes vm |}.

(** A provider that accepts whatever it is asked, with one price per
    instance type. *)
Definition pricesAll (a : AlibabaInfoer) (region : string) : Prop :=
  forall history instanceTypes,
    exists prices,
      priceResult (client a history (getPayAsYouGoPriceRequest region instanceTypes))
        = inl prices /\
      length prices = length instanceTypes.

(** ** Further readings of [GetVirtualMachines] *)

(** The number of resource entries of a zone that support an instance type. *)
Definition offers (zone : Zone) (instanceTypeId : string) : nat :=
  length (filter (fun supported => supports supported instanceTypeId = true)
                 (AvailableResources zone)).

(** What the catalogue says of a descriptor, the price apart. *)
Definition describes (mapCategory : string -> string * option error)
    (MapNetworkPerf : string -> string * option error)
    (instanceType : InstanceType) (vm : VMInfo) : Prop :=
  Type_ vm = InstanceTypeId instanceType /\
  Cpus vm = float64_of_int (CpuCoreCount instanceType) /\
  Mem vm = MemorySize instanceType /\
  Gpus vm = float64_of_int (GPUAmount instanceType) /\
  NtwPerf vm = networkPerformance instanceType /\
  NtwPerfCat vm = (MapNetworkPerf (networkPerformance instanceType)).1 /\
  Category vm = (mapCategory (InstanceTypeId instanceType)).1.

(** A zone that lists an instance type in two of its resource entries. *)
Definition doubled : AlibabaInfoer :=
  scripted
    [inl (InstanceTypesDocument [mkInstanceType "ecs.g5.large" 1024000 2 8%float 0]);
     inl (ZonesDocument
            [mkZone "cn-hangzhou-b" ["ecs.g5.large"]
                    [["ecs.g5.large"]; ["ecs.c5.large"]; ["ecs.g5.large"]]]);
     successWith [0.25%float]].

(** ** The zones of a region *)

(** [GetZones], lines 315-332: the ids of the zones, appended one by one. *)
Definition GetZones (a : AlibabaInfoer) (region : string) : M (list string) :=
  writeLog LevelDebug "getting zones" [("region", FieldString region)] ;;;
  availableZones <- getZones a region ;;
  let zones := foldl (fun zones zone => zones ++ [ZoneId zone]) [] availableZones in
  writeLog LevelDebug "found zones"
           [("region", FieldString region);
            ("numberOfZones", FieldInt (Z.of_nat (length zones)))] ;;;
  ret zones.

(** ** Further readings of the spot price loops *)

(** What the loop of lines 99-105 leaves in [priceInfo] for an instance type
    whose history [priceTypes] arrives while the zone [zoneId] is walked:
    nothing when the history is empty or begins with an entry of the zone,
    and otherwise a map, with the price of the first entry of the zone when
    there is one further down. *)
Definition spotPriceOf (zoneId : string) (priceTypes : list SpotPriceType)
  : option SpotPriceInfo :=
  match priceTypes with
  | [] => None
  | first :: rest =>
      if String.eqb zoneId (SpotZoneId first) then None
      else Some match find (fun priceType => String.eqb zoneId (SpotZoneId priceType)) rest with
                | Some priceType => {[ zoneId := SpotPrice priceType ]}
                | None => ∅
                end
  end.

(** Every reference of [priceInfo] points into the store. *)
Definition storeBound (st : SpotStore) : Prop :=
  forall instanceType spotPrice,
    priceInfo st !! instanceType = Some spotPrice -> (spotPrice < length (heap st))%nat.

(** Every entry of [spotPrices] comes from a history among the exchanges
    [sent], received for an instance type that one of [zones] lists. *)
Definition entriesFrom (region : string) (zones : list Zone)
    (sent : list (CommonRequest * Reply)) (spotPrices : gmap string SpotPriceInfo) : Prop :=
  forall instanceType sp,
    spotPrices !! instanceType = Some sp ->
    exists zone priceTypes,
      zone ∈ zones /\
      instanceType ∈ AvailableInstanceTypes zone /\
      (describeSpotPriceHistoryRequest region instanceType,
       inl (SpotPriceHistoryDocument priceTypes)) ∈ sent /\
      spotPriceOf (ZoneId zone) priceTypes = Some sp.

(** A request for the spot price history of one of the instance types. *)
Definition spotRequestFor (region : string) (instanceTypes : list string)
    (x : CommonRequest * Reply) : Prop :=
  exists instanceType,
    instanceType ∈ instanceTypes /\
    x.1 = describeSpotPriceHistoryRequest region instanceType.

(** A region of one zone, whose price histories begin with that zone. *)
Definition singleZone : AlibabaInfoer :=
  mkAlibabaInfoer
    (fun _ request =>
       match request with
       | describeZonesRequest _ =>
           inl (ZonesDocument
                  [mkZone "cn-hangzhou-b" ["ecs.g5.large"; "ecs.t1.small"] []])
       | describeSpotPriceHistoryRequest _ _ =>
           inl (SpotPriceHistoryDocument
                  [mkSpotPriceType "cn-hangzhou-b" 0.5%float;
                   mkSpotPriceType "cn-hangzhou-b" 0.75%float])
       | _ => inr (errors_New "connection refused")
       end).

(** ** Counting the requests of the spot price loops *)

(** The instance types that the zones list, in the order the loops of lines
    80-81 walk them. *)
Definition listed (zones : list Zone) : list string :=
  concat (map AvailableInstanceTypes zones).

(** How often a zone lists an instance type, over all of [l]. *)
Definition occurrences (instanceType : string) (l : list string) : nat :=
  length (filter (fun t => t = instanceType) l).

(** Is the exchange a request for the spot price history of the type? *)
Definition asksFor (region instanceType : string) (x : CommonRequest * Reply) : bool :=
  match x.1 with
  | describeSpotPriceHistoryRequest r t => String.eqb r region && String.eqb t instanceType
  | _ => false
  end.

Definition requestsFor (region instanceType : string)
    (sent : list (CommonRequest * Reply)) : nat :=
  length (filter (fun x => asksFor region instanceType x = true) sent).

(** What holds of the store after the loops have walked the listings
    [walked] and exchanged [sent]: no instance type was asked more often than
    it was listed, one without an entry was asked at each of its listings,
    and a history that yields an entry under every zone that lists its type
    has left one. *)
Definition walkedSoFar (region : string) (zones : list Zone) (walked : list string)
    (sent : list (CommonRequest * Reply)) (st : SpotStore) : Prop :=
  storeBound st /\
  (forall instanceType,
     (requestsFor region instanceType sent <= occurrences instanceType walked)%nat /\
     (readPriceInfo st !! instanceType = None ->
      requestsFor region instanceType sent = occurrences instanceType walked)) /\
  (forall instanceType priceTypes,
     (describeSpotPriceHistoryRequest region instanceType,
      inl (SpotPriceHistoryDocument priceTypes)) ∈ sent ->
     (forall zone, zone ∈ zones -> instanceType ∈ AvailableInstanceTypes zone ->
        spotPriceOf (ZoneId zone) priceTypes <> None) ->
     readPriceInfo st !! instanceType <> None).

(** A provider that refuses every connection. *)
Definition unreachable : AlibabaInfoer := scripted [].

(** ** The renewal scheduler *)

(** The two refreshes of the scheduler's cadence. *)
Inductive Refresh : Type :=
  | FullRefresh
  | SpotPriceRefresh.

(** The two intervals, in ticks. *)
Record Cadence : Type := mkCadence {
  shortInterval : nat;
  longInterval : nat
}.

(** Modelled from the spec: the renewal scheduler (section 4.4), which is
    not among the sources. The full VM-info refresh of a provider runs on
    the long interval; a provider flagged [HasShortLivedPriceInfo() == true]
    gets a spot-price-only refresh on the short interval, independent of
    the full refresh. [due] lists the refreshes of a provider at a tick. *)
Definition due (shortLived : bool) (c : Cadence) (tick : nat) : list Refresh :=
  (if (tick mod longInterval c =? 0)%nat then [FullRefresh] else []) ++
  (if shortLived && (tick mod shortInterval c =? 0)%nat then [SpotPriceRefresh] else []).

(** Modelled from the spec: the refreshes of a provider at the ticks before
    [horizon], each with its tick, in the order of time. *)
Definition renewals (shortLived : bool) (c : Cadence) (horizon : nat)
  : list (nat * Refresh) :=
  concat (map (fun tick => map (pair tick) (due shortLived c tick)) (seq 0 horizon)).

(** Modelled from the spec: the scheduler reads the flag from the infoer. *)
Definition renewalsOf (a : AlibabaInfoer) (c : Cadence) (horizon : nat)
  : list (nat * Refresh) :=
  renewals (HasShortLivedPriceInfo a) c horizon.

(** ** Regions and images

    [GetRegions] and [GetServiceImages] send one request each, made by
    [describeRegionsRequest] and [describeImagesRequest]; the reply to such a
    request is given by what [json.Unmarshal] makes of its content. *)

(** [ecs.Region], the fields that the code reads. *)
Record Region : Type := mkRegion {
  RegionId : string;
  LocalName : string
}.

(** [ecs.Image], the field that the code reads. *)
Record EcsImage : Type := mkEcsImage {
  ImageId : string
}.

(** [types.Image]. *)
Record Image : Type := mkImage {
  Name : string
}.

Inductive Decoded (A : Type) : Type :=
  | Undecodable (e : error)
  | DecodedAs (response : A).

Arguments Undecodable {A} e.
Arguments DecodedAs {A} response.

Record ListingClient : Type := mkListingClient {
  describeRegions : Decoded (list Region) + error;
  describeImages : string -> Decoded (list EcsImage) + error
}.

(** [GetRegions], lines 335-358: the log lines it writes and what it returns. *)
Definition GetRegions (l : ListingClient) (service : string)
  : list LogLine * outcome (gmap string string) :=
  let started := [mkLogLine LevelDebug "getting regions" [("service", FieldString service)]] in
  match describeRegions l with
  | inr err => (started, Err (Wrap err "DescribeRegions API call problem"))
  | inl (Undecodable e) => (started, Err e)
  | inl (DecodedAs regions) =>
      let regionIdMap :=
        foldl (fun regionIdMap region =>
                 <[RegionId region := LocalName region]> regionIdMap)
              ∅ regions in
      (started ++
       [mkLogLine LevelDebug "found regions"
                  [("service", FieldString service);
                   ("numberOfRegions", FieldInt (Z.of_nat (size regionIdMap)))]],
       Ok regionIdMap)
  end.

(** [strings.Contains]. *)
Fixpoint Contains (s substr : string) : bool :=
  if String.prefix substr s then true
  else match s with
       | EmptyString => false
       | String _ rest => Contains rest substr
       end.

(** [GetServiceImages], lines 395-419. *)
Definition GetServiceImages (l : ListingClient) (service region : string)
  : outcome (list Image) :=
  match describeImages l region with
  | inr err => Err (Wrap err "DescribeImages API call problem")
  | inl (Undecodable e) => Err e
  | inl (DecodedAs response) =>
      Ok (foldl (fun images image =>
                   if Contains (ImageId image) "centos_7"
                   then images ++ [mkImage (ImageId image)]
                   else images)
                [] response)
  end.

(** A provider of two regions, one of them listed twice, and four images. *)
Definition exampleListing : ListingClient :=
  mkListingClient
    (inl (DecodedAs [mkRegion "cn-hangzhou" "Hangzhou";
                     mkRegion "cn-beijing" "Beijing";
                     mkRegion "cn-hangzhou" "China (Hangzhou)"]))
    (fun _ =>
       inl (DecodedAs [mkEcsImage "centos_7_06_64_20G_alibase_20190711.vhd";
                       mkEcsImage "ubuntu_18_04_64_20G_alibase_20190624.vhd";
                       mkEcsImage "centos_6_10_64_20G_alibase_20190621.vhd";
                       mkEcsImage "m-centos_7_custom"])).

(** * Properties *)

(** ** The examples run *)

Example getOnDemandPrice_catalogue :
  let '(w, r) := getOnDemandPrice priceList (map vmOfType catalogue) "cn-hangzhou" emptyWorld in
  map fst (exchanges w) =
    [getPayAsYouGoPriceRequest "cn-hangzhou" (take 25 catalogue);
     getPayAsYouGoPriceRequest "cn-hangzhou" ["ecs.retired"; "ecs.c5"];
     getPayAsYouGoPriceRequest "cn-hangzhou" ["ecs.retired"];
     getPayAsYouGoPriceRequest "cn-hangzhou" ["ecs.c5"]]
  /\ logged w = noPriceLines ["ecs.retired"]
  /\ match r with
     | Ok out => map OnDemandPrice out = replicate 25 0.25%float ++ [0%float; 0.25%float]
     | _ => False
     end.
Proof. vm_compute. repeat split; reflexivity. Qed.

Example GetVirtualMachines_hangzhou :
  let run := GetVirtualMachines specMapNetworkPerf exampleCategory exampleAttributes
               hangzhou "cn-hangzhou" emptyWorld in
  match run.2 with
  | Ok vms =>
      map (fun vm => (Type_ vm, NtwPerf vm, NtwPerfCat vm, Zones vm)) vms =
        [("ecs.g5.large", "1.0 Gbit/s", "medium", ["cn-hangzhou-b"; "cn-hangzhou-g"]);
         ("ecs.t1.small", "0.0 Gbit/s", "", ["cn-hangzhou-b"])]
  | _ => False
  end.
Proof. vm_compute. reflexivity. Qed.

Example getCurrentSpotPrices_hangzhou :
  (getCurrentSpotPrices hangzhou "cn-hangzhou" emptyWorld).2 =
  Ok {[ "ecs.g5.large" := {[ "cn-hangzhou-b" := 0.5%float ]};
        "ecs.t1.small" := {[ "cn-hangzhou-b" := 0.5%float ]} ]}.
Proof. vm_compute. reflexivity. Qed.

(** ** The monad *)

Lemma bind_ok {A B} (m : M A) (k : A -> M B) w w' b :
  bind m k w = (w', Ok b) ->
  exists w1 x, m w = (w1, Ok x) /\ k x w1 = (w', Ok b).
Proof.
  unfold bind. destruct (m w) as [w1 [x | e |]]; intros H; try discriminate.
  exists w1, x. split; [reflexivity | exact H].
Qed.

Lemma attempt_ok {A} (m : M A) w w' r :
  attempt m w = (w', Ok r) ->
  match r with
  | inl x => m w = (w', Ok x)
  | inr e => m w = (w', Err e)
  end.
Proof.
  unfold attempt. destruct (m w) as [w1 [x | e |]]; intros H; inversion H; reflexivity.
Qed.

Lemma bind_ext {A B} (m : M A) (k k' : A -> M B) w :
  (forall x w1, k x w1 = k' x w1) -> bind m k w = bind m k' w.
Proof.
  intros Hk. unfold bind. destruct (m w) as [w1 [x | e |]]; auto.
Qed.

(** ** One price request *)

Lemma getPrice_run a instanceTypes region w :
  getPrice a instanceTypes region w =
    let request := getPayAsYouGoPriceRequest region instanceTypes in
    let reply := client a (exchanges w) request in
    (mkWorld (exchanges w ++ [(request, reply)]) (logged w),
     match priceResult reply with
     | inl prices => Ok prices
     | inr err => Err err
     end).
Proof.
  unfold getPrice, bind, ProcessCommonRequest, priceResult. cbn.
  destruct (client a (exchanges w) _) as [[e | zs | its | sps | response] | err]; cbn;
    try reflexivity.
  destruct (Success response); reflexivity.
Qed.

(** ** The single-item retries of a rejected batch *)

Lemma retrySingly_ok a region rest :
  forall allPrices w w' allPrices',
  retrySingly a region rest allPrices w = (w', Ok allPrices') ->
  exists followups,
    length followups = length rest /\
    exchanges w' = exchanges w ++ zip (map (singleRequest region) rest) followups /\
    logged w' =
      logged w ++ noPriceLines (filter (fun x => isAccepted x.2 = false) (zip rest followups)).*1 /\
    dom allPrices' =
      dom allPrices ∪ list_to_set (filter (fun x => isAccepted x.2 = true) (zip rest followups)).*1.
Proof.
  induction rest as [| instanceType rest IH]; intros allPrices w w' allPrices' Hrun.
  - inversion Hrun; subst. exists []. cbn. rewrite !app_nil_r, union_empty_r_L.
    repeat split; reflexivity.
  - cbn [retrySingly] in Hrun. unfold bind at 1 in Hrun. unfold attempt in Hrun.
    rewrite getPrice_run in Hrun. cbn zeta in Hrun.
    set (reply := client a (exchanges w) (getPayAsYouGoPriceRequest region [instanceType])) in *.
    destruct (priceResult reply) as [prices | err] eqn:Hreply.
    + destruct prices as [| price prices]; [discriminate |]. cbn in Hrun.
      apply IH in Hrun as (followups & Hlen & Hex & Hlog & Hdom).
      exists (reply :: followups). cbn [zip_with map length].
      assert (Hacc : isAccepted reply = true) by (unfold isAccepted; rewrite Hreply; reflexivity).
      rewrite !filter_cons. cbn [snd]. rewrite Hacc.
      rewrite decide_False by discriminate. rewrite decide_True by reflexivity.
      cbn in Hex. rewrite <- app_assoc in Hex. cbn in Hex.
      split; [lia |]. split; [exact Hex |]. split; [exact Hlog |].
      rewrite Hdom, dom_insert_L. cbn.
      rewrite union_assoc_L, (union_comm_L (dom allPrices)). reflexivity.
    + cbn in Hrun. unfold bind, writeLog in Hrun. cbn in Hrun.
      apply IH in Hrun as (followups & Hlen & Hex & Hlog & Hdom).
      exists (reply :: followups). cbn [zip_with map length].
      assert (Hacc : isAccepted reply = false) by (unfold isAccepted; rewrite Hreply; reflexivity).
      rewrite !filter_cons. cbn [snd]. rewrite Hacc.
      rewrite decide_True by reflexivity. rewrite decide_False by discriminate.
      cbn in Hex, Hlog. rewrite <- app_assoc in Hex, Hlog. cbn in Hex, Hlog.
      split; [lia |]. split; [exact Hex |]. split; [exact Hlog |]. exact Hdom.
Qed.

(** The retries of a rejected batch end in a price map or in a panic, never
    in an error. [followups] are the replies to the single-item requests
    that were sent: one per member when the retries complete; when they
    panic, the last one was accepted without a price. *)
Lemma retrySingly_run a region rest :
  forall allPrices w w' r,
  retrySingly a region rest allPrices w = (w', r) ->
  exists followups,
    exchanges w' = exchanges w ++ zip (map (singleRequest region) rest) followups /\
    (length followups <= length rest)%nat /\
    match r with
    | Ok _ => length followups = length rest
    | Err _ => False
    | Panic => exists reply, last followups = Some reply /\ priceResult reply = inl []
    end.
Proof.
  induction rest as [| instanceType rest IH]; intros allPrices w w' r Hrun.
  - inversion Hrun; subst. exists []. cbn. rewrite app_nil_r.
    repeat split; reflexivity || lia.
  - cbn [retrySingly] in Hrun. unfold bind at 1 in Hrun. unfold attempt in Hrun.
    rewrite getPrice_run in Hrun. cbn zeta in Hrun.
    fold (singleRequest region instanceType) in Hrun.
    set (reply := client a (exchanges w) (singleRequest region instanceType)) in *.
    assert (Hcons : forall w1 followups,
               exchanges w1 = exchanges w ++ [(singleRequest region instanceType, reply)] ->
               exchanges w' = exchanges w1 ++ zip (map (singleRequest region) rest) followups ->
               (length followups <= length rest)%nat ->
               match r with
               | Ok _ => length followups = length rest
               | Err _ => False
               | Panic => exists reply', last followups = Some reply' /\ priceResult reply' = inl []
               end ->
               exists followups',
                 exchanges w' =
                   exchanges w
                   ++ zip (map (singleRequest region) (instanceType :: rest)) followups' /\
                 (length followups' <= length (instanceType :: rest))%nat /\
                 match r with
                 | Ok _ => length followups' = length (instanceType :: rest)
                 | Err _ => False
                 | Panic =>
                     exists reply', last followups' = Some reply' /\ priceResult reply' = inl []
                 end).
    { intros w1 followups Hw1 Hex Hlen Hout. exists (reply :: followups).
      cbn [map zip_with length]. rewrite Hex, Hw1, <- app_assoc.
      split; [reflexivity |]. split; [lia |].
      destruct r as [allPrices' | e |]; [lia | exact Hout |].
      destruct Hout as (reply' & Hlast & Hempty). exists reply'. split; [| exact Hempty].
      destruct followups; [discriminate | exact Hlast]. }
    destruct (priceResult reply) as [[| price prices] | err] eqn:Hreply.
    + inversion Hrun; subst. exists [reply]. cbn.
      split; [destruct rest; reflexivity |]. split; [lia |].
      exists reply. split; [reflexivity | exact Hreply].
    + cbn [lookup list_lookup] in Hrun.
      destruct (IH _ _ _ _ Hrun) as (followups & Hex & Hlen & Hout).
      eapply Hcons; [| exact Hex | exact Hlen | exact Hout]. reflexivity.
    + unfold bind, writeLog in Hrun. cbn [fst snd exchanges logged] in Hrun.
      destruct (IH _ _ _ _ Hrun) as (followups & Hex & Hlen & Hout).
      eapply Hcons; [| exact Hex | exact Hlen | exact Hout]. reflexivity.
Qed.

Lemma retrySingly_single a region t allPrices w :
  (retrySingly a region [t] allPrices w).2 = Panic <->
  priceResult (client a (exchanges w) (singleRequest region t)) = inl [].
Proof.
  cbn [retrySingly]. unfold bind at 1. unfold attempt. rewrite getPrice_run. cbn zeta.
  fold (singleRequest region t).
  destruct (priceResult (client a (exchanges w) (singleRequest region t)))
    as [[| price prices] | err]; cbn.
  - split; reflexivity.
  - split; discriminate.
  - split; discriminate.
Qed.

(** ** An accepted batch *)

Lemma assignPrices_ok prices instanceTypes :
  forall i allPrices w w' allPrices',
  (i <= length instanceTypes)%nat ->
  assignPrices i prices instanceTypes allPrices w = (w', Ok allPrices') ->
  w' = w /\
  (i + length prices <= length instanceTypes)%nat /\
  dom allPrices' =
    dom allPrices ∪ list_to_set (take (length prices) (drop i instanceTypes)).
Proof.
  induction prices as [| price prices IH]; intros i allPrices w w' allPrices' Hi0 Hrun.
  - inversion Hrun; subst. cbn. split; [reflexivity |]. split; [lia |].
    rewrite take_0. cbn. rewrite union_empty_r_L. reflexivity.
  - cbn [assignPrices] in Hrun.
    destruct (instanceTypes !! i) as [instanceType |] eqn:Hi; [| discriminate].
    apply IH in Hrun as (-> & Hlen & Hdom);
      [| apply lookup_lt_Some in Hi; lia].
    split; [reflexivity |]. split; [cbn; lia |].
    rewrite Hdom, dom_insert_L. rewrite (drop_S _ _ _ Hi). cbn.
    rewrite union_assoc_L, (union_comm_L (dom allPrices)). reflexivity.
Qed.

Lemma assignPrices_no_error prices instanceTypes :
  forall i allPrices w w' e,
  assignPrices i prices instanceTypes allPrices w <> (w', Err e).
Proof.
  induction prices as [| price prices IH]; intros i allPrices w w' e; cbn.
  - discriminate.
  - destruct (instanceTypes !! i); [apply IH | discriminate].
Qed.

(** ** One batch *)

Lemma fetchBatch_ok a region b allPrices w w' allPrices' :
  fetchBatch a region b allPrices w = (w', Ok allPrices') ->
  exists report,
    wellFormed (b, report) /\
    exchanges w' = exchanges w ++ exchangesOf region (b, report) /\
    logged w' = logged w ++ noPriceLines (skippedOf (b, report)) /\
    dom allPrices' = dom allPrices ∪ list_to_set (pricedOf (b, report)).
Proof.
  unfold fetchBatch. unfold bind at 1. unfold attempt. rewrite getPrice_run. cbn zeta.
  set (reply := client a (exchanges w) (getPayAsYouGoPriceRequest region b)).
  destruct (priceResult reply) as [prices | err] eqn:Hreply; intros Hrun.
  - apply assignPrices_ok in Hrun as (-> & Hlen & Hdom); [| lia].
    exists (Accepted reply). cbn. unfold isAccepted. rewrite Hreply.
    rewrite app_nil_r. rewrite drop_0 in Hdom. repeat split; assumption || reflexivity.
  - destruct (isParameterRejection err) eqn:Hrej; [| discriminate].
    apply retrySingly_ok in Hrun as (followups & Hlen & Hex & Hlog & Hdom).
    exists (Retried reply followups). cbn in *. unfold isRejection. rewrite Hreply.
    rewrite <- app_assoc in Hex. repeat split; assumption.
Qed.

(** After a parameter rejection [fetchBatch] sends the single-item requests
    in the order of the batch; it sends all of them unless it panics. *)
Lemma fetchBatch_rejected a region b allPrices w w' r :
  let reply := client a (exchanges w) (getPayAsYouGoPriceRequest region b) in
  isRejection reply = true ->
  fetchBatch a region b allPrices w = (w', r) ->
  exists followups,
    exchanges w' =
      exchanges w ++ (getPayAsYouGoPriceRequest region b, reply)
                     :: zip (map (singleRequest region) b) followups /\
    (length followups <= length b)%nat /\
    match r with
    | Ok _ => length followups = length b
    | Err _ => False
    | Panic => exists reply', last followups = Some reply' /\ priceResult reply' = inl []
    end.
Proof.
  cbv zeta. unfold isRejection, fetchBatch. unfold bind at 1. unfold attempt.
  rewrite getPrice_run. cbn zeta.
  set (reply := client a (exchanges w) (getPayAsYouGoPriceRequest region b)).
  destruct (priceResult reply) as [prices | err]; [discriminate |].
  intros Hrej. rewrite Hrej. intros Hrun.
  apply retrySingly_run in Hrun as (followups & Hex & Hlen & Hout).
  exists followups. rewrite Hex. cbn. rewrite <- app_assoc.
  split; [reflexivity |]. split; [exact Hlen | exact Hout].
Qed.

(** A batch request that fails with another error ends the batch, with that
    error, after the one request. *)
Lemma fetchBatch_aborts a region b allPrices w err :
  let reply := client a (exchanges w) (getPayAsYouGoPriceRequest region b) in
  priceResult reply = inr err ->
  isParameterRejection err = false ->
  fetchBatch a region b allPrices w =
    (mkWorld (exchanges w ++ [(getPayAsYouGoPriceRequest region b, reply)]) (logged w),
     Err err).
Proof.
  cbv zeta. intros Hreply Hrej. unfold fetchBatch, bind, attempt.
  rewrite getPrice_run. cbn zeta. rewrite Hreply, Hrej. reflexivity.
Qed.

(** ** A list of batches *)

Lemma fetchBatches_ok a region bs :
  forall allPrices w w' allPrices',
  fetchBatches a region bs allPrices w = (w', Ok allPrices') ->
  exists reports,
    length reports = length bs /\
    Forall wellFormed (zip bs reports) /\
    exchanges w' = exchanges w ++ concat (map (exchangesOf region) (zip bs reports)) /\
    logged w' = logged w ++ noPriceLines (concat (map skippedOf (zip bs reports))) /\
    dom allPrices' = dom allPrices ∪ list_to_set (concat (map pricedOf (zip bs reports))).
Proof.
  induction bs as [| b bs IH]; intros allPrices w w' allPrices' Hrun.
  - inversion Hrun; subst. exists []. cbn. rewrite !app_nil_r, union_empty_r_L.
    repeat split; try reflexivity. constructor.
  - cbn [fetchBatches] in Hrun.
    apply bind_ok in Hrun as (w1 & allPrices1 & Hb & Hrun).
    apply fetchBatch_ok in Hb as (report & Hwf & Hex1 & Hlog1 & Hdom1).
    apply IH in Hrun as (reports & Hlen & Hwfs & Hex & Hlog & Hdom).
    exists (report :: reports). cbn [zip_with map concat length].
    split; [lia |]. split; [constructor; assumption |].
    unfold noPriceLines in *. rewrite map_app, list_to_set_app_L.
    rewrite Hex, Hex1, Hlog, Hlog1, Hdom, Hdom1, <- !app_assoc, union_assoc_L.
    repeat split; reflexivity.
Qed.

(** An error of the whole fetch is the error of a batch request, which is no
    parameter rejection, and that request is the last one sent. *)
Lemma fetchBatches_aborts a region bs :
  forall allPrices w w' e,
  fetchBatches a region bs allPrices w = (w', Err e) ->
  exists b reply,
    b ∈ bs /\
    last (exchanges w') = Some (getPayAsYouGoPriceRequest region b, reply) /\
    priceResult reply = inr e /\
    isParameterRejection e = false.
Proof.
  induction bs as [| b bs IH]; intros allPrices w w' e; [discriminate |].
  cbn [fetchBatches]. unfold bind.
  destruct (fetchBatch a region b allPrices w) as [w1 [allPrices1 | e1 |]] eqn:Hb.
  - intros Hrun. destruct (IH _ _ _ _ Hrun) as (b' & reply & Hin & Hlast & Hres).
    exists b', reply. split; [right; exact Hin |]. split; [exact Hlast | exact Hres].
  - intros Hrun. inversion Hrun; subst e1 w1. clear Hrun.
    set (reply := client a (exchanges w) (getPayAsYouGoPriceRequest region b)).
    exists b, reply. split; [left |].
    revert Hb. unfold fetchBatch. unfold bind at 1. unfold attempt.
    rewrite getPrice_run. cbn zeta. fold reply.
    destruct (priceResult reply) as [prices | err] eqn:Hreply.
    + intros Hb. exfalso. exact (assignPrices_no_error _ _ _ _ _ _ _ Hb).
    + destruct (isParameterRejection err) eqn:Hrej.
      * intros Hb. apply retrySingly_run in Hb as (followups & _ & _ & []).
      * intros Hb. inversion Hb; subst. cbn. rewrite last_snoc.
        repeat split; reflexivity || assumption.
  - discriminate.
Qed.

(** ** The partition into batches *)

Lemma batchesUpTo_fuel fuel :
  forall fuel' l,
  (length l <= fuel)%nat -> (length l <= fuel')%nat ->
  batchesUpTo fuel l = batchesUpTo fuel' l.
Proof.
  induction fuel as [| fuel IH]; intros fuel' l Hf Hf'.
  - destruct l; [| cbn in Hf; lia]. destruct fuel'; reflexivity.
  - destruct l as [| x l]; [destruct fuel'; reflexivity |].
    destruct fuel' as [| fuel']; [cbn in Hf'; lia |].
    cbn [batchesUpTo]. f_equal. apply IH.
    + rewrite length_drop. cbn in *. lia.
    + rewrite length_drop. cbn in *. lia.
Qed.

Lemma batches_nil : batches [] = [].
Proof. reflexivity. Qed.

Lemma batches_cons l :
  l <> [] -> batches l = take 25 l :: batches (drop 25 l).
Proof.
  intros Hl. unfold batches. destruct l as [| x l]; [congruence |].
  cbn [length batchesUpTo]. f_equal. apply batchesUpTo_fuel.
  - rewrite length_drop. cbn. lia.
  - reflexivity.
Qed.

Lemma batches_ind (P : list string -> Prop) :
  P [] ->
  (forall l, l <> [] -> P (drop 25 l) -> P l) ->
  forall l, P l.
Proof.
  intros Hnil Hstep l.
  remember (length l) as n eqn:Hn. revert l Hn.
  induction n as [n IH] using lt_wf_ind. intros l Hn.
  destruct l as [| x l]; [exact Hnil |].
  apply Hstep; [discriminate |].
  apply (IH (length (drop 25 (x :: l)))); [| reflexivity].
  rewrite length_drop. subst n. cbn. lia.
Qed.

Lemma batches_concat l : concat (batches l) = l.
Proof.
  induction l as [| l Hl IH] using batches_ind; [reflexivity |].
  rewrite batches_cons by exact Hl. cbn. rewrite IH. apply take_drop.
Qed.

Lemma batches_bounded l :
  Forall (fun b => (0 < length b <= 25)%nat) (batches l).
Proof.
  induction l as [| l Hl IH] using batches_ind; [constructor |].
  rewrite batches_cons by exact Hl. constructor; [| exact IH].
  rewrite length_take. destruct l; [congruence |]. cbn [length]. lia.
Qed.

Lemma batches_full l i b :
  batches l !! i = Some b -> (S i < length (batches l))%nat -> length b = 25%nat.
Proof.
  revert i. induction l as [| l Hl IH] using batches_ind; intros i Hi Hlast.
  - discriminate.
  - rewrite batches_cons in Hi, Hlast by exact Hl. destruct i as [| i].
    + cbn in Hi, Hlast. inversion Hi; subst b.
      destruct (decide (drop 25 l = [])) as [Hd | Hd].
      * rewrite Hd in Hlast. cbn in Hlast. lia.
      * rewrite length_take. assert (length (drop 25 l) <> 0%nat).
        { destruct (drop 25 l); [congruence | discriminate]. }
        rewrite length_drop in H. lia.
    + cbn in Hi, Hlast. apply (IH i Hi). lia.
Qed.

(** The loop of [getOnDemandPrice] sends the batches of the instance types,
    in order. [acc] is what the loop has collected since the last request. *)
Lemma batchLoop_batches a region n rest :
  forall index acc allPrices w,
  (index + length rest = n)%nat ->
  (length acc < 25)%nat ->
  rest <> [] \/ acc = [] ->
  batchLoop a region n index rest acc allPrices w =
  fetchBatches a region (batches (acc ++ map Type_ rest)) allPrices w.
Proof.
  induction rest as [| vm rest IH]; intros index acc allPrices w Hn Hacc Hne.
  - destruct Hne as [Hne | ->]; [congruence |]. reflexivity.
  - cbn [batchLoop map].
    assert (Hsplit : acc ++ Type_ vm :: map Type_ rest
                     = (acc ++ [Type_ vm]) ++ map Type_ rest)
      by (rewrite <- app_assoc; reflexivity).
    rewrite Hsplit.
    assert (Hlen : length (acc ++ [Type_ vm]) = S (length acc))
      by (rewrite length_app; cbn; lia).
    destruct (length (acc ++ [Type_ vm]) =? 25)%nat eqn:Hfull.
    + apply Nat.eqb_eq in Hfull. cbn [orb].
      rewrite batches_cons by (destruct acc; discriminate).
      rewrite take_app_length' by (symmetry; exact Hfull).
      rewrite drop_app_length' by (symmetry; exact Hfull).
      cbn [fetchBatches]. apply bind_ext. intros allPrices1 w1.
      apply (IH (S index) [] allPrices1 w1); [cbn in Hn; lia | cbn; lia | right; reflexivity].
    + apply Nat.eqb_neq in Hfull. cbn [orb].
      destruct (index + 1 =? n)%nat eqn:Hlast.
      * apply Nat.eqb_eq in Hlast.
        assert (rest = []) as -> by (destruct rest; [reflexivity | cbn in Hn; lia]).
        cbn [map]. rewrite app_nil_r.
        rewrite batches_cons by (destruct acc; discriminate).
        rewrite take_ge by lia. rewrite drop_ge by lia.
        reflexivity.
      * apply Nat.eqb_neq in Hlast.
        apply (IH (S index) (acc ++ [Type_ vm]) allPrices w);
          [cbn in Hn; lia | lia |].
        left. destruct rest; [cbn in Hn; lia | discriminate].
Qed.

Lemma fetchPrices_batches a vms region w :
  fetchPrices a vms region w =
  fetchBatches a region (batches (map Type_ vms)) ∅ w.
Proof.
  unfold fetchPrices.
  apply (batchLoop_batches a region (length vms) vms 0 [] ∅ w); [reflexivity | cbn; lia |].
  right; reflexivity.
Qed.

(** ** Priced and skipped instance types *)

Lemma accepted_split (l : list (string * Reply)) :
  (filter (fun x => isAccepted x.2 = true) l).*1
    ++ (filter (fun x => isAccepted x.2 = false) l).*1 ≡ₚ l.*1.
Proof.
  induction l as [| x l IH]; [reflexivity |].
  rewrite !filter_cons. destruct (isAccepted x.2) eqn:Hx.
  - rewrite decide_True by reflexivity. rewrite decide_False by discriminate.
    cbn. rewrite IH. reflexivity.
  - rewrite decide_False by discriminate. rewrite decide_True by reflexivity.
    cbn. rewrite <- Permutation_middle. rewrite IH. reflexivity.
Qed.

Lemma priced_skipped_of run :
  wellFormed run ->
  pricedOf run ++ skippedOf run ⊆+ run.1 /\
  (exact run -> pricedOf run ++ skippedOf run ≡ₚ run.1).
Proof.
  destruct run as [b [reply | reply followups]]; cbn.
  - unfold isAccepted. rewrite app_nil_r.
    destruct (priceResult reply) as [prices | err]; [intros _ | discriminate].
    split.
    + apply sublist_submseteq, sublist_take.
    + intros Hlen. rewrite Hlen, take_ge by lia. reflexivity.
  - intros [_ Hlen].
    assert (Hb : (zip b followups).*1 = b) by (apply fst_zip; lia).
    pose proof (accepted_split (zip b followups)) as Hsplit.
    rewrite Hb in Hsplit. split; [rewrite Hsplit; reflexivity | intros _; exact Hsplit].
Qed.

Lemma priced_skipped_types runs :
  Forall wellFormed runs ->
  pricedTypes runs ++ skippedTypes runs ⊆+ concat runs.*1 /\
  (Forall exact runs -> pricedTypes runs ++ skippedTypes runs ≡ₚ concat runs.*1).
Proof.
  unfold pricedTypes, skippedTypes.
  induction 1 as [| run runs Hwf _ [IHsub IHperm]]; cbn.
  - split; reflexivity.
  - destruct (priced_skipped_of run Hwf) as [Hsub Hperm].
    assert (Hshuffle : forall p s ps ss : list string,
               (p ++ ps) ++ s ++ ss ≡ₚ (p ++ s) ++ ps ++ ss).
    { intros p s ps ss. rewrite <- !app_assoc. apply Permutation_app_head.
      rewrite !app_assoc. apply Permutation_app_tail, Permutation_app_comm. }
    split.
    + rewrite Hshuffle. apply submseteq_app; assumption.
    + intros Hexact. inversion Hexact; subst.
      rewrite Hshuffle. rewrite Hperm, IHperm by assumption. reflexivity.
Qed.

Lemma submseteq_NoDup (l k : list string) : l ⊆+ k -> NoDup k -> NoDup l.
Proof.
  intros Hsub Hk. apply submseteq_Permutation in Hsub as [k' Hperm].
  rewrite Hperm in Hk. apply NoDup_app in Hk as [Hl _]. exact Hl.
Qed.

Lemma skipped_unpriced runs t :
  Forall wellFormed runs -> NoDup (concat runs.*1) ->
  t ∈ skippedTypes runs -> t ∈ concat runs.*1 /\ t ∉ pricedTypes runs.
Proof.
  intros Hwf Hnodup Ht.
  destruct (priced_skipped_types runs Hwf) as [Hsub _].
  split.
  - apply (elem_of_submseteq (pricedTypes runs ++ skippedTypes runs)); [| exact Hsub].
    apply elem_of_app. right. exact Ht.
  - pose proof (submseteq_NoDup _ _ Hsub Hnodup) as Hnd.
    apply NoDup_app in Hnd as (_ & Hdisjoint & _).
    intros Hp. exact (Hdisjoint t Hp Ht).
Qed.

(** ** The price map of a completed fetch *)

Lemma fetchPrices_ok a vms region w w' allPrices :
  fetchPrices a vms region w = (w', Ok allPrices) ->
  exists runs,
    runs.*1 = batches (map Type_ vms) /\
    Forall wellFormed runs /\
    exchanges w' = exchanges w ++ exchangesOfRuns region runs /\
    logged w' = logged w ++ noPriceLines (skippedTypes runs) /\
    dom allPrices = list_to_set (pricedTypes runs).
Proof.
  rewrite fetchPrices_batches. intros Hrun.
  apply fetchBatches_ok in Hrun as (reports & Hlen & Hwf & Hex & Hlog & Hdom).
  exists (zip (batches (map Type_ vms)) reports).
  split; [apply fst_zip; lia |]. split; [exact Hwf |].
  split; [exact Hex |]. split; [exact Hlog |].
  rewrite Hdom, dom_empty_L, union_empty_l_L. reflexivity.
Qed.

Lemma getOnDemandPrice_ok a vms region w w' out :
  getOnDemandPrice a vms region w = (w', Ok out) ->
  exists allPrices,
    fetchPrices a vms region w = (w', Ok allPrices) /\
    out = map (withPrice allPrices) vms.
Proof.
  unfold getOnDemandPrice. intros Hrun.
  apply bind_ok in Hrun as (w1 & allPrices & Hfetch & Hret).
  inversion Hret; subst. exists allPrices. split; [exact Hfetch | reflexivity].
Qed.

Lemma exact_runs region runs :
  forallb isExact (exchangesOfRuns region runs) = true -> Forall exact runs.
Proof.
  unfold exchangesOfRuns.
  induction runs as [| [b report] runs IH]; cbn [map concat]; intros Hall; [constructor |].
  rewrite forallb_app in Hall. apply andb_prop in Hall as [Hrun Hruns].
  constructor; [| exact (IH Hruns)].
  destruct report as [reply | reply followups]; cbn in *; [| exact I].
  unfold isExact in Hrun. cbn in Hrun.
  destruct (priceResult reply) as [prices |]; [| exact I].
  rewrite andb_true_r in Hrun. apply Nat.eqb_eq in Hrun. exact Hrun.
Qed.

Lemma newExchanges_app w w' l :
  exchanges w' = exchanges w ++ l -> newExchanges w w' = l.
Proof. unfold newExchanges. intros ->. apply drop_app_length. Qed.

Lemma newLines_app w w' l :
  logged w' = logged w ++ l -> newLines w w' = l.
Proof. unfold newLines. intros ->. apply drop_app_length. Qed.

(** ** A provider that prices every request *)

Lemma assignPrices_completes prices instanceTypes :
  forall i allPrices w,
  (i + length prices <= length instanceTypes)%nat ->
  exists allPrices', assignPrices i prices instanceTypes allPrices w = (w, Ok allPrices').
Proof.
  induction prices as [| price prices IH]; intros i allPrices w Hlen.
  - exists allPrices. reflexivity.
  - cbn [assignPrices]. cbn [length] in Hlen.
    destruct (lookup_lt_is_Some_2 instanceTypes i) as [instanceType Hi]; [lia |].
    rewrite Hi. apply IH. lia.
Qed.

(** When the provider accepts every price request with one price per
    instance type, whatever was exchanged before, [getOnDemandPrice] returns
    a list. *)
Lemma getOnDemandPrice_completes a region :
  (forall history instanceTypes,
     exists prices,
       priceResult (client a history (getPayAsYouGoPriceRequest region instanceTypes))
         = inl prices /\
       length prices = length instanceTypes) ->
  forall vms w, exists w' out, getOnDemandPrice a vms region w = (w', Ok out).
Proof.
  intros Hprovider vms w.
  assert (Hbatches : forall bs allPrices w0,
             exists w1 allPrices1, fetchBatches a region bs allPrices w0 = (w1, Ok allPrices1)).
  { induction bs as [| b bs IH]; intros allPrices w0.
    - exists w0, allPrices. reflexivity.
    - cbn [fetchBatches]. unfold bind at 1. unfold fetchBatch. unfold bind at 1.
      unfold attempt. rewrite getPrice_run. cbn zeta.
      destruct (Hprovider (exchanges w0) b) as (prices & -> & Hlen).
      match goal with
      | |- context [assignPrices 0 prices b allPrices ?w1] =>
          destruct (assignPrices_completes prices b 0 allPrices w1) as [allPrices1 ->];
            [lia |]
      end.
      apply IH. }
  unfold getOnDemandPrice, bind. rewrite fetchPrices_batches.
  destruct (Hbatches (batches (map Type_ vms)) ∅ w) as (w1 & allPrices1 & ->).
  exists w1, (map (withPrice allPrices1) vms). reflexivity.
Qed.

(** ** Claims about [getOnDemandPrice] *)

(** C1 (amended). When [getOnDemandPrice] returns a list, it has cut the
    instance types into consecutive batches of at most 25, all of 25 but the
    last, and has sent one price request per batch, followed, for a batch
    that was rejected, by one request per member; the keys of its price map
    are the instance types that were priced. When moreover every accepted
    reply carries one price per instance type asked for, the priced and the
    skipped instance types together are the input ones, and for pairwise
    distinct input types the priced ones are the input set minus the types
    whose single-item retry failed too. *)
Theorem getOnDemandPrice_batches a vms region w w' out :
  getOnDemandPrice a vms region w = (w', Ok out) ->
  exists runs allPrices,
    runs.*1 = batches (map Type_ vms) /\
    concat runs.*1 = map Type_ vms /\
    Forall (fun b => (0 < length b <= 25)%nat) runs.*1 /\
    (forall i b, runs.*1 !! i = Some b -> (S i < length runs)%nat -> length b = 25%nat) /\
    Forall wellFormed runs /\
    newExchanges w w' = exchangesOfRuns region runs /\
    newLines w w' = noPriceLines (skippedTypes runs) /\
    out = map (withPrice allPrices) vms /\
    dom allPrices = list_to_set (pricedTypes runs) /\
    (forallb isExact (newExchanges w w') = true ->
     pricedTypes runs ++ skippedTypes runs ≡ₚ map Type_ vms /\
     (NoDup (map Type_ vms) ->
      dom allPrices = list_to_set (map Type_ vms) ∖ list_to_set (skippedTypes runs))).
Proof.
  intros Hrun.
  apply getOnDemandPrice_ok in Hrun as (allPrices & Hfetch & ->).
  apply fetchPrices_ok in Hfetch as (runs & Hbs & Hwf & Hex & Hlog & Hdom).
  exists runs, allPrices.
  apply newExchanges_app in Hex. apply newLines_app in Hlog.
  split; [exact Hbs |].
  split; [rewrite Hbs; apply batches_concat |].
  split; [rewrite Hbs; apply batches_bounded |].
  split.
  { intros i b Hi Hlast. rewrite Hbs in Hi. apply (batches_full _ _ _ Hi).
    rewrite <- Hbs, length_fmap. exact Hlast. }
  split; [exact Hwf |]. split; [exact Hex |]. split; [exact Hlog |].
  split; [reflexivity |]. split; [exact Hdom |].
  intros Hexact. rewrite Hex in Hexact. apply exact_runs in Hexact.
  destruct (priced_skipped_types runs Hwf) as [_ Hperm]. specialize (Hperm Hexact).
  rewrite Hbs, batches_concat in Hperm.
  split; [exact Hperm |].
  intros Hnodup. rewrite <- Hperm in Hnodup.
  apply NoDup_app in Hnodup as (_ & Hdisjoint & _).
  rewrite Hdom. apply set_eq. intros t.
  rewrite elem_of_difference, !elem_of_list_to_set, <- Hperm, elem_of_app.
  split.
  - intros Ht. split; [left; exact Ht | exact (Hdisjoint t Ht)].
  - intros [[Ht | Ht] Hnot]; [exact Ht | contradiction].
Qed.

Lemma getOnDemandPrice_batches_witness :
  let vms := map vmOfType catalogue in
  let run := getOnDemandPrice priceList vms "cn-hangzhou" emptyWorld in
  exists out runs allPrices,
    run.2 = Ok out /\
    runs.*1 = [take 25 catalogue; ["ecs.retired"; "ecs.c5"]] /\
    newLines emptyWorld run.1 = noPriceLines (skippedTypes runs) /\
    out = map (withPrice allPrices) vms /\
    dom allPrices = list_to_set catalogue ∖ list_to_set (skippedTypes runs).
Proof.
  intros vms run.
  pose (out := match run.2 with Ok out => out | _ => [] end).
  assert (Hrun : getOnDemandPrice priceList vms "cn-hangzhou" emptyWorld = (run.1, Ok out))
    by (vm_compute; reflexivity).
  destruct (getOnDemandPrice_batches _ _ _ _ _ _ Hrun)
    as (runs & allPrices & Hbs & _ & _ & _ & _ & _ & Hlog & Hout & _ & Hprices).
  assert (Hexact : forallb isExact (newExchanges emptyWorld run.1) = true)
    by (vm_compute; reflexivity).
  destruct (Hprices Hexact) as [_ Hset].
  assert (Hnodup : NoDup (map Type_ vms))
    by (apply (bool_decide_unpack _); vm_compute; reflexivity).
  exists out, runs, allPrices.
  split; [vm_compute; reflexivity |].
  split; [exact Hbs |]. split; [exact Hlog |]. split; [exact Hout |].
  exact (Hset Hnodup).
Defined.

(** C1, as stated, fails in three ways. (1) The provider accepts the request
    for a single instance type and sends no price: the fetch completes, no
    retry was made, and the type has no price. (2) The first of two batches
    fails with an error that is not a parameter rejection: one request is
    sent, not one per batch. (3) An instance type is listed twice, its
    batch is rejected, and only the first of its two retries succeeds: the
    type has a price although a retry for it failed. *)
Lemma getOnDemandPrice_batches_counterexample :
  (let a := scripted [successWith []] in
   let vms := [vmOfType "ecs.g5.large"] in
   let run := fetchPrices a vms "cn-hangzhou" emptyWorld in
   run.2 = Ok ∅ /\
   map fst (exchanges run.1) = [getPayAsYouGoPriceRequest "cn-hangzhou" ["ecs.g5.large"]] /\
   logged run.1 = [] /\
   (getOnDemandPrice a vms "cn-hangzhou" emptyWorld).2 = Ok vms /\
   dom (∅ : gmap string float64) <> list_to_set (map Type_ vms) ∖ list_to_set [])
  /\
  (let a := scripted [throttled] in
   let vms := map vmOfType catalogue in
   let run := getOnDemandPrice a vms "cn-hangzhou" emptyWorld in
   length (batches (map Type_ vms)) = 2%nat /\
   length (exchanges run.1) = 1%nat /\
   run.2 = Err (mkError "failed to get price" ["Throttling"]))
  /\
  (let a := scripted [invalidParameter; successWith [0.25%float];
                      inr (errors_New "timeout")] in
   let vms := [vmOfType "ecs.g5.large"; vmOfType "ecs.g5.large"] in
   let run := fetchPrices a vms "cn-hangzhou" emptyWorld in
   run.2 = Ok {["ecs.g5.large" := 0.25%float]} /\
   logged run.1 = noPriceLines ["ecs.g5.large"] /\
   dom ({["ecs.g5.large" := 0.25%float]} : gmap string float64)
     <> list_to_set (map Type_ vms) ∖ list_to_set ["ecs.g5.large"]).
Proof.
  split; [| split].
  - cbv zeta. split; [vm_compute; reflexivity |].
    split; [vm_compute; reflexivity |]. split; [vm_compute; reflexivity |].
    split; [vm_compute; reflexivity |].
    intros H. apply (f_equal (fun s => bool_decide ("ecs.g5.large" ∈ s))) in H.
    vm_compute in H. discriminate.
  - cbv zeta. split; [vm_compute; reflexivity |].
    split; [vm_compute; reflexivity |]. vm_compute; reflexivity.
  - cbv zeta. split; [vm_compute; reflexivity |]. split; [vm_compute; reflexivity |].
    intros H. apply (f_equal (fun s => bool_decide ("ecs.g5.large" ∈ s))) in H.
    vm_compute in H. discriminate.
Qed.

(** C2 fails on the code: a batch of two is rejected for its parameters, the
    provider accepts the request for the first member without a price, and
    [getOnDemandPrice] panics at [prices[0]]: one follow-up request was sent,
    none for the second member. *)
Theorem getOnDemandPrice_retry_stops_early :
  let a := scripted [invalidParameter; successWith []; successWith [0.25%float]] in
  let vms := [vmOfType "ecs.g5.large"; vmOfType "ecs.c5.large"] in
  let run := getOnDemandPrice a vms "cn-hangzhou" emptyWorld in
  run.2 = Panic /\
  exchanges run.1 =
    [(getPayAsYouGoPriceRequest "cn-hangzhou" ["ecs.g5.large"; "ecs.c5.large"], invalidParameter);
     (getPayAsYouGoPriceRequest "cn-hangzhou" ["ecs.g5.large"], successWith [])].
Proof. vm_compute. split; reflexivity. Qed.

(** C3 (amended). When [getOnDemandPrice] returns a list for pairwise
    distinct instance types, an instance type that it skipped (its batch
    was rejected and its single-item retry failed, which the log line "no
    price for instance type" records) has no entry in the price map, and the
    descriptor returned for it carries [OnDemandPrice] 0, the zero value that
    reading the missing key gives. *)
Theorem getOnDemandPrice_unpriced a vms region w w' out t :
  getOnDemandPrice a vms region w = (w', Ok out) ->
  NoDup (map Type_ vms) ->
  noPriceLine t ∈ newLines w w' ->
  exists allPrices,
    fetchPrices a vms region w = (w', Ok allPrices) /\
    allPrices !! t = None /\
    (exists vm, vm ∈ out /\ Type_ vm = t) /\
    (forall vm, vm ∈ out -> Type_ vm = t -> OnDemandPrice vm = 0%float).
Proof.
  intros Hrun Hnodup Hline.
  apply getOnDemandPrice_ok in Hrun as (allPrices & Hfetch & ->).
  exists allPrices. split; [exact Hfetch |].
  apply fetchPrices_ok in Hfetch as (runs & Hbs & Hwf & _ & Hlog & Hdom).
  apply newLines_app in Hlog. rewrite Hlog in Hline.
  apply list_elem_of_fmap in Hline as (t' & Heq & Ht').
  inversion Heq; subst t'.
  assert (Hconcat : concat runs.*1 = map Type_ vms) by (rewrite Hbs; apply batches_concat).
  rewrite <- Hconcat in Hnodup.
  destruct (skipped_unpriced runs t Hwf Hnodup Ht') as [Hin Hnot].
  assert (Hnone : allPrices !! t = None).
  { apply not_elem_of_dom. rewrite Hdom, elem_of_list_to_set. exact Hnot. }
  split; [exact Hnone |]. split.
  - rewrite Hconcat in Hin. apply list_elem_of_fmap in Hin as (vm & -> & Hvm).
    exists (withPrice allPrices vm). split; [| reflexivity].
    apply list_elem_of_fmap. exists vm. split; [reflexivity | exact Hvm].
  - intros vm' Hvm' Htype. apply list_elem_of_fmap in Hvm' as (vm & -> & _).
    cbn in *. unfold priceOf. rewrite Htype, Hnone. reflexivity.
Qed.

Lemma getOnDemandPrice_unpriced_witness :
  let vms := map vmOfType catalogue in
  let run := getOnDemandPrice priceList vms "cn-hangzhou" emptyWorld in
  exists out (allPrices : gmap string float64),
    run.2 = Ok out /\
    (fetchPrices priceList vms "cn-hangzhou" emptyWorld).2 = Ok allPrices /\
    allPrices !! "ecs.retired" = None /\
    (exists vm, vm ∈ out /\ Type_ vm = "ecs.retired") /\
    (forall vm, vm ∈ out -> Type_ vm = "ecs.retired" -> OnDemandPrice vm = 0%float).
Proof.
  intros vms run.
  pose (out := match run.2 with Ok out => out | _ => [] end).
  assert (Hrun : getOnDemandPrice priceList vms "cn-hangzhou" emptyWorld = (run.1, Ok out))
    by (vm_compute; reflexivity).
  assert (Hnodup : NoDup (map Type_ vms))
    by (apply (bool_decide_unpack _); vm_compute; reflexivity).
  assert (Hline : noPriceLine "ecs.retired" ∈ newLines emptyWorld run.1)
    by (vm_compute; apply list_elem_of_here).
  destruct (getOnDemandPrice_unpriced _ _ _ _ _ _ _ Hrun Hnodup Hline)
    as (allPrices & Hfetch & Hnone & Hex & Hzero).
  exists out, allPrices. split; [vm_compute; reflexivity |].
  split; [rewrite Hfetch; reflexivity |].
  split; [exact Hnone |]. split; [exact Hex | exact Hzero].
Defined.

(** C3, as stated, fails: the only batch is rejected, the retry of its only
    member fails, and the descriptor returned for it has the price 0. *)
Lemma getOnDemandPrice_unpriced_counterexample :
  let a := scripted [invalidParameter; inr (errors_New "timeout")] in
  let vms := [vmOfType "ecs.sn1.medium"] in
  let run := getOnDemandPrice a vms "cn-hangzhou" emptyWorld in
  (fetchPrices a vms "cn-hangzhou" emptyWorld).2 = Ok ∅ /\
  map fst (exchanges run.1) =
    [getPayAsYouGoPriceRequest "cn-hangzhou" ["ecs.sn1.medium"];
     getPayAsYouGoPriceRequest "cn-hangzhou" ["ecs.sn1.medium"]] /\
  logged run.1 = [noPriceLine "ecs.sn1.medium"] /\
  exists vm,
    run.2 = Ok [vm] /\ Type_ vm = "ecs.sn1.medium" /\ OnDemandPrice vm = 0%float.
Proof.
  cbv zeta. split; [vm_compute; reflexivity |]. split; [vm_compute; reflexivity |].
  split; [vm_compute; reflexivity |].
  exists (vmOfType "ecs.sn1.medium"). vm_compute. repeat split; reflexivity.
Qed.

(** C10. In the retry of a single instance type, [prices[0]] panics exactly
    when the provider accepts the request and sends no price; and when the
    first batch is rejected for its parameters and the provider then accepts
    the request for its first member with an empty list of prices,
    [getOnDemandPrice] panics. *)
Theorem retry_price_index_out_of_range a region :
  (forall t allPrices w,
     (retrySingly a region [t] allPrices w).2 = Panic <->
     priceResult (client a (exchanges w) (singleRequest region t)) = inl [])
  /\
  (forall vm rest w code,
     let vms := vm :: rest in
     let request := getPayAsYouGoPriceRequest region (take 25 (map Type_ vms)) in
     let reply := client a (exchanges w) request in
     isRejection reply = true ->
     client a (exchanges w ++ [(request, reply)]) (singleRequest region (Type_ vm))
       = inl (PayAsYouGoPriceDocument (mkPriceResponse true code [])) ->
     (getOnDemandPrice a vms region w).2 = Panic).
Proof.
  split; [intros; apply retrySingly_single |].
  intros vm rest w code vms request reply Hrej Hempty.
  unfold getOnDemandPrice, bind. rewrite fetchPrices_batches.
  rewrite batches_cons by discriminate.
  cbn [fetchBatches]. unfold bind at 1. unfold fetchBatch.
  unfold bind at 1. unfold attempt. rewrite getPrice_run. cbn zeta.
  fold vms request reply.
  unfold isRejection in Hrej.
  destruct (priceResult reply) as [prices | err]; [discriminate |].
  rewrite Hrej. cbn [take map vms].
  cbn [retrySingly]. unfold bind at 1. unfold attempt. rewrite getPrice_run. cbn zeta.
  cbn [exchanges]. unfold singleRequest in Hempty. rewrite Hempty. reflexivity.
Qed.

Lemma retry_price_index_out_of_range_witness :
  (getOnDemandPrice (scripted [invalidParameter; successWith []])
     [vmOfType "ecs.g5.large"] "cn-hangzhou" emptyWorld).2 = Panic.
Proof.
  apply (proj2 (retry_price_index_out_of_range _ "cn-hangzhou")
           (vmOfType "ecs.g5.large") [] emptyWorld "Success").
  - vm_compute; reflexivity.
  - vm_compute; reflexivity.
Defined.

(** ** The log is write-only *)

Create HintDb logblind.

Lemma logBlind_ret {A} (x : A) : logBlind (ret x).
Proof. intros w1 w2 Hw. split; [reflexivity | exact Hw]. Qed.

Lemma logBlind_throw {A} e : logBlind (@throw A e).
Proof. intros w1 w2 Hw. split; [reflexivity | exact Hw]. Qed.

Lemma logBlind_panic {A} : logBlind (@panic A).
Proof. intros w1 w2 Hw. split; [reflexivity | exact Hw]. Qed.

Lemma logBlind_writeLog l msg kvs : logBlind (writeLog l msg kvs).
Proof. intros w1 w2 Hw. split; [reflexivity | exact Hw]. Qed.

Lemma logBlind_bind {A B} (m : M A) (k : A -> M B) :
  logBlind m -> (forall x, logBlind (k x)) -> logBlind (bind m k).
Proof.
  intros Hm Hk w1 w2 Hw. unfold bind.
  destruct (Hm w1 w2 Hw) as [Hout Hsame].
  destruct (m w1) as [w1' r1], (m w2) as [w2' r2]. cbn in Hout, Hsame. subst r2.
  destruct r1 as [x | e |]; [apply Hk; exact Hsame | |]; split; auto.
Qed.

Lemma logBlind_attempt {A} (m : M A) : logBlind m -> logBlind (attempt m).
Proof.
  intros Hm w1 w2 Hw. unfold attempt.
  destruct (Hm w1 w2 Hw) as [Hout Hsame].
  destruct (m w1) as [w1' r1], (m w2) as [w2' r2]. cbn in Hout, Hsame. subst r2.
  destruct r1; split; auto.
Qed.

Lemma logBlind_ProcessCommonRequest a request : logBlind (ProcessCommonRequest a request).
Proof.
  intros w1 w2 Hw. unfold ProcessCommonRequest, sameExchanges in *. cbn.
  rewrite Hw. split; reflexivity.
Qed.

#[local] Hint Resolve logBlind_ret logBlind_throw logBlind_panic logBlind_writeLog
  logBlind_attempt logBlind_ProcessCommonRequest : logblind.

Ltac logblind :=
  repeat first
    [ apply logBlind_bind; [| intros ?]
    | solve [auto with logblind]
    | match goal with
      | |- logBlind (match ?x with _ => _ end) => destruct x
      | |- logBlind (if ?b then _ else _) => destruct b
      end ].

Lemma logBlind_getPrice a instanceTypes region : logBlind (getPrice a instanceTypes region).
Proof. unfold getPrice, UnmarshalPayAsYouGoPrice. logblind. Qed.

#[local] Hint Resolve logBlind_getPrice : logblind.

Lemma logBlind_retrySingly a region rest :
  forall allPrices, logBlind (retrySingly a region rest allPrices).
Proof.
  induction rest as [| instanceType rest IH]; intros allPrices; cbn [retrySingly]; logblind.
Qed.

Lemma logBlind_assignPrices prices instanceTypes :
  forall i allPrices, logBlind (assignPrices i prices instanceTypes allPrices).
Proof.
  induction prices as [| price prices IH]; intros i allPrices; cbn [assignPrices]; logblind.
Qed.

#[local] Hint Resolve logBlind_retrySingly logBlind_assignPrices : logblind.

Lemma logBlind_fetchBatch a region b allPrices : logBlind (fetchBatch a region b allPrices).
Proof. unfold fetchBatch. logblind. Qed.

#[local] Hint Resolve logBlind_fetchBatch : logblind.

Lemma logBlind_batchLoop a region n rest :
  forall index acc allPrices, logBlind (batchLoop a region n index rest acc allPrices).
Proof.
  induction rest as [| vm rest IH]; intros index acc allPrices; cbn [batchLoop]; logblind.
Qed.

#[local] Hint Resolve logBlind_batchLoop : logblind.

Lemma logBlind_getOnDemandPrice a vms region : logBlind (getOnDemandPrice a vms region).
Proof. unfold getOnDemandPrice, fetchPrices. logblind. Qed.

(** ** Zones of an instance type *)

Lemma supports_elem supported instanceTypeId :
  supports supported instanceTypeId = true <-> instanceTypeId ∈ supported.
Proof.
  induction supported as [| x supported IH]; cbn.
  - split; [discriminate | intros H; inversion H].
  - destruct (String.eqb x instanceTypeId) eqn:Hx.
    + apply String.eqb_eq in Hx. subst. split; [intros _; left | reflexivity].
    + apply String.eqb_neq in Hx. rewrite IH. split.
      * intros H. right. exact H.
      * intros H. inversion H; subst; [congruence | assumption].
Qed.

Lemma zonesOfResources_elem zoneId resourcesInfo instanceTypeId :
  forall zones z,
  z ∈ zonesOfResources zoneId resourcesInfo instanceTypeId zones <->
  z ∈ zones \/
  (z = zoneId /\ exists supported, supported ∈ resourcesInfo /\ instanceTypeId ∈ supported).
Proof.
  induction resourcesInfo as [| supported rest IH]; intros zones z; cbn.
  - split; [intros H; left; exact H |].
    intros [H | (_ & s & Hs & _)]; [exact H | inversion Hs].
  - rewrite IH. destruct (supports supported instanceTypeId) eqn:Hs.
    + apply supports_elem in Hs. rewrite elem_of_app, list_elem_of_singleton. split.
      * intros [[H | ->] | (-> & s & Hin & Hid)].
        -- left; exact H.
        -- right. split; [reflexivity |]. exists supported. split; [left | exact Hs].
        -- right. split; [reflexivity |]. exists s. split; [right; exact Hin | exact Hid].
      * intros [H | (-> & s & Hin & Hid)]; [left; left; exact H |].
        left; right; reflexivity.
    + split.
      * intros [H | (-> & s & Hin & Hid)]; [left; exact H |].
        right. split; [reflexivity |]. exists s. split; [right; exact Hin | exact Hid].
      * intros [H | (-> & s & Hin & Hid)]; [left; exact H |].
        inversion Hin; subst.
        -- apply supports_elem in Hid. congruence.
        -- right. split; [reflexivity |]. exists s. split; assumption.
Qed.

Lemma zonesOf_elem availableZones instanceTypeId :
  forall zones z,
  z ∈ zonesOf availableZones instanceTypeId zones <->
  z ∈ zones \/
  exists zone supported,
    zone ∈ availableZones /\ ZoneId zone = z /\
    supported ∈ AvailableResources zone /\ instanceTypeId ∈ supported.
Proof.
  induction availableZones as [| zone rest IH]; intros zones z; cbn.
  - split; [intros H; left; exact H |].
    intros [H | (zone & s & Hz & _)]; [exact H | inversion Hz].
  - rewrite IH, zonesOfResources_elem. split.
    + intros [[H | (-> & s & Hs & Hid)] | (zone' & s & Hz & Hid & Hs & Hin)].
      * left; exact H.
      * right. exists zone, s. repeat split; [left | assumption | assumption].
      * right. exists zone', s. repeat split; [right; exact Hz | assumption ..].
    + intros [H | (zone' & s & Hz & Hid & Hs & Hin)]; [left; left; exact H |].
      inversion Hz; subst.
      * left; right. split; [reflexivity |]. exists s. split; assumption.
      * right. exists zone', s. repeat split; assumption.
Qed.

(** ** Describing the virtual machines *)

Section PackageFacts.

Variable MapNetworkPerf : string -> string * option error.
Variable mapCategory : string -> string * option error.
Variable cloudinfoAttributes : Z -> float64 -> string -> string -> gmap string string.

Let describe availableZones instanceType :=
  vmInfoOf MapNetworkPerf mapCategory cloudinfoAttributes instanceType
           (zonesOf availableZones (InstanceTypeId instanceType) []).

Lemma describeVM_run region instanceType zones w :
  describeVM MapNetworkPerf mapCategory cloudinfoAttributes region instanceType zones w =
  (mkWorld (exchanges w)
           (logged w ++ mappingLines MapNetworkPerf mapCategory region instanceType),
   Ok (vmInfoOf MapNetworkPerf mapCategory cloudinfoAttributes instanceType zones)).
Proof.
  unfold describeVM, mappingLines, vmInfoOf, mappingLine. destruct w as [xs ls].
  destruct (MapNetworkPerf _) as [ntwPerfCat [e1 |]],
           (mapCategory _) as [category [e2 |]];
    cbn; rewrite <- ?app_assoc, ?app_nil_r; reflexivity.
Qed.

Lemma describeVMs_run region availableZones instanceTypes :
  forall vms w,
  describeVMs MapNetworkPerf mapCategory cloudinfoAttributes
              region availableZones instanceTypes vms w =
  (mkWorld (exchanges w)
           (logged w ++
            concat (map (mappingLines MapNetworkPerf mapCategory region)
                        (offered availableZones instanceTypes))),
   Ok (vms ++ map (describe availableZones) (offered availableZones instanceTypes))).
Proof.
  induction instanceTypes as [| instanceType rest IH]; intros vms w.
  - destruct w. cbn. rewrite !app_nil_r. reflexivity.
  - cbn [describeVMs]. unfold offered.
    destruct (hasZones availableZones instanceType) eqn:Hz.
    + rewrite filter_cons_True by exact Hz. unfold hasZones in Hz. rewrite Hz.
      unfold bind. rewrite describeVM_run. rewrite IH. cbn.
      rewrite <- !app_assoc. reflexivity.
    + rewrite filter_cons_False by (rewrite Hz; discriminate).
      unfold hasZones in Hz. rewrite Hz. apply IH.
Qed.

End PackageFacts.

Lemma getZones_run a region w :
  getZones a region w =
    let reply := client a (exchanges w) (describeZonesRequest region) in
    (mkWorld (exchanges w ++ [(describeZonesRequest region, reply)]) (logged w),
     zonesResult reply).
Proof.
  unfold getZones, bind, attempt, ProcessCommonRequest, zonesResult. cbn.
  destruct (client a (exchanges w) _) as [[e | zs | its | sps | response] | err];
    reflexivity.
Qed.

Lemma getInstanceTypes_run a w :
  getInstanceTypes a w =
    let reply := client a (exchanges w) describeInstanceTypesRequest in
    (mkWorld (exchanges w ++ [(describeInstanceTypesRequest, reply)]) (logged w),
     instanceTypesResult reply).
Proof.
  unfold getInstanceTypes, bind, attempt, ProcessCommonRequest, instanceTypesResult. cbn.
  destruct (client a (exchanges w) _) as [[e | zs | its | sps | response] | err];
    reflexivity.
Qed.

Section VirtualMachines.

Variable MapNetworkPerf : string -> string * option error.
Variable mapCategory : string -> string * option error.
Variable cloudinfoAttributes : Z -> float64 -> string -> string -> gmap string string.

Let describe availableZones instanceType :=
  vmInfoOf MapNetworkPerf mapCategory cloudinfoAttributes instanceType
           (zonesOf availableZones (InstanceTypeId instanceType) []).

(** A completed [GetVirtualMachines]: the catalogue and the zones that the
    provider sent, the descriptors of the offered instance types with their
    prices, and the lines of the mappers among the new log lines. *)
Lemma GetVirtualMachines_ok a region w w' vms :
  GetVirtualMachines MapNetworkPerf mapCategory cloudinfoAttributes a region w
    = (w', Ok vms) ->
  exists instanceTypes availableZones allPrices lines,
    instanceTypesResult (catalogueReply a w) = Ok instanceTypes /\
    zonesResult (zonesReply a region w) = Ok availableZones /\
    vms = map (withPrice allPrices)
              (map (describe availableZones) (offered availableZones instanceTypes)) /\
    newLines w w' =
      mkLogLine LevelDebug "getting product info" [("region", FieldString region)]
      :: concat (map (mappingLines MapNetworkPerf mapCategory region)
                     (offered availableZones instanceTypes)) ++ lines.
Proof.
  unfold GetVirtualMachines. intros Hrun.
  apply bind_ok in Hrun as (w1 & [] & Hlog & Hrun).
  inversion Hlog; subst w1; clear Hlog.
  apply bind_ok in Hrun as (w2 & instanceTypes & Hits & Hrun).
  rewrite getInstanceTypes_run in Hits. cbn in Hits.
  inversion Hits as [[Hw2 Hreply1]]; subst w2; clear Hits.
  apply bind_ok in Hrun as (w3 & availableZones & Hzs & Hrun).
  rewrite getZones_run in Hzs. cbn in Hzs.
  inversion Hzs as [[Hw3 Hreply2]]; subst w3; clear Hzs.
  apply bind_ok in Hrun as (w4 & described & Hdesc & Hrun).
  rewrite describeVMs_run in Hdesc. cbn in Hdesc.
  inversion Hdesc as [[Hw4 Hvms]]; subst w4 described; clear Hdesc.
  apply bind_ok in Hrun as (w5 & priced & Hprice & Hrun).
  apply getOnDemandPrice_ok in Hprice as (allPrices & Hfetch & ->).
  apply fetchPrices_ok in Hfetch as (runs & _ & _ & _ & Hlines & _).
  apply bind_ok in Hrun as (w6 & [] & Hlog & Hret).
  inversion Hret; subst w6 vms; clear Hret.
  inversion Hlog as [[Hw']]; clear Hlog.
  exists instanceTypes, availableZones, allPrices.
  eexists. split; [exact Hreply1 |]. split; [exact Hreply2 |].
  split; [reflexivity |].
  apply newLines_app. cbn. rewrite Hlines. cbn.
  rewrite <- !app_assoc. cbn. reflexivity.
Qed.

End VirtualMachines.

(** ** A mapping error changes the log only *)

Lemma agree_bind {A B} (m : M A) (k1 k2 : A -> M B) w :
  (forall x w1, agree (k1 x) (k2 x) w1) -> agree (bind m k1) (bind m k2) w.
Proof.
  intros Hk. unfold agree, bind. destruct (m w) as [w1 [x | e |]].
  - apply Hk.
  - split; reflexivity.
  - split; reflexivity.
Qed.

Lemma agree_bind_blind {A B} (m1 m2 : M A) (k : A -> M B) w w1 w2 x :
  m1 w = (w1, Ok x) -> m2 w = (w2, Ok x) -> sameExchanges w1 w2 ->
  logBlind (k x) -> agree (bind m1 k) (bind m2 k) w.
Proof.
  intros H1 H2 Hsame Hk. unfold agree, bind. rewrite H1, H2. apply Hk. exact Hsame.
Qed.

Lemma GetVirtualMachines_silenced MapNetworkPerf mapCategory cloudinfoAttributes a region w :
  agree (GetVirtualMachines MapNetworkPerf mapCategory cloudinfoAttributes a region)
        (GetVirtualMachines (silenced MapNetworkPerf) mapCategory cloudinfoAttributes a region)
        w.
Proof.
  unfold GetVirtualMachines.
  apply agree_bind. intros _ w1.
  apply agree_bind. intros instanceTypes w2.
  apply agree_bind. intros availableZones w3.
  eapply agree_bind_blind.
  - apply describeVMs_run.
  - rewrite describeVMs_run. reflexivity.
  - reflexivity.
  - apply logBlind_bind; [apply logBlind_getOnDemandPrice |]. intros vms. logblind.
Qed.

Lemma elem_of_concat {A} (x : A) (ls : list (list A)) :
  x ∈ concat ls <-> exists l, l ∈ ls /\ x ∈ l.
Proof.
  rewrite list_elem_of_In, in_concat. split.
  - intros (l & Hl & Hx). exists l. rewrite !list_elem_of_In. split; assumption.
  - intros (l & Hl & Hx). exists l. rewrite !list_elem_of_In in *. split; assumption.
Qed.

Lemma hasZones_true availableZones instanceType :
  hasZones availableZones instanceType = true <->
  zonesOf availableZones (InstanceTypeId instanceType) [] <> [].
Proof.
  unfold hasZones. rewrite Nat.ltb_lt.
  destruct (zonesOf availableZones (InstanceTypeId instanceType) []); cbn.
  - split; [lia | congruence].
  - split; [discriminate | lia].
Qed.

Lemma notOffered_elem availableZones instanceTypeId :
  forallb (fun zone =>
             forallb (fun supported => negb (supports supported instanceTypeId))
                     (AvailableResources zone)) availableZones = true ->
  forall zone supported,
    zone ∈ availableZones -> supported ∈ AvailableResources zone ->
    instanceTypeId ∉ supported.
Proof.
  intros Hall zone supported Hzone Hs Hin.
  rewrite forallb_forall in Hall. apply list_elem_of_In in Hzone, Hs.
  specialize (Hall zone Hzone). rewrite forallb_forall in Hall.
  specialize (Hall supported Hs). apply supports_elem in Hin.
  rewrite Hin in Hall. discriminate.
Qed.

(** ** Claims about [GetVirtualMachines] *)

(** C8. Every descriptor that [GetVirtualMachines] returns is that of an
    instance type of the catalogue and lists at least one zone; its zones are
    the zones of the region that offer the instance type, and an instance
    type that no zone offers has no descriptor in the list. *)
Theorem GetVirtualMachines_zones MapNetworkPerf mapCategory cloudinfoAttributes
    a region w w' vms :
  GetVirtualMachines MapNetworkPerf mapCategory cloudinfoAttributes a region w
    = (w', Ok vms) ->
  exists instanceTypes availableZones,
    instanceTypesResult (catalogueReply a w) = Ok instanceTypes /\
    zonesResult (zonesReply a region w) = Ok availableZones /\
    (forall vm, vm ∈ vms ->
       Zones vm <> [] /\
       (exists instanceType,
          instanceType ∈ instanceTypes /\ InstanceTypeId instanceType = Type_ vm) /\
       (forall z, z ∈ Zones vm <->
          exists zone supported,
            zone ∈ availableZones /\ ZoneId zone = z /\
            supported ∈ AvailableResources zone /\ Type_ vm ∈ supported)) /\
    (forall instanceTypeId,
       (forall zone supported,
          zone ∈ availableZones -> supported ∈ AvailableResources zone ->
          instanceTypeId ∉ supported) ->
       forall vm, vm ∈ vms -> Type_ vm <> instanceTypeId).
Proof.
  intros Hrun.
  apply GetVirtualMachines_ok in Hrun
    as (instanceTypes & availableZones & allPrices & lines & Hits & Hzs & -> & _).
  exists instanceTypes, availableZones.
  split; [exact Hits |]. split; [exact Hzs |].
  assert (Hvm : forall vm,
             vm ∈ map (withPrice allPrices)
                      (map (fun instanceType =>
                              vmInfoOf MapNetworkPerf mapCategory cloudinfoAttributes
                                instanceType
                                (zonesOf availableZones (InstanceTypeId instanceType) []))
                           (offered availableZones instanceTypes)) ->
             exists instanceType,
               instanceType ∈ instanceTypes /\
               InstanceTypeId instanceType = Type_ vm /\
               Zones vm = zonesOf availableZones (Type_ vm) [] /\
               Zones vm <> []).
  { intros vm Hin.
    apply list_elem_of_fmap in Hin as (vm0 & -> & Hin).
    apply list_elem_of_fmap in Hin as (instanceType & -> & Hin).
    apply list_elem_of_filter in Hin as [Hhas Hin].
    exists instanceType. cbn. split; [exact Hin |]. split; [reflexivity |].
    split; [reflexivity |]. apply hasZones_true. exact Hhas. }
  split.
  - intros vm Hin. destruct (Hvm vm Hin) as (instanceType & Hit & Hid & Hzones & Hne).
    split; [exact Hne |]. split; [exists instanceType; split; assumption |].
    intros z. rewrite Hzones, zonesOf_elem. split.
    + intros [Hnil | H]; [inversion Hnil | exact H].
    + intros H. right. exact H.
  - intros instanceTypeId Hnone vm Hin Htype.
    destruct (Hvm vm Hin) as (instanceType & _ & _ & Hzones & Hne).
    destruct (Zones vm) as [| z zs] eqn:Hz; [congruence |].
    assert (Hzin : z ∈ zonesOf availableZones (Type_ vm) []) by (rewrite <- Hzones; left).
    apply zonesOf_elem in Hzin as [Hnil | (zone & supported & Hzone & _ & Hs & Hsup)];
      [inversion Hnil |].
    rewrite Htype in Hsup. exact (Hnone zone supported Hzone Hs Hsup).
Qed.

Lemma GetVirtualMachines_zones_witness :
  let run := GetVirtualMachines specMapNetworkPerf exampleCategory exampleAttributes
               hangzhou "cn-hangzhou" emptyWorld in
  exists vms,
    run.2 = Ok vms /\
    (forall vm, vm ∈ vms -> Zones vm <> []) /\
    (forall vm, vm ∈ vms -> Type_ vm <> "ecs.gn5.large").
Proof.
  intros run.
  pose (vms := match run.2 with Ok vms => vms | _ => [] end).
  assert (Hrun : GetVirtualMachines specMapNetworkPerf exampleCategory exampleAttributes
                   hangzhou "cn-hangzhou" emptyWorld = (run.1, Ok vms))
    by (vm_compute; reflexivity).
  destruct (GetVirtualMachines_zones _ _ _ _ _ _ _ _ Hrun)
    as (instanceTypes & availableZones & _ & Hzs & Hvm & Hnone).
  exists vms. split; [vm_compute; reflexivity |]. split.
  - intros vm Hin. exact (proj1 (Hvm vm Hin)).
  - apply Hnone.
    assert (availableZones = hangzhouZones) as ->
      by (vm_compute in Hzs; injection Hzs as <-; reflexivity).
    apply notOffered_elem. vm_compute. reflexivity.
Defined.

(** C4 (amended). An error of [MapNetworkPerf] changes nothing but the log:
    [GetVirtualMachines] ends as it does with the mapper that returns the
    same categories and no error. When it returns a list, every instance
    type of the catalogue that some zone offers has its descriptor in the
    list, an error of the mapper for it is in the log, and the descriptor
    carries as network category the string that the mapper returned, with or
    without an error: [GetVirtualMachines] puts no default in its place. *)
Theorem GetVirtualMachines_unmapped_network MapNetworkPerf mapCategory cloudinfoAttributes
    a region w :
  (GetVirtualMachines MapNetworkPerf mapCategory cloudinfoAttributes a region w).2 =
  (GetVirtualMachines (silenced MapNetworkPerf) mapCategory cloudinfoAttributes a region w).2
  /\
  (forall w' vms,
     GetVirtualMachines MapNetworkPerf mapCategory cloudinfoAttributes a region w
       = (w', Ok vms) ->
     exists instanceTypes availableZones,
       instanceTypesResult (catalogueReply a w) = Ok instanceTypes /\
       zonesResult (zonesReply a region w) = Ok availableZones /\
       forall instanceType,
         instanceType ∈ instanceTypes ->
         zonesOf availableZones (InstanceTypeId instanceType) [] <> [] ->
         (forall err,
            (MapNetworkPerf (networkPerformance instanceType)).2 = Some err ->
            mappingLine region instanceType "failed to get network performance category" err
              ∈ newLines w w') /\
         exists vm,
           vm ∈ vms /\
           Type_ vm = InstanceTypeId instanceType /\
           NtwPerf vm = networkPerformance instanceType /\
           NtwPerfCat vm = (MapNetworkPerf (networkPerformance instanceType)).1).
Proof.
  split; [apply GetVirtualMachines_silenced |].
  intros w' vms Hrun.
  apply GetVirtualMachines_ok in Hrun
    as (instanceTypes & availableZones & allPrices & lines & Hits & Hzs & -> & Hlines).
  exists instanceTypes, availableZones.
  split; [exact Hits |]. split; [exact Hzs |].
  intros instanceType Hin Hzones.
  assert (Hoffered : instanceType ∈ offered availableZones instanceTypes).
  { apply list_elem_of_filter. split; [apply hasZones_true; exact Hzones | exact Hin]. }
  split.
  - intros err Herr. rewrite Hlines. right. apply elem_of_app. left.
    apply elem_of_concat.
    exists (mappingLines MapNetworkPerf mapCategory region instanceType). split.
    + apply list_elem_of_fmap. exists instanceType. split; [reflexivity | exact Hoffered].
    + unfold mappingLines. rewrite Herr. apply elem_of_app. left. left.
  - eexists. split.
    + apply list_elem_of_fmap. eexists. split; [reflexivity |].
      apply list_elem_of_fmap. exists instanceType. split; [reflexivity | exact Hoffered].
    + cbn. repeat split; reflexivity.
Qed.

Lemma GetVirtualMachines_unmapped_network_witness :
  let run := GetVirtualMachines specMapNetworkPerf exampleCategory exampleAttributes
               hangzhou "cn-hangzhou" emptyWorld in
  let small := mkInstanceType "ecs.t1.small" 0 1 1%float 0 in
  exists vms,
    run.2 = Ok vms /\
    mappingLine "cn-hangzhou" small "failed to get network performance category"
                (mappingError "0.0 Gbit/s") ∈ logged run.1 /\
    exists vm,
      vm ∈ vms /\ Type_ vm = "ecs.t1.small" /\
      NtwPerf vm = "0.0 Gbit/s" /\ NtwPerfCat vm = (specMapNetworkPerf "0.0 Gbit/s").1.
Proof.
  intros run small.
  pose (vms := match run.2 with Ok vms => vms | _ => [] end).
  assert (Hrun : GetVirtualMachines specMapNetworkPerf exampleCategory exampleAttributes
                   hangzhou "cn-hangzhou" emptyWorld = (run.1, Ok vms))
    by (vm_compute; reflexivity).
  destruct (proj2 (GetVirtualMachines_unmapped_network _ _ _ _ _ _) _ _ Hrun)
    as (instanceTypes & availableZones & Hits & Hzs & Hall).
  assert (instanceTypes = hangzhouTypes) as ->
    by (vm_compute in Hits; injection Hits as <-; reflexivity).
  assert (availableZones = hangzhouZones) as ->
    by (vm_compute in Hzs; injection Hzs as <-; reflexivity).
  destruct (Hall small) as [Hline Hvm].
  - right. left.
  - vm_compute. discriminate.
  - exists vms. split; [vm_compute; reflexivity |]. split.
    + apply (Hline (mappingError "0.0 Gbit/s")). vm_compute. reflexivity.
    + exact Hvm.
Defined.

(** C4, as stated, fails where it promises a default: for an instance type
    with no bandwidth figure the throughput reads "0.0 Gbit/s", which is in no
    range of the mapper; the error is logged, and the descriptor in the list
    has an empty network category. *)
Lemma GetVirtualMachines_unmapped_network_counterexample :
  let run := GetVirtualMachines specMapNetworkPerf exampleCategory exampleAttributes
               hangzhou "cn-hangzhou" emptyWorld in
  specMapNetworkPerf "0.0 Gbit/s" = ("", Some (mappingError "0.0 Gbit/s")) /\
  exists vm rest,
    run.2 = Ok (vm :: rest) /\
    exists small,
      rest = [small] /\
      Type_ small = "ecs.t1.small" /\
      NtwPerf small = "0.0 Gbit/s" /\
      NtwPerfCat small = "".
Proof.
  cbv zeta. split; [vm_compute; reflexivity |].
  eexists _, _. split; [vm_compute; reflexivity |].
  eexists. split; [reflexivity |]. vm_compute. repeat split; reflexivity.
Qed.

(** ** Spot prices *)

Lemma UnmarshalSpotPriceHistory_run content w :
  UnmarshalSpotPriceHistory content w = (w, spotPriceHistoryResult content).
Proof. destruct content; reflexivity. Qed.

Lemma spotRun_extend region w w1 run x ls :
  exchanges w1 = exchanges w ++ [x] ->
  logged w1 = logged w ++ ls ->
  (forall instanceType err,
     x = (describeSpotPriceHistoryRequest region instanceType, inr err) ->
     spotFailureLine region instanceType ∈ ls) ->
  spotRun region w1 run -> spotRun region w run.
Proof.
  intros Hex Hlog Hline (Hpanic & new & lines & Hnew & Hlines & Herr & Hfail).
  split; [exact Hpanic |].
  exists (x :: new), (ls ++ lines).
  split; [rewrite Hnew, Hex, <- app_assoc; reflexivity |].
  split; [rewrite Hlines, Hlog, <- app_assoc; reflexivity |].
  split.
  - intros e He. destruct (Herr e He) as (it & content & Hin & Hres).
    exists it, content. split; [right; exact Hin | exact Hres].
  - intros it err Hin. apply elem_of_app.
    apply elem_of_cons in Hin as [Heq | Hin].
    + left. apply (Hline it err). symmetry. exact Heq.
    + right. exact (Hfail it err Hin).
Qed.

Lemma spotRun_here region w (r : outcome SpotStore) :
  r <> Panic -> (forall e, r <> Err e) -> spotRun region w (w, r).
Proof.
  intros Hpanic Herr. split; [exact Hpanic |].
  exists [], []. cbn. rewrite !app_nil_r. repeat split; try reflexivity.
  - intros e He. destruct (Herr e He).
  - intros it err Hin. inversion Hin.
Qed.

Lemma spotPricesOfZone_run a region zoneId instanceTypes :
  forall st w, spotRun region w (spotPricesOfZone a region zoneId instanceTypes st w).
Proof.
  induction instanceTypes as [| instanceType rest IH]; intros st w.
  - apply spotRun_here; [discriminate | intros e; discriminate].
  - cbn [spotPricesOfZone].
    destruct (priceInfo st !! instanceType) as [spotPrice |]; [apply IH |].
    unfold bind at 1. unfold attempt, ProcessCommonRequest. cbn zeta.
    set (request := describeSpotPriceHistoryRequest region instanceType).
    destruct (client a (exchanges w) request) as [content | err] eqn:Hreply.
    + unfold bind at 1. rewrite UnmarshalSpotPriceHistory_run.
      destruct (spotPriceHistoryResult content) as [priceTypes | e |] eqn:Hcontent.
      * apply (spotRun_extend region w
                 (mkWorld (exchanges w ++ [(request, inl content)]) (logged w))
                 _ (request, inl content) []);
          [reflexivity | symmetry; apply app_nil_r | | apply IH].
        intros it err Heq. inversion Heq.
      * split; [discriminate |].
        exists [(request, inl content)], []. cbn. rewrite app_nil_r.
        repeat split; try reflexivity.
        -- intros e' He'. inversion He'; subst e'.
           exists instanceType, content. split; [left | exact Hcontent].
        -- intros it err Hin. apply list_elem_of_singleton in Hin. inversion Hin.
      * destruct content; discriminate.
    + unfold bind at 1. unfold writeLog. cbn.
      apply (spotRun_extend region w
               (mkWorld (exchanges w ++ [(request, inr err)])
                        (logged w ++ [spotFailureLine region instanceType]))
               _ (request, inr err) [spotFailureLine region instanceType]);
        [reflexivity | reflexivity | | apply IH].
      intros it err' Heq. inversion Heq; subst. left.
Qed.

Lemma spotPricesOfZones_run a region zones :
  forall st w, spotRun region w (spotPricesOfZones a region zones st w).
Proof.
  induction zones as [| zone rest IH]; intros st w.
  - apply spotRun_here; [discriminate | intros e; discriminate].
  - cbn [spotPricesOfZones]. unfold bind.
    pose proof (spotPricesOfZone_run a region (ZoneId zone) (AvailableInstanceTypes zone) st w)
      as Hzone.
    destruct (spotPricesOfZone a region (ZoneId zone) (AvailableInstanceTypes zone) st w)
      as [w1 [st1 | e |]]; [| exact Hzone | exact Hzone].
    destruct Hzone as (_ & new1 & lines1 & Hnew1 & Hlines1 & _ & Hfail1).
    destruct (IH st1 w1) as (Hpanic & new & lines & Hnew & Hlines & Herr & Hfail).
    split; [exact Hpanic |].
    exists (new1 ++ new), (lines1 ++ lines). cbn in *.
    split; [rewrite Hnew, Hnew1, <- app_assoc; reflexivity |].
    split; [rewrite Hlines, Hlines1, <- app_assoc; reflexivity |].
    split.
    + intros e He. destruct (Herr e He) as (it & content & Hin & Hres).
      exists it, content. split; [apply elem_of_app; right; exact Hin | exact Hres].
    + intros it err Hin. apply elem_of_app. apply elem_of_app in Hin as [Hin | Hin].
      * left. exact (Hfail1 it err Hin).
      * right. exact (Hfail it err Hin).
Qed.

(** ** The store of spot prices *)

Lemma readPriceInfo_lookup st instanceType :
  readPriceInfo st !! instanceType =
  (fun spotPrice => default ∅ (heap st !! spotPrice)) <$> priceInfo st !! instanceType.
Proof. unfold readPriceInfo. apply lookup_fmap. Qed.

Lemma scanPriceTypes_rest zoneId instanceType spotPrice priceTypes :
  forall h refs,
  scanPriceTypes zoneId instanceType spotPrice priceTypes
    (mkSpotStore h (<[instanceType := spotPrice]> refs)) =
  mkSpotStore
    match find (fun priceType => String.eqb zoneId (SpotZoneId priceType)) priceTypes with
    | Some priceType => alter (insert zoneId (SpotPrice priceType)) spotPrice h
    | None => h
    end
    (<[instanceType := spotPrice]> refs).
Proof.
  induction priceTypes as [| priceType rest IH]; intros h refs; cbn; [reflexivity |].
  destruct (String.eqb zoneId (SpotZoneId priceType)); [reflexivity |].
  rewrite insert_insert_eq. apply IH.
Qed.

Lemma readPriceInfo_kept st h refs instanceType :
  storeBound st ->
  (forall i x, heap st !! i = Some x -> h !! i = Some x) ->
  refs !! instanceType = priceInfo st !! instanceType ->
  readPriceInfo (mkSpotStore h refs) !! instanceType = readPriceInfo st !! instanceType.
Proof.
  intros Hbound Hh Hrefs. rewrite !readPriceInfo_lookup. cbn. rewrite Hrefs.
  destruct (priceInfo st !! instanceType) as [ref |] eqn:Href; [| reflexivity].
  cbn. f_equal.
  destruct (lookup_lt_is_Some_2 (heap st) ref (Hbound _ _ Href)) as [x Hx].
  rewrite Hx, (Hh ref x Hx). reflexivity.
Qed.

Lemma heap_grown (h : list SpotPriceInfo) i x :
  h !! i = Some x -> (h ++ [∅]) !! i = Some x.
Proof. apply lookup_app_l_Some. Qed.

Lemma heap_altered (h : list SpotPriceInfo) f i x :
  h !! i = Some x -> alter f (length h) (h ++ [∅]) !! i = Some x.
Proof.
  intros Hx. rewrite list_lookup_alter_ne.
  - apply lookup_app_l_Some. exact Hx.
  - apply lookup_lt_Some in Hx. lia.
Qed.

Lemma scanPriceTypes_read zoneId instanceType priceTypes st :
  storeBound st ->
  let st' := scanPriceTypes zoneId instanceType (length (heap st)) priceTypes
               (mkSpotStore (heap st ++ [∅]) (priceInfo st)) in
  storeBound st' /\
  readPriceInfo st' =
  match spotPriceOf zoneId priceTypes with
  | Some sp => <[instanceType := sp]> (readPriceInfo st)
  | None => readPriceInfo st
  end.
Proof.
  intros Hbound. cbn zeta.
  destruct priceTypes as [| first rest].
  - cbn. split.
    + intros T ref Href. cbn in *. rewrite length_app. cbn.
      pose proof (Hbound T ref Href). lia.
    + apply map_eq. intros T.
      apply (readPriceInfo_kept st); [exact Hbound | apply heap_grown | reflexivity].
  - cbn [scanPriceTypes spotPriceOf].
    destruct (String.eqb zoneId (SpotZoneId first)).
    + split.
      * intros T ref Href. cbn in *. rewrite length_alter, length_app. cbn.
        pose proof (Hbound T ref Href). lia.
      * apply map_eq. intros T.
        apply (readPriceInfo_kept st); [exact Hbound | | reflexivity].
        intros i x. apply heap_altered.
    + cbn [heap priceInfo]. rewrite scanPriceTypes_rest.
      set (found := find _ rest).
      split.
      * intros T ref. cbn. rewrite lookup_insert.
        assert (Hlen : length (match found with
                               | Some priceType =>
                                   alter (insert zoneId (SpotPrice priceType))
                                         (length (heap st)) (heap st ++ [∅])
                               | None => heap st ++ [∅]
                               end) = S (length (heap st))).
        { destruct found; rewrite ?length_alter, length_app; cbn; lia. }
        rewrite Hlen. case_decide.
        -- intros [= <-]. lia.
        -- intros Href. pose proof (Hbound T ref Href). lia.
      * apply map_eq. intros T. destruct (decide (instanceType = T)) as [<- | Hne].
        -- rewrite lookup_insert_eq, readPriceInfo_lookup. cbn.
           rewrite lookup_insert_eq. cbn. f_equal.
           destruct found as [priceType |].
           ++ rewrite list_lookup_alter_eq, list_lookup_middle by reflexivity.
              cbn. apply insert_empty.
           ++ rewrite list_lookup_middle by reflexivity. reflexivity.
        -- rewrite lookup_insert_ne by exact Hne.
           apply (readPriceInfo_kept st); [exact Hbound | |].
           ++ intros i x. destruct found; [apply heap_altered | apply heap_grown].
           ++ apply lookup_insert_ne. exact Hne.
Qed.

Lemma entriesFrom_more region zones sent new spotPrices :
  entriesFrom region zones sent spotPrices ->
  entriesFrom region zones (sent ++ new) spotPrices.
Proof.
  intros Hfrom T sp HT.
  destruct (Hfrom T sp HT) as (zone & priceTypes & Hzone & Hlisted & Hsent & Hsp).
  exists zone, priceTypes. repeat split; try assumption.
  apply elem_of_app. left. exact Hsent.
Qed.

Lemma spotPriceHistoryResult_ok content priceTypes :
  spotPriceHistoryResult content = Ok priceTypes ->
  content = SpotPriceHistoryDocument priceTypes.
Proof. destruct content; cbn; intros Heq; inversion Heq; reflexivity. Qed.

Lemma spotPricesOfZone_entries a region zones zone :
  zone ∈ zones ->
  forall instanceTypes,
  (forall instanceType, instanceType ∈ instanceTypes ->
     instanceType ∈ AvailableInstanceTypes zone) ->
  forall st w sent w' st',
  storeBound st ->
  entriesFrom region zones sent (readPriceInfo st) ->
  spotPricesOfZone a region (ZoneId zone) instanceTypes st w = (w', Ok st') ->
  exists new,
    exchanges w' = exchanges w ++ new /\
    storeBound st' /\
    entriesFrom region zones (sent ++ new) (readPriceInfo st').
Proof.
  intros Hzone. induction instanceTypes as [| instanceType rest IH];
    intros Hlisted st w sent w' st' Hbound Hfrom.
  - cbn. intros [= <- <-]. exists []. rewrite !app_nil_r. repeat split; assumption.
  - assert (Hrest : forall T, T ∈ rest -> T ∈ AvailableInstanceTypes zone)
      by (intros T HT; apply Hlisted; right; exact HT).
    cbn [spotPricesOfZone].
    destruct (priceInfo st !! instanceType) as [spotPrice |];
      [apply (IH Hrest); assumption |].
    unfold bind at 1. unfold attempt, ProcessCommonRequest. cbn zeta.
    set (request := describeSpotPriceHistoryRequest region instanceType).
    destruct (client a (exchanges w) request) as [content | err] eqn:Hreply.
    + unfold bind at 1. rewrite UnmarshalSpotPriceHistory_run.
      destruct (spotPriceHistoryResult content) as [priceTypes | e |] eqn:Hcontent;
        [| discriminate | discriminate].
      apply spotPriceHistoryResult_ok in Hcontent. subst content.
      destruct (scanPriceTypes_read (ZoneId zone) instanceType priceTypes st Hbound)
        as [Hbound' Hread].
      intros Hrun.
      apply (IH Hrest _ _ (sent ++ [(request, inl (SpotPriceHistoryDocument priceTypes))]))
        in Hrun as (new & Hnew & Hbound'' & Hfrom'').
      * exists ((request, inl (SpotPriceHistoryDocument priceTypes)) :: new).
        split; [rewrite Hnew; cbn; rewrite <- app_assoc; reflexivity |].
        split; [exact Hbound'' |].
        rewrite <- app_assoc in Hfrom''. exact Hfrom''.
      * exact Hbound'.
      * rewrite Hread.
        destruct (spotPriceOf (ZoneId zone) priceTypes) as [sp |] eqn:Hsp;
          [| apply entriesFrom_more; exact Hfrom].
        intros T sp'. rewrite lookup_insert. case_decide as HT.
        -- intros [= <-]. subst T. exists zone, priceTypes.
           split; [exact Hzone |]. split; [apply Hlisted; left |].
           split; [apply elem_of_app; right; left | exact Hsp].
        -- intros Hlook. apply (entriesFrom_more _ _ _ _ _ Hfrom T sp' Hlook).
    + unfold bind at 1. unfold writeLog. cbn.
      intros Hrun.
      apply (IH Hrest _ _ (sent ++ [(request, inr err)])) in Hrun
        as (new & Hnew & Hbound'' & Hfrom'').
      * exists ((request, inr err) :: new).
        split; [rewrite Hnew; cbn; rewrite <- app_assoc; reflexivity |].
        split; [exact Hbound'' |].
        rewrite <- app_assoc in Hfrom''. exact Hfrom''.
      * exact Hbound.
      * apply entriesFrom_more. exact Hfrom.
Qed.

Lemma spotPricesOfZones_entries a region zones :
  forall walked,
  (forall zone, zone ∈ walked -> zone ∈ zones) ->
  forall st w sent w' st',
  storeBound st ->
  entriesFrom region zones sent (readPriceInfo st) ->
  spotPricesOfZones a region walked st w = (w', Ok st') ->
  exists new,
    exchanges w' = exchanges w ++ new /\
    storeBound st' /\
    entriesFrom region zones (sent ++ new) (readPriceInfo st').
Proof.
  induction walked as [| zone rest IH]; intros Hin st w sent w' st' Hbound Hfrom.
  - cbn. intros [= <- <-]. exists []. rewrite !app_nil_r. repeat split; assumption.
  - cbn [spotPricesOfZones]. unfold bind.
    destruct (spotPricesOfZone a region (ZoneId zone) (AvailableInstanceTypes zone) st w)
      as [w1 [st1 | e |]] eqn:Hzone; [| discriminate | discriminate].
    apply (spotPricesOfZone_entries a region zones zone (Hin zone (list_elem_of_here _ _))
             _ (fun _ H => H) _ _ sent) in Hzone as (new1 & Hnew1 & Hbound1 & Hfrom1);
      [| exact Hbound | exact Hfrom].
    intros Hrun.
    apply (IH (fun z Hz => Hin z (list_elem_of_further _ _ _ Hz)) _ _ (sent ++ new1))
      in Hrun as (new & Hnew & Hbound2 & Hfrom2); [| exact Hbound1 | exact Hfrom1].
    exists (new1 ++ new).
    split; [rewrite Hnew, Hnew1, <- app_assoc; reflexivity |].
    split; [exact Hbound2 |]. rewrite app_assoc. exact Hfrom2.
Qed.

Lemma getCurrentSpotPrices_entriesFrom a region w w' spotPrices :
  getCurrentSpotPrices a region w = (w', Ok spotPrices) ->
  exists zones,
    zonesResult (client a (exchanges w) (describeZonesRequest region)) = Ok zones /\
    entriesFrom region zones (newExchanges w w') spotPrices.
Proof.
  unfold getCurrentSpotPrices.
  unfold bind at 1. unfold writeLog at 1. cbn beta iota.
  unfold bind at 1. rewrite getZones_run. cbn zeta. cbn [exchanges logged].
  destruct (zonesResult (client a (exchanges w) (describeZonesRequest region)))
    as [zones | e |]; [| discriminate | discriminate].
  unfold bind at 1.
  destruct (spotPricesOfZones a region zones (mkSpotStore [] ∅) _)
    as [w2 [st | e |]] eqn:Hloop; [| discriminate | discriminate].
  unfold bind, writeLog, ret. cbn. intros [= <- <-].
  exists zones. split; [reflexivity |].
  apply (spotPricesOfZones_entries a region zones zones (fun _ H => H) _ _
           [(describeZonesRequest region,
             client a (exchanges w) (describeZonesRequest region))])
    in Hloop as (new & Hnew & _ & Hfrom).
  - rewrite (newExchanges_app w _ ((describeZonesRequest region,
               client a (exchanges w) (describeZonesRequest region)) :: new)).
    + exact Hfrom.
    + cbn. rewrite Hnew. cbn. rewrite <- app_assoc. reflexivity.
  - intros T ref. cbn. rewrite lookup_empty. discriminate.
  - intros T sp. unfold readPriceInfo. cbn. rewrite fmap_empty, lookup_empty. discriminate.
Qed.

(** ** An undecodable history ends the walk *)

Lemma spotPricesOfZone_undecodable a region zoneId instanceTypes :
  forall st w w' r,
  spotPricesOfZone a region zoneId instanceTypes st w = (w', r) ->
  exists new,
    exchanges w' = exchanges w ++ new /\
    forall instanceType content e,
      (describeSpotPriceHistoryRequest region instanceType, inl content) ∈ new ->
      spotPriceHistoryResult content = Err e ->
      r = Err e /\
      last new = Some (describeSpotPriceHistoryRequest region instanceType, inl content).
Proof.
  induction instanceTypes as [| instanceType rest IH]; intros st w w' r.
  - cbn. intros [= <- <-]. exists []. split; [symmetry; apply app_nil_r |].
    intros T content e Hin. inversion Hin.
  - cbn [spotPricesOfZone].
    destruct (priceInfo st !! instanceType) as [spotPrice |]; [apply IH |].
    unfold bind at 1. unfold attempt, ProcessCommonRequest. cbn zeta.
    set (request := describeSpotPriceHistoryRequest region instanceType).
    destruct (client a (exchanges w) request) as [content | err] eqn:Hreply.
    + unfold bind at 1. rewrite UnmarshalSpotPriceHistory_run.
      destruct (spotPriceHistoryResult content) as [priceTypes | e0 |] eqn:Hcontent.
      * intros Hrun. apply IH in Hrun as (new & Hnew & Hund).
        exists ((request, inl content) :: new).
        split; [rewrite Hnew; cbn; rewrite <- app_assoc; reflexivity |].
        intros T content' e Hin Hres.
        apply elem_of_cons in Hin as [Heq | Hin];
          [inversion Heq; subst; congruence |].
        destruct (Hund T content' e Hin Hres) as [Hr Hlast].
        split; [exact Hr |]. rewrite last_cons, Hlast. reflexivity.
      * intros [= <- <-]. exists [(request, inl content)].
        split; [reflexivity |].
        intros T content' e Hin Hres.
        apply list_elem_of_singleton in Hin. inversion Hin; subst.
        split; [congruence | reflexivity].
      * destruct content; discriminate.
    + unfold bind at 1. unfold writeLog. cbn.
      intros Hrun. apply IH in Hrun as (new & Hnew & Hund).
      exists ((request, inr err) :: new).
      split; [rewrite Hnew; cbn; rewrite <- app_assoc; reflexivity |].
      intros T content' e Hin Hres.
      apply elem_of_cons in Hin as [Heq | Hin]; [inversion Heq |].
      destruct (Hund T content' e Hin Hres) as [Hr Hlast].
      split; [exact Hr |]. rewrite last_cons, Hlast. reflexivity.
Qed.

Lemma spotPricesOfZones_undecodable a region zones :
  forall st w w' r,
  spotPricesOfZones a region zones st w = (w', r) ->
  exists new,
    exchanges w' = exchanges w ++ new /\
    forall instanceType content e,
      (describeSpotPriceHistoryRequest region instanceType, inl content) ∈ new ->
      spotPriceHistoryResult content = Err e ->
      r = Err e /\
      last new = Some (describeSpotPriceHistoryRequest region instanceType, inl content).
Proof.
  induction zones as [| zone rest IH]; intros st w w' r.
  - cbn. intros [= <- <-]. exists []. split; [symmetry; apply app_nil_r |].
    intros T content e Hin. inversion Hin.
  - cbn [spotPricesOfZones]. unfold bind.
    destruct (spotPricesOfZone a region (ZoneId zone) (AvailableInstanceTypes zone) st w)
      as [w1 r1] eqn:Hzone.
    apply spotPricesOfZone_undecodable in Hzone as (new1 & Hnew1 & Hund1).
    destruct r1 as [st1 | e1 |].
    + intros Hrun. apply IH in Hrun as (new & Hnew & Hund).
      exists (new1 ++ new).
      split; [rewrite Hnew, Hnew1, <- app_assoc; reflexivity |].
      intros T content e Hin Hres.
      apply elem_of_app in Hin as [Hin | Hin].
      * destruct (Hund1 T content e Hin Hres) as [Hr _]. discriminate.
      * destruct (Hund T content e Hin Hres) as [Hr Hlast].
        split; [exact Hr |]. rewrite last_app, Hlast. reflexivity.
    + intros [= <- <-]. exists new1. split; [exact Hnew1 | exact Hund1].
    + intros [= <- <-]. exists new1. split; [exact Hnew1 | exact Hund1].
Qed.

(** ** Every listing is walked *)

Lemma requestsFor_snoc region instanceType asked reply sent :
  requestsFor region instanceType
    (sent ++ [(describeSpotPriceHistoryRequest region asked, reply)]) =
  (requestsFor region instanceType sent + if decide (asked = instanceType) then 1 else 0)%nat.
Proof.
  unfold requestsFor. rewrite filter_app, length_app. f_equal.
  rewrite filter_cons, filter_nil. unfold asksFor. cbn [fst].
  rewrite String.eqb_refl. cbn [andb].
  destruct (decide (asked = instanceType)) as [-> | Hne].
  - rewrite String.eqb_refl, decide_True by reflexivity. reflexivity.
  - apply String.eqb_neq in Hne. rewrite Hne, decide_False by discriminate. reflexivity.
Qed.

Lemma occurrences_snoc instanceType asked walked :
  occurrences instanceType (walked ++ [asked]) =
  (occurrences instanceType walked + if decide (asked = instanceType) then 1 else 0)%nat.
Proof.
  unfold occurrences. rewrite filter_app, length_app. f_equal.
  rewrite filter_cons, filter_nil. destruct (decide (asked = instanceType)); reflexivity.
Qed.

Lemma readPriceInfo_entry st instanceType spotPrice :
  priceInfo st !! instanceType = Some spotPrice ->
  readPriceInfo st !! instanceType <> None.
Proof. intros Href. rewrite readPriceInfo_lookup, Href. discriminate. Qed.

Lemma walkedSoFar_skipped region zones walked sent st instanceType spotPrice :
  priceInfo st !! instanceType = Some spotPrice ->
  walkedSoFar region zones walked sent st ->
  walkedSoFar region zones (walked ++ [instanceType]) sent st.
Proof.
  intros Href (Hbound & Hcount & Hkept). split; [exact Hbound |]. split; [| exact Hkept].
  intros T. destruct (Hcount T) as [Hle Heq]. rewrite occurrences_snoc.
  split; [lia |]. intros Hnone.
  destruct (decide (instanceType = T)) as [<- | Hne]; [| rewrite (Heq Hnone); lia].
  destruct (readPriceInfo_entry _ _ _ Href Hnone).
Qed.

Lemma walkedSoFar_failed region zones walked sent st instanceType err :
  walkedSoFar region zones walked sent st ->
  walkedSoFar region zones (walked ++ [instanceType])
    (sent ++ [(describeSpotPriceHistoryRequest region instanceType, inr err)]) st.
Proof.
  intros (Hbound & Hcount & Hkept). split; [exact Hbound |]. split.
  - intros T. destruct (Hcount T) as [Hle Heq].
    rewrite occurrences_snoc, requestsFor_snoc.
    split; [lia |]. intros Hnone. rewrite (Heq Hnone). reflexivity.
  - intros T priceTypes Hin. apply elem_of_app in Hin as [Hin | Hin].
    + exact (Hkept T priceTypes Hin).
    + apply list_elem_of_singleton in Hin. inversion Hin.
Qed.

Lemma walkedSoFar_decoded region zones walked sent st zone instanceType priceTypes :
  zone ∈ zones ->
  instanceType ∈ AvailableInstanceTypes zone ->
  walkedSoFar region zones walked sent st ->
  walkedSoFar region zones (walked ++ [instanceType])
    (sent ++ [(describeSpotPriceHistoryRequest region instanceType,
               inl (SpotPriceHistoryDocument priceTypes))])
    (scanPriceTypes (ZoneId zone) instanceType (length (heap st)) priceTypes
       (mkSpotStore (heap st ++ [∅]) (priceInfo st))).
Proof.
  intros Hzone Hlisted (Hbound & Hcount & Hkept).
  destruct (scanPriceTypes_read (ZoneId zone) instanceType priceTypes st Hbound)
    as [Hbound' Hread].
  assert (Hmono : forall T,
            readPriceInfo st !! T <> None ->
            readPriceInfo
              (scanPriceTypes (ZoneId zone) instanceType (length (heap st)) priceTypes
                 (mkSpotStore (heap st ++ [∅]) (priceInfo st))) !! T <> None).
  { intros T Hsome. rewrite Hread.
    destruct (spotPriceOf (ZoneId zone) priceTypes) as [sp |]; [| exact Hsome].
    rewrite lookup_insert. case_decide; [discriminate | exact Hsome]. }
  split; [exact Hbound' |]. split.
  - intros T. destruct (Hcount T) as [Hle Heq].
    rewrite occurrences_snoc, requestsFor_snoc.
    split; [lia |]. intros Hnone.
    destruct (readPriceInfo st !! T) as [sp |] eqn:Hold.
    + exfalso. apply (Hmono T); [rewrite Hold; discriminate | exact Hnone].
    + rewrite (Heq eq_refl). reflexivity.
  - intros T priceTypes' Hin Hall. apply elem_of_app in Hin as [Hin | Hin].
    + apply Hmono. exact (Hkept T priceTypes' Hin Hall).
    + apply list_elem_of_singleton in Hin. inversion Hin; subst.
      rewrite Hread.
      destruct (spotPriceOf (ZoneId zone) priceTypes) as [sp |] eqn:Hsp.
      * rewrite lookup_insert_eq. discriminate.
      * destruct (Hall zone Hzone Hlisted Hsp).
Qed.

Lemma spotPricesOfZone_walked a region zones zone :
  zone ∈ zones ->
  forall instanceTypes,
  (forall instanceType, instanceType ∈ instanceTypes ->
     instanceType ∈ AvailableInstanceTypes zone) ->
  forall st w walked sent w' st',
  walkedSoFar region zones walked sent st ->
  spotPricesOfZone a region (ZoneId zone) instanceTypes st w = (w', Ok st') ->
  exists new,
    exchanges w' = exchanges w ++ new /\
    walkedSoFar region zones (walked ++ instanceTypes) (sent ++ new) st'.
Proof.
  intros Hzone. induction instanceTypes as [| instanceType rest IH];
    intros Hlisted st w walked sent w' st' Hwalked.
  - cbn. intros [= <- <-]. exists []. rewrite !app_nil_r. split; [reflexivity | exact Hwalked].
  - assert (Hrest : forall T, T ∈ rest -> T ∈ AvailableInstanceTypes zone)
      by (intros T HT; apply Hlisted; right; exact HT).
    rewrite (cons_middle instanceType walked rest), app_assoc.
    cbn [spotPricesOfZone].
    destruct (priceInfo st !! instanceType) as [spotPrice |] eqn:Href.
    { apply (IH Hrest). exact (walkedSoFar_skipped _ _ _ _ _ _ _ Href Hwalked). }
    unfold bind at 1. unfold attempt, ProcessCommonRequest. cbn zeta.
    set (request := describeSpotPriceHistoryRequest region instanceType).
    destruct (client a (exchanges w) request) as [content | err] eqn:Hreply.
    + unfold bind at 1. rewrite UnmarshalSpotPriceHistory_run.
      destruct (spotPriceHistoryResult content) as [priceTypes | e |] eqn:Hcontent;
        [| discriminate | discriminate].
      apply spotPriceHistoryResult_ok in Hcontent. subst content.
      intros Hrun.
      apply (IH Hrest _ _ (walked ++ [instanceType])
               (sent ++ [(request, inl (SpotPriceHistoryDocument priceTypes))]))
        in Hrun as (new & Hnew & Hwalked').
      * exists ((request, inl (SpotPriceHistoryDocument priceTypes)) :: new).
        split; [rewrite Hnew; cbn; rewrite <- app_assoc; reflexivity |].
        rewrite <- (app_assoc sent) in Hwalked'. exact Hwalked'.
      * apply walkedSoFar_decoded; [exact Hzone | apply Hlisted; left | exact Hwalked].
    + unfold bind at 1. unfold writeLog. cbn.
      intros Hrun.
      apply (IH Hrest _ _ (walked ++ [instanceType]) (sent ++ [(request, inr err)]))
        in Hrun as (new & Hnew & Hwalked').
      * exists ((request, inr err) :: new).
        split; [rewrite Hnew; cbn; rewrite <- app_assoc; reflexivity |].
        rewrite <- (app_assoc sent) in Hwalked'. exact Hwalked'.
      * apply walkedSoFar_failed. exact Hwalked.
Qed.

Lemma spotPricesOfZones_walked a region zones :
  forall remaining,
  (forall zone, zone ∈ remaining -> zone ∈ zones) ->
  forall st w walked sent w' st',
  walkedSoFar region zones walked sent st ->
  spotPricesOfZones a region remaining st w = (w', Ok st') ->
  exists new,
    exchanges w' = exchanges w ++ new /\
    walkedSoFar region zones (walked ++ listed remaining) (sent ++ new) st'.
Proof.
  induction remaining as [| zone rest IH]; intros Hin st w walked sent w' st' Hwalked.
  - cbn. intros [= <- <-]. exists []. rewrite !app_nil_r. split; [reflexivity | exact Hwalked].
  - cbn [spotPricesOfZones]. unfold bind.
    destruct (spotPricesOfZone a region (ZoneId zone) (AvailableInstanceTypes zone) st w)
      as [w1 [st1 | e |]] eqn:Hzone; [| discriminate | discriminate].
    apply (spotPricesOfZone_walked a region zones zone (Hin zone (list_elem_of_here _ _))
             _ (fun _ H => H) _ _ walked sent) in Hzone as (new1 & Hnew1 & Hwalked1);
      [| exact Hwalked].
    intros Hrun.
    apply (IH (fun z Hz => Hin z (list_elem_of_further _ _ _ Hz)) _ _
              (walked ++ AvailableInstanceTypes zone) (sent ++ new1))
      in Hrun as (new & Hnew & Hwalked2); [| exact Hwalked1].
    exists (new1 ++ new).
    split; [rewrite Hnew, Hnew1, <- app_assoc; reflexivity |].
    unfold listed. cbn [map concat]. rewrite !app_assoc. exact Hwalked2.
Qed.

Lemma requestsFor_asked region instanceType sent :
  (0 < requestsFor region instanceType sent)%nat ->
  exists reply, (describeSpotPriceHistoryRequest region instanceType, reply) ∈ sent.
Proof.
  unfold requestsFor. intros Hpos.
  destruct (filter (fun x => asksFor region instanceType x = true) sent)
    as [| [request reply] l] eqn:Hfilter; [cbn in Hpos; lia |].
  assert (Hin : (request, reply) ∈ filter (fun x => asksFor region instanceType x = true) sent)
    by (rewrite Hfilter; left).
  apply list_elem_of_filter in Hin as [Hasks Hin].
  unfold asksFor in Hasks. cbn [fst] in Hasks.
  destruct request as [| r t | |]; try discriminate.
  apply andb_prop in Hasks as [Hr Ht].
  apply String.eqb_eq in Hr, Ht. subst. exists reply. exact Hin.
Qed.

Lemma occurrences_listed zones zone instanceType :
  zone ∈ zones -> instanceType ∈ AvailableInstanceTypes zone ->
  (0 < occurrences instanceType (listed zones))%nat.
Proof.
  intros Hzone Hlisted. unfold occurrences.
  assert (Hin : instanceType ∈ filter (fun t => t = instanceType) (listed zones)).
  { apply list_elem_of_filter. split; [reflexivity |].
    unfold listed. apply elem_of_concat. exists (AvailableInstanceTypes zone).
    split; [apply list_elem_of_fmap; exists zone; split; [reflexivity | exact Hzone]
           | exact Hlisted]. }
  destruct (filter _ (listed zones)); [inversion Hin | cbn; lia].
Qed.

Lemma getCurrentSpotPrices_run a region w :
  getCurrentSpotPrices a region w =
  let reply := client a (exchanges w) (describeZonesRequest region) in
  let w1 :=
    mkWorld (exchanges w ++ [(describeZonesRequest region, reply)])
            (logged w ++ [mkLogLine LevelDebug "start retrieving spot price data"
                                    [("region", FieldString region)]]) in
  match zonesResult reply with
  | Ok zones =>
      match spotPricesOfZones a region zones (mkSpotStore [] ∅) w1 with
      | (w2, Ok st) =>
          (mkWorld (exchanges w2)
                   (logged w2 ++ [mkLogLine LevelDebug "retrieved spot price data"
                                            [("region", FieldString region)]]),
           Ok (readPriceInfo st))
      | (w2, Err e) => (w2, Err e)
      | (w2, Panic) => (w2, Panic)
      end
  | Err e => (w1, Err e)
  | Panic => (w1, Panic)
  end.
Proof.
  unfold getCurrentSpotPrices.
  unfold bind at 1. unfold writeLog at 1. cbn beta iota.
  unfold bind at 1. rewrite getZones_run. cbn zeta. cbn [exchanges logged].
  destruct (zonesResult (client a (exchanges w) (describeZonesRequest region)))
    as [zones | e |]; [| reflexivity | reflexivity].
  unfold bind at 1.
  destruct (spotPricesOfZones a region zones (mkSpotStore [] ∅) _) as [w2 [st | e |]];
    reflexivity.
Qed.

Lemma walkedSoFar_start region zones reply :
  walkedSoFar region zones [] [(describeZonesRequest region, reply)] (mkSpotStore [] ∅).
Proof.
  split; [| split].
  - intros T ref. cbn. rewrite lookup_empty. discriminate.
  - intros T. split; [reflexivity | intros _; reflexivity].
  - intros T priceTypes Hin. apply list_elem_of_singleton in Hin. inversion Hin.
Qed.

Lemma getCurrentSpotPrices_failures a region w :
  let run := getCurrentSpotPrices a region w in
  let reply := client a (exchanges w) (describeZonesRequest region) in
  run.2 <> Panic /\
  (forall e, zonesResult reply = Err e ->
     run.2 = Err e /\ newExchanges w run.1 = [(describeZonesRequest region, reply)]) /\
  (forall e, run.2 = Err e ->
     zonesResult reply = Err e \/
     exists instanceType content,
       (describeSpotPriceHistoryRequest region instanceType, inl content)
         ∈ newExchanges w run.1 /\
       spotPriceHistoryResult content = Err e) /\
  (forall instanceType err,
     (describeSpotPriceHistoryRequest region instanceType, inr err) ∈ newExchanges w run.1 ->
     spotFailureLine region instanceType ∈ newLines w run.1).
Proof.
  cbv zeta. unfold getCurrentSpotPrices, bind, writeLog. rewrite getZones_run. cbn zeta.
  cbn [exchanges logged].
  set (reply := client a (exchanges w) (describeZonesRequest region)).
  destruct (zonesResult reply) as [zones | e0 |] eqn:Hzones;
    [| | destruct reply as [[] |]; discriminate].
  - set (w1 := mkWorld (exchanges w ++ [(describeZonesRequest region, reply)])
                       (logged w ++ [mkLogLine LevelDebug "start retrieving spot price data"
                                                [("region", FieldString region)]])).
    pose proof (spotPricesOfZones_run a region zones (mkSpotStore [] ∅) w1) as Hrun.
    destruct (spotPricesOfZones a region zones (mkSpotStore [] ∅) w1) as [w2 r].
    destruct Hrun as (Hpanic & new & lines & Hnew & Hlines & Herr & Hfail).
    cbn [fst snd] in *.
    assert (Hex : forall w3 : World,
               exchanges w3 = exchanges w2 ->
               newExchanges w w3 = (describeZonesRequest region, reply) :: new).
    { intros w3 Hw3. apply newExchanges_app. rewrite Hw3, Hnew. unfold w1. cbn.
      rewrite <- app_assoc. reflexivity. }
    assert (Hlog : forall (w3 : World) extra,
               logged w3 = logged w2 ++ extra ->
               forall line, line ∈ lines -> line ∈ newLines w w3).
    { intros w3 extra Hw3 line Hline.
      rewrite (newLines_app w w3 (mkLogLine LevelDebug "start retrieving spot price data"
                                     [("region", FieldString region)] :: lines ++ extra)).
      - right. apply elem_of_app. left. exact Hline.
      - rewrite Hw3, Hlines. unfold w1. cbn. rewrite <- !app_assoc. reflexivity. }
    destruct r as [st | e |]; cbn [fst snd].
    + split; [discriminate |]. split; [intros e; discriminate |].
      split; [intros e; discriminate |].
      intros it err Hin. rewrite Hex in Hin by reflexivity.
      apply elem_of_cons in Hin as [Heq | Hin]; [inversion Heq |].
      eapply Hlog; [cbn; reflexivity | exact (Hfail it err Hin)].
    + split; [discriminate |]. split; [intros e'; discriminate |]. split.
      * intros e' He'. right. inversion He'; subst e'.
        destruct (Herr e eq_refl) as (it & content & Hin & Hres).
        exists it, content. split; [| exact Hres].
        rewrite Hex by reflexivity. right. exact Hin.
      * intros it err Hin. rewrite Hex in Hin by reflexivity.
        apply elem_of_cons in Hin as [Heq | Hin]; [inversion Heq |].
        eapply (Hlog _ []); [symmetry; apply app_nil_r | exact (Hfail it err Hin)].
    + congruence.
  - cbn [fst snd].
    assert (Hex : newExchanges w
                    (mkWorld (exchanges w ++ [(describeZonesRequest region, reply)])
                             (logged w ++ [mkLogLine LevelDebug "start retrieving spot price data"
                                                     [("region", FieldString region)]]))
                  = [(describeZonesRequest region, reply)])
      by (apply newExchanges_app; reflexivity).
    split; [discriminate |]. split.
    + intros e He. inversion He; subst. split; [reflexivity | exact Hex].
    + split.
      * intros e He. left. inversion He; subst. reflexivity.
      * intros it err Hin. rewrite Hex in Hin.
        apply list_elem_of_singleton in Hin. inversion Hin.
Qed.

(** C6 (amended). [getCurrentSpotPrices] never panics. It fails with the
    error of [getZones] when the zones cannot be listed, after that one
    request. When it fails, either [getZones] failed or the provider answered
    a spot price request with a content that [json.Unmarshal] rejects, and
    the error is that one. A spot price request that fails is absorbed: it is
    logged, and it is not among the causes of a failure. A content that
    [json.Unmarshal] rejects ends the call with that error, and nothing is
    requested after it. When the call returns a map, the walk went on over
    every listing of every zone: each instance type that a zone lists was
    asked, none more often than it is listed, and one without an entry in
    the map at each of its listings; every entry of the map comes from a
    history that was received, none from a failed request; and a history
    that yields an entry under every zone that lists its type has left one,
    whatever failed before or after it. *)
Theorem getCurrentSpotPrices_errors a region w :
  let run := getCurrentSpotPrices a region w in
  let reply := client a (exchanges w) (describeZonesRequest region) in
  run.2 <> Panic /\
  (forall e, zonesResult reply = Err e ->
     run.2 = Err e /\ newExchanges w run.1 = [(describeZonesRequest region, reply)]) /\
  (forall e, run.2 = Err e ->
     zonesResult reply = Err e \/
     exists instanceType content,
       (describeSpotPriceHistoryRequest region instanceType, inl content)
         ∈ newExchanges w run.1 /\
       spotPriceHistoryResult content = Err e) /\
  (forall instanceType err,
     (describeSpotPriceHistoryRequest region instanceType, inr err) ∈ newExchanges w run.1 ->
     spotFailureLine region instanceType ∈ newLines w run.1) /\
  (forall instanceType content e,
     (describeSpotPriceHistoryRequest region instanceType, inl content)
       ∈ newExchanges w run.1 ->
     spotPriceHistoryResult content = Err e ->
     run.2 = Err e /\
     last (newExchanges w run.1)
       = Some (describeSpotPriceHistoryRequest region instanceType, inl content)) /\
  (forall zones spotPrices,
     zonesResult reply = Ok zones ->
     run.2 = Ok spotPrices ->
     (forall zone instanceType,
        zone ∈ zones -> instanceType ∈ AvailableInstanceTypes zone ->
        exists r,
          (describeSpotPriceHistoryRequest region instanceType, r) ∈ newExchanges w run.1) /\
     (forall instanceType,
        (requestsFor region instanceType (newExchanges w run.1)
         <= occurrences instanceType (listed zones))%nat /\
        (spotPrices !! instanceType = None ->
         requestsFor region instanceType (newExchanges w run.1)
         = occurrences instanceType (listed zones))) /\
     entriesFrom region zones (newExchanges w run.1) spotPrices /\
     (forall instanceType priceTypes,
        (describeSpotPriceHistoryRequest region instanceType,
         inl (SpotPriceHistoryDocument priceTypes)) ∈ newExchanges w run.1 ->
        (forall zone, zone ∈ zones -> instanceType ∈ AvailableInstanceTypes zone ->
           spotPriceOf (ZoneId zone) priceTypes <> None) ->
        spotPrices !! instanceType <> None)).
Proof.
  cbv zeta.
  destruct (getCurrentSpotPrices_failures a region w) as (Hpanic & Hzones & Herr & Hfail).
  split; [exact Hpanic |]. split; [exact Hzones |].
  split; [exact Herr |]. split; [exact Hfail |].
  clear Hpanic Hzones Herr Hfail.
  set (reply := client a (exchanges w) (describeZonesRequest region)).
  set (w1 := mkWorld (exchanges w ++ [(describeZonesRequest region, reply)])
                     (logged w ++ [mkLogLine LevelDebug "start retrieving spot price data"
                                              [("region", FieldString region)]])).
  destruct (getCurrentSpotPrices a region w) as [w' r] eqn:Hrun. cbn [fst snd].
  pose proof Hrun as Hcall.
  rewrite getCurrentSpotPrices_run in Hrun. cbv zeta in Hrun.
  fold reply in Hrun. fold w1 in Hrun.
  destruct (zonesResult reply) as [zones | e0 |] eqn:Hreply.
  - destruct (spotPricesOfZones a region zones (mkSpotStore [] ∅) w1) as [w2 r2] eqn:Hloop.
    destruct (spotPricesOfZones_undecodable _ _ _ _ _ _ _ Hloop) as (new & Hnew & Hund).
    assert (Hex : exchanges w' = exchanges w ++ (describeZonesRequest region, reply) :: new).
    { destruct r2; inversion Hrun; subst; cbn [exchanges]; rewrite Hnew; unfold w1; cbn;
        rewrite <- app_assoc; reflexivity. }
    rewrite (newExchanges_app _ _ _ Hex).
    split.
    + intros T content e Hin Hres.
      apply elem_of_cons in Hin as [Heq | Hin]; [inversion Heq |].
      destruct (Hund T content e Hin Hres) as [Hr2 Hlast].
      split; [subst r2; inversion Hrun; reflexivity |].
      rewrite last_cons, Hlast. reflexivity.
    + intros zones' spotPrices [= <-] Hok. subst r.
      destruct r2 as [st | e |]; inversion Hrun; subst w' spotPrices.
      destruct (spotPricesOfZones_walked a region zones zones (fun _ H => H)
                  _ _ [] [(describeZonesRequest region, reply)] _ _
                  (walkedSoFar_start region zones reply) Hloop)
        as (new' & Hnew' & _ & Hcount & Hkept).
      assert (new' = new) as -> by (rewrite Hnew in Hnew'; exact (app_inv_head _ _ _ (eq_sym Hnew'))).
      cbn [app] in Hcount, Hkept.
      apply getCurrentSpotPrices_entriesFrom in Hcall as (zones' & Hzones' & Hfrom).
      rewrite (newExchanges_app _ _ _ Hex) in Hfrom.
      fold reply in Hzones'. rewrite Hreply in Hzones'. injection Hzones' as <-.
      split; [| split; [exact Hcount | split; [exact Hfrom | exact Hkept]]].
      intros zone T Hzone Hlisted.
      destruct (readPriceInfo st !! T) as [sp |] eqn:Hentry.
      * destruct (Hfrom T sp Hentry) as (zone' & priceTypes & _ & _ & Hsent & _).
        eexists. exact Hsent.
      * apply requestsFor_asked. rewrite (proj2 (Hcount T) Hentry).
        exact (occurrences_listed zones zone T Hzone Hlisted).
  - inversion Hrun; subst w' r.
    rewrite (newExchanges_app w w1 [(describeZonesRequest region, reply)] eq_refl).
    split.
    + intros T content e Hin. apply list_elem_of_singleton in Hin. inversion Hin.
    + intros zones spotPrices Hz. discriminate.
  - inversion Hrun; subst w' r.
    rewrite (newExchanges_app w w1 [(describeZonesRequest region, reply)] eq_refl).
    split.
    + intros T content e Hin. apply list_elem_of_singleton in Hin. inversion Hin.
    + intros zones spotPrices Hz. discriminate.
Qed.

Lemma getCurrentSpotPrices_errors_witness :
  let run := getCurrentSpotPrices flaky "cn-hangzhou" emptyWorld in
  run.2 = Ok {[ "ecs.c5.large" := {[ "cn-hangzhou-b" := 0.5%float ]} ]} /\
  spotFailureLine "cn-hangzhou" "ecs.g5.large" ∈ newLines emptyWorld run.1 /\
  (exists r,
     (describeSpotPriceHistoryRequest "cn-hangzhou" "ecs.c5.large", r)
       ∈ newExchanges emptyWorld run.1) /\
  (getCurrentSpotPrices garbled "cn-hangzhou" emptyWorld).2
    = Err (errors_New "unexpected end of JSON input") /\
  (getCurrentSpotPrices unreachable "cn-hangzhou" emptyWorld).2
    = Err (Wrap (errors_New "connection refused") "DescribeZones API call problem").
Proof.
  intros run. split; [vm_compute; reflexivity |].
  destruct (getCurrentSpotPrices_errors flaky "cn-hangzhou" emptyWorld)
    as (_ & _ & _ & Hfail & _ & Hwalk).
  split; [| split; [| split]].
  - apply (Hfail "ecs.g5.large" (errors_New "timeout")).
    vm_compute. right. left.
  - destruct (Hwalk [mkZone "cn-hangzhou-b" ["ecs.g5.large"; "ecs.c5.large"] []]
                    {[ "ecs.c5.large" := {[ "cn-hangzhou-b" := 0.5%float ]} ]})
      as (Hasked & _); [vm_compute; reflexivity | vm_compute; reflexivity |].
    apply (Hasked (mkZone "cn-hangzhou-b" ["ecs.g5.large"; "ecs.c5.large"] [])).
    + left.
    + right. left.
  - destruct (getCurrentSpotPrices_errors garbled "cn-hangzhou" emptyWorld)
      as (_ & _ & _ & _ & Habort & _).
    apply (Habort "ecs.g5.large" (Malformed (errors_New "unexpected end of JSON input"))).
    + vm_compute. right. left.
    + reflexivity.
  - destruct (getCurrentSpotPrices_errors unreachable "cn-hangzhou" emptyWorld)
      as (_ & Hzones & _).
    apply Hzones. vm_compute. reflexivity.
Defined.

(** C6, as stated, fails: the zones are listed, and the call still ends with
    an error, that of [json.Unmarshal] on the first spot price history. *)
Lemma getCurrentSpotPrices_errors_counterexample :
  let run := getCurrentSpotPrices garbled "cn-hangzhou" emptyWorld in
  zonesResult (client garbled [] (describeZonesRequest "cn-hangzhou"))
    = Ok [mkZone "cn-hangzhou-b" ["ecs.g5.large"; "ecs.c5.large"] []] /\
  run.2 = Err (errors_New "unexpected end of JSON input") /\
  map fst (exchanges run.1) =
    [describeZonesRequest "cn-hangzhou";
     describeSpotPriceHistoryRequest "cn-hangzhou" "ecs.g5.large"].
Proof. vm_compute. repeat split; reflexivity. Qed.

(** ** Current prices *)

Lemma map_fold_prices (spotPrices : gmap string SpotPriceInfo) :
  map_fold (fun instanceType sp prices =>
              <[instanceType := mkPrice (-1)%float sp]> prices) ∅ spotPrices
  = mkPrice (-1)%float <$> spotPrices.
Proof.
  apply (map_fold_weak_ind (fun r m => r = mkPrice (-1)%float <$> m)).
  - rewrite fmap_empty. reflexivity.
  - intros i x m r _ ->. rewrite fmap_insert. reflexivity.
Qed.

(** C5. In the map that [GetCurrentPrices] returns, the entry of an instance
    type is its entry in the map of [getCurrentSpotPrices], as [SpotPrice],
    with the [OnDemandPrice] -1; there is no other entry. *)
Theorem GetCurrentPrices_sentinel a region w w' prices :
  GetCurrentPrices a region w = (w', Ok prices) ->
  exists spotPrices,
    getCurrentSpotPrices a region w = (w', Ok spotPrices) /\
    (forall instanceType,
       prices !! instanceType = mkPrice (-1)%float <$> spotPrices !! instanceType) /\
    (forall instanceType price,
       prices !! instanceType = Some price ->
       OnDemand price = (-1)%float /\ spotPrices !! instanceType = Some (Spot price)).
Proof.
  unfold GetCurrentPrices. intros Hrun.
  apply bind_ok in Hrun as (w1 & spotPrices & Hspot & Hret).
  inversion Hret; subst w1 prices; clear Hret.
  exists spotPrices. split; [exact Hspot |].
  rewrite map_fold_prices. split.
  - intros instanceType. apply lookup_fmap.
  - intros instanceType price. rewrite lookup_fmap.
    destruct (spotPrices !! instanceType) as [sp |]; cbn; [| discriminate].
    intros Heq. inversion Heq; subst. split; reflexivity.
Qed.

Lemma GetCurrentPrices_sentinel_witness :
  let run := GetCurrentPrices hangzhou "cn-hangzhou" emptyWorld in
  exists prices,
    run.2 = Ok prices /\
    prices !! "ecs.g5.large" = Some (mkPrice (-1)%float {[ "cn-hangzhou-b" := 0.5%float ]}) /\
    forall instanceType price,
      prices !! instanceType = Some price -> OnDemand price = (-1)%float.
Proof.
  intros run.
  pose (prices := match run.2 with Ok prices => prices | _ => ∅ end).
  assert (Hrun : GetCurrentPrices hangzhou "cn-hangzhou" emptyWorld = (run.1, Ok prices))
    by (vm_compute; reflexivity).
  destruct (GetCurrentPrices_sentinel _ _ _ _ _ Hrun) as (spotPrices & _ & _ & Hall).
  exists prices. split; [vm_compute; reflexivity |]. split; [vm_compute; reflexivity |].
  intros instanceType price Hprice. exact (proj1 (Hall instanceType price Hprice)).
Defined.

(** ** The cadence of the renewals *)

Lemma renewals_elem shortLived c horizon tick refresh :
  (tick, refresh) ∈ renewals shortLived c horizon <->
  (tick < horizon)%nat /\ refresh ∈ due shortLived c tick.
Proof.
  unfold renewals. rewrite elem_of_concat. split.
  - intros (l & Hl & Hin).
    apply list_elem_of_fmap in Hl as (t & -> & Ht).
    apply list_elem_of_fmap in Hin as (refresh' & [= -> ->] & Hdue).
    apply elem_of_seq in Ht. split; [lia | exact Hdue].
  - intros [Hlt Hdue]. exists (map (pair tick) (due shortLived c tick)). split.
    + apply list_elem_of_fmap. exists tick. split; [reflexivity |].
      apply elem_of_seq. lia.
    + apply list_elem_of_fmap. exists refresh. split; [reflexivity | exact Hdue].
Qed.

Lemma due_full shortLived c tick :
  FullRefresh ∈ due shortLived c tick <-> (tick mod longInterval c = 0)%nat.
Proof.
  unfold due. rewrite elem_of_app.
  destruct (Nat.eqb_spec (tick mod longInterval c) 0) as [Hlong | Hlong].
  - split; [intros _; exact Hlong | intros _; left; left].
  - split; [| intros Heq; destruct (Hlong Heq)].
    intros [Hin | Hin]; [inversion Hin |].
    destruct (shortLived && _); [| inversion Hin].
    apply list_elem_of_singleton in Hin. discriminate.
Qed.

Lemma due_spot shortLived c tick :
  SpotPriceRefresh ∈ due shortLived c tick <->
  shortLived = true /\ (tick mod shortInterval c = 0)%nat.
Proof.
  unfold due. rewrite elem_of_app.
  assert (Hfull : ~ SpotPriceRefresh ∈
                    (if (tick mod longInterval c =? 0)%nat then [FullRefresh] else [])).
  { destruct (tick mod longInterval c =? 0)%nat; intros Hin; [| inversion Hin].
    apply list_elem_of_singleton in Hin. discriminate. }
  destruct shortLived; cbn [andb].
  - destruct (Nat.eqb_spec (tick mod shortInterval c) 0) as [Hshort | Hshort].
    + split; [intros _; split; [reflexivity | exact Hshort] | intros _; right; left].
    + split; [| intros [_ Heq]; destruct (Hshort Heq)].
      intros [Hin | Hin]; [destruct (Hfull Hin) | inversion Hin].
  - split; [| intros [Hflag _]; discriminate].
    intros [Hin | Hin]; [destruct (Hfull Hin) | inversion Hin].
Qed.

(** C9. [HasShortLivedPriceInfo] is false for every infoer, and so, under the
    two-tier cadence of the scheduler, the Alibaba infoer gets no
    spot-price-only refresh at any tick: its renewals are the full
    refreshes, at the multiples of the long interval, whereas a provider
    whose flag is true gets a spot-price-only refresh at every multiple of
    the short interval, on top of the same full refreshes. *)
Theorem HasShortLivedPriceInfo_cadence a c horizon :
  HasShortLivedPriceInfo a = false /\
  (forall tick, (tick, SpotPriceRefresh) ∉ renewalsOf a c horizon) /\
  (forall tick refresh,
     (tick, refresh) ∈ renewalsOf a c horizon <->
     refresh = FullRefresh /\ (tick < horizon)%nat /\ (tick mod longInterval c = 0)%nat) /\
  (forall tick,
     (tick, SpotPriceRefresh) ∈ renewals true c horizon <->
     (tick < horizon)%nat /\ (tick mod shortInterval c = 0)%nat) /\
  (forall tick,
     (tick, FullRefresh) ∈ renewals true c horizon <->
     (tick, FullRefresh) ∈ renewalsOf a c horizon).
Proof.
  unfold renewalsOf, HasShortLivedPriceInfo.
  split; [reflexivity |]. split; [| split; [| split]].
  - intros tick Hin. apply renewals_elem in Hin as [_ Hdue].
    apply due_spot in Hdue as [Hflag _]. discriminate.
  - intros tick refresh. rewrite renewals_elem. destruct refresh.
    + rewrite due_full. split.
      * intros [Hlt Hlong]. split; [reflexivity | split; assumption].
      * intros (_ & Hlt & Hlong). split; assumption.
    + rewrite due_spot. split.
      * intros [_ [Hflag _]]. discriminate.
      * intros [Heq _]. discriminate.
  - intros tick. rewrite renewals_elem, due_spot. split.
    + intros [Hlt [_ Hshort]]. split; assumption.
    + intros [Hlt Hshort]. split; [exact Hlt | split; [reflexivity | exact Hshort]].
  - intros tick. rewrite !renewals_elem, !due_full. reflexivity.
Qed.

(** ** Products *)

Lemma GetProducts_given MapNetworkPerf mapCategory cloudinfoAttributes
    a vms service regionId w :
  vms <> [] ->
  GetProducts MapNetworkPerf mapCategory cloudinfoAttributes a vms service regionId w =
  (w, if supportedService service then Ok vms else Err (invalidService service)).
Proof.
  intros Hvms. destruct vms as [| vm vms]; [congruence |].
  unfold GetProducts, supportedService, svcAck, invalidService, bind. cbn.
  destruct (String.eqb service "ack"), (String.eqb service "compute"); reflexivity.
Qed.

Lemma GetProducts_fetched MapNetworkPerf mapCategory cloudinfoAttributes
    a service regionId w :
  GetProducts MapNetworkPerf mapCategory cloudinfoAttributes a [] service regionId w =
  match GetVirtualMachines MapNetworkPerf mapCategory cloudinfoAttributes a regionId w with
  | (w1, Ok vmList) =>
      (w1, if supportedService service then Ok vmList else Err (invalidService service))
  | (w1, Err err) =>
      (mkWorld (exchanges w1)
               (logged w1 ++ [mkLogLine LevelWarn "could not get machine types for region"
                                        [("regionId", FieldString regionId)]]),
       Err (Wrap err "failed to get products"))
  | (w1, Panic) => (w1, Panic)
  end.
Proof.
  unfold GetProducts, supportedService, svcAck, invalidService. cbn [length Nat.eqb].
  unfold bind at 1. unfold bind at 1. unfold attempt.
  destruct (GetVirtualMachines _ _ _ a regionId w) as [w1 [vmList | err |]];
    [| reflexivity | reflexivity].
  cbn. destruct (String.eqb service "ack"), (String.eqb service "compute"); reflexivity.
Qed.

(** C7 (amended). For a service other than "ack" and "compute",
    [GetProducts] never returns a list. Given a list that is not empty, it
    fails at once, with no request and no log line, with the error "invalid
    service"; given an empty list, it first fetches the virtual machines,
    and fails with the error of the fetch, wrapped, when the fetch fails,
    and with "invalid service" when the fetch succeeds. For "ack" and
    "compute" it returns the list it was given when that is not empty, and
    the fetched list when the fetch succeeds. *)
Theorem GetProducts_service MapNetworkPerf mapCategory cloudinfoAttributes
    a vms service regionId w :
  let run := GetProducts MapNetworkPerf mapCategory cloudinfoAttributes
               a vms service regionId w in
  let fetch := GetVirtualMachines MapNetworkPerf mapCategory cloudinfoAttributes
                 a regionId w in
  (supportedService service = false -> forall vmList, run.2 <> Ok vmList) /\
  (supportedService service = false -> vms <> [] ->
     run = (w, Err (invalidService service))) /\
  (supportedService service = true -> vms <> [] -> run = (w, Ok vms)) /\
  (vms = [] -> forall err,
     fetch.2 = Err err ->
     run.2 = Err (Wrap err "failed to get products") /\
     exchanges run.1 = exchanges fetch.1) /\
  (vms = [] -> forall vmList,
     fetch.2 = Ok vmList ->
     run = (fetch.1,
            if supportedService service then Ok vmList else Err (invalidService service))).
Proof.
  cbv zeta. split; [| split; [| split; [| split]]].
  - intros Hsup vmList. destruct vms as [| vm vms].
    + rewrite GetProducts_fetched, Hsup.
      destruct (GetVirtualMachines _ _ _ a regionId w) as [w1 [l | err |]]; discriminate.
    + rewrite GetProducts_given, Hsup by discriminate. discriminate.
  - intros Hsup Hvms. rewrite GetProducts_given, Hsup by exact Hvms. reflexivity.
  - intros Hsup Hvms. rewrite GetProducts_given, Hsup by exact Hvms. reflexivity.
  - intros -> err. rewrite GetProducts_fetched.
    destruct (GetVirtualMachines _ _ _ a regionId w) as [w1 [l | err' |]]; cbn;
      try discriminate.
    intros Herr. inversion Herr; subst. split; reflexivity.
  - intros -> vmList. rewrite GetProducts_fetched.
    destruct (GetVirtualMachines _ _ _ a regionId w) as [w1 [l | err' |]]; cbn;
      try discriminate.
    intros Hok. inversion Hok; subst. reflexivity.
Qed.

Lemma GetProducts_service_witness :
  let run := GetProducts specMapNetworkPerf exampleCategory exampleAttributes
               hangzhou [] "ack" "cn-hangzhou" emptyWorld in
  exists vmList,
    run.2 = Ok vmList /\
    map Type_ vmList = ["ecs.g5.large"; "ecs.t1.small"] /\
    (GetProducts specMapNetworkPerf exampleCategory exampleAttributes
       hangzhou vmList "eks" "cn-hangzhou" emptyWorld)
    = (emptyWorld, Err (invalidService "eks")).
Proof.
  intros run.
  pose (fetch := GetVirtualMachines specMapNetworkPerf exampleCategory exampleAttributes
                   hangzhou "cn-hangzhou" emptyWorld).
  pose (vmList := match fetch.2 with Ok l => l | _ => [] end).
  destruct (GetProducts_service specMapNetworkPerf exampleCategory exampleAttributes
              hangzhou [] "ack" "cn-hangzhou" emptyWorld) as (_ & _ & _ & _ & Hfetched).
  destruct (GetProducts_service specMapNetworkPerf exampleCategory exampleAttributes
              hangzhou vmList "eks" "cn-hangzhou" emptyWorld) as (_ & Hgiven & _).
  exists vmList. split.
  - unfold run. rewrite (Hfetched eq_refl vmList) by (vm_compute; reflexivity). reflexivity.
  - split; [vm_compute; reflexivity |].
    apply Hgiven; [reflexivity | vm_compute; discriminate].
Defined.

(** C7, as stated, fails: asked for the service "eks" with an empty list,
    [GetProducts] first sends a request; the provider refuses it, and the
    error returned is that of the fetch, not "invalid service". *)
Lemma GetProducts_service_counterexample :
  let run := GetProducts specMapNetworkPerf exampleCategory exampleAttributes
               (scripted []) [] "eks" "cn-hangzhou" emptyWorld in
  supportedService "eks" = false /\
  map fst (exchanges run.1) = [describeInstanceTypesRequest] /\
  run.2 = Err (mkError
                 "failed to get products: DescribeInstanceTypes API call problem: connection refused"
                 []) /\
  run.2 <> Err (invalidService "eks").
Proof.
  cbv zeta. split; [reflexivity |]. split; [vm_compute; reflexivity |].
  split; [vm_compute; reflexivity |]. vm_compute. discriminate.
Qed.

(** * Further properties of the code *)

(** ** Labels and rejections *)

(** X1. [hasLabel] finds a label exactly when it is an element of the
    context. *)
Theorem hasLabel_elem ctx s : hasLabel ctx s = true <-> s ∈ ctx.
Proof.
  induction ctx as [| e ctx IH]; cbn.
  - split; [discriminate | intros H; inversion H].
  - destruct (String.eqb e s) eqn:He.
    + apply String.eqb_eq in He. subst. split; [intros _; left | reflexivity].
    + apply String.eqb_neq in He. rewrite IH, elem_of_cons. split.
      * intros H. right. exact H.
      * intros [H | H]; [congruence | exact H].
Qed.

Lemma isParameterRejection_spec err :
  isParameterRejection err = true <->
  message err = "failed to get price" /\ "InvalidParameter" ∈ context err.
Proof.
  unfold isParameterRejection. rewrite andb_true_iff, String.eqb_eq.
  split; intros [Hm Hc]; (split; [exact Hm |]).
  - clear Hm. induction (context err) as [| e ctx IH]; cbn in Hc; [discriminate |].
    destruct (String.eqb e "InvalidParameter") eqn:He.
    + apply String.eqb_eq in He. subst. left.
    + right. exact (IH Hc).
  - clear Hm. induction (context err) as [| e ctx IH]; [inversion Hc |]. cbn.
    destruct (String.eqb e "InvalidParameter") eqn:He; [reflexivity |].
    apply String.eqb_neq in He. apply elem_of_cons in Hc as [Hc | Hc]; [congruence |].
    exact (IH Hc).
Qed.

(** X2. [getPrice] fails with an error that passes the test of the retry
    (line 249) in two cases only: the provider sent a price document that is
    no success and has the code "InvalidParameter"; or the request, or
    [json.Unmarshal], failed with an error that itself reads "failed to get
    price" and carries the label "InvalidParameter". *)
Theorem getPrice_rejection a instanceTypes region w :
  let reply := client a (exchanges w) (getPayAsYouGoPriceRequest region instanceTypes) in
  (exists err,
     (getPrice a instanceTypes region w).2 = Err err /\ isParameterRejection err = true)
  <->
  (exists response,
     reply = inl (PayAsYouGoPriceDocument response) /\
     Success response = false /\ Code response = "InvalidParameter")
  \/
  (exists e,
     (reply = inr e \/ reply = inl (Malformed e)) /\
     message e = "failed to get price" /\ "InvalidParameter" ∈ context e).
Proof.
  cbv zeta. rewrite getPrice_run. cbn zeta. cbn [snd].
  destruct (client a (exchanges w) _) as [[e | zs | its | sps | response] | e]; cbn.
  - split.
    + intros (err & Herr & Hrej). inversion Herr; subst err.
      apply isParameterRejection_spec in Hrej as [Hm Hc].
      right. exists e. split; [right; reflexivity | split; assumption].
    + intros [(response & Heq & _) | (e' & [Heq | Heq] & Hm & Hc)]; try discriminate.
      inversion Heq; subst e'. exists e. split; [reflexivity |].
      apply isParameterRejection_spec. split; assumption.
  - split.
    + intros (err & Herr & Hrej). inversion Herr; subst err. discriminate.
    + intros [(response & Heq & _) | (e' & [Heq | Heq] & _)]; discriminate.
  - split.
    + intros (err & Herr & Hrej). inversion Herr; subst err. discriminate.
    + intros [(response & Heq & _) | (e' & [Heq | Heq] & _)]; discriminate.
  - split.
    + intros (err & Herr & Hrej). inversion Herr; subst err. discriminate.
    + intros [(response & Heq & _) | (e' & [Heq | Heq] & _)]; discriminate.
  - destruct (Success response) eqn:Hs; cbn.
    + split.
      * intros (err & Herr & _). discriminate.
      * intros [(r & Heq & Hs' & _) | (e' & [Heq | Heq] & _)]; try discriminate.
        inversion Heq; subst r. congruence.
    + split.
      * intros (err & Herr & Hrej). inversion Herr; subst err.
        apply isParameterRejection_spec in Hrej as [_ Hc]. cbn in Hc.
        apply list_elem_of_singleton in Hc.
        left. exists response. split; [reflexivity |]. split; [exact Hs | congruence].
      * intros [(r & Heq & _ & Hcode) | (e' & [Heq | Heq] & _)]; try discriminate.
        inversion Heq; subst r. eexists. split; [reflexivity |].
        apply isParameterRejection_spec. cbn. split; [reflexivity |].
        rewrite Hcode. left.
  - split.
    + intros (err & Herr & Hrej). inversion Herr; subst err.
      apply isParameterRejection_spec in Hrej as [Hm Hc].
      right. exists e. split; [left; reflexivity | split; assumption].
    + intros [(response & Heq & _) | (e' & [Heq | Heq] & Hm & Hc)]; try discriminate.
      inversion Heq; subst e'. exists e. split; [reflexivity |].
      apply isParameterRejection_spec. split; assumption.
Qed.

(** ** The requests of a price fetch, however it ends *)

Lemma assignPrices_world prices instanceTypes :
  forall i allPrices w, (assignPrices i prices instanceTypes allPrices w).1 = w.
Proof.
  induction prices as [| price prices IH]; intros i allPrices w; cbn; [reflexivity |].
  destruct (instanceTypes !! i); [apply IH | reflexivity].
Qed.

Lemma elem_of_zip_fst {A B} (l : list A) (k : list B) x :
  x ∈ zip l k -> x.1 ∈ l.
Proof.
  revert k. induction l as [| y l IH]; intros [| z k] Hx; cbn in Hx;
    try (inversion Hx; fail).
  apply elem_of_cons in Hx as [-> | Hx]; [left | right; exact (IH k Hx)].
Qed.

Lemma length_zip_le {A B} (l : list A) (k : list B) :
  (length (zip l k) <= length l)%nat.
Proof.
  revert k. induction l as [| y l IH]; intros [| z k]; cbn; try lia.
  specialize (IH k). lia.
Qed.

(** One batch, however it ends: the request for the batch, then requests for
    single members of the batch, no more than it has members. *)
Lemma fetchBatch_exchanges a region b allPrices w :
  exists reply extra,
    exchanges (fetchBatch a region b allPrices w).1 =
      exchanges w ++ (getPayAsYouGoPriceRequest region b, reply) :: extra /\
    (length extra <= length b)%nat /\
    (forall x, x ∈ extra -> exists t, t ∈ b /\ x.1 = singleRequest region t).
Proof.
  unfold fetchBatch. unfold bind at 1. unfold attempt. rewrite getPrice_run. cbn zeta.
  set (reply := client a (exchanges w) (getPayAsYouGoPriceRequest region b)).
  exists reply.
  destruct (priceResult reply) as [prices | err].
  - exists []. rewrite assignPrices_world. cbn.
    split; [reflexivity |]. split; [lia |]. intros x Hx. inversion Hx.
  - destruct (isParameterRejection err).
    + match goal with
      | |- context [retrySingly a region b allPrices ?w1] =>
          destruct (retrySingly a region b allPrices w1) as [w2 r] eqn:Hrun
      end.
      apply retrySingly_run in Hrun as (followups & Hex & Hlen & _).
      exists (zip (map (singleRequest region) b) followups). cbn [fst].
      rewrite Hex. cbn. rewrite <- app_assoc. split; [reflexivity |]. split.
      * etransitivity; [apply length_zip_le |]. rewrite length_map. lia.
      * intros x Hx. apply elem_of_zip_fst in Hx.
        apply list_elem_of_fmap in Hx as (t & Heq & Ht). exists t. split; assumption.
    + exists []. cbn. split; [reflexivity |]. split; [lia |]. intros x Hx. inversion Hx.
Qed.

Lemma fetchBatches_exchanges a region bs :
  Forall (fun b => (0 < length b <= 25)%nat) bs ->
  forall allPrices w,
  exists new,
    exchanges (fetchBatches a region bs allPrices w).1 = exchanges w ++ new /\
    (length new <= length bs + length (concat bs))%nat /\
    Forall (priceRequestFor region (concat bs)) new.
Proof.
  induction 1 as [| b bs Hb Hbs IH]; intros allPrices w.
  - exists []. cbn. rewrite app_nil_r. split; [reflexivity |]. split; [lia | constructor].
  - cbn [fetchBatches]. unfold bind.
    destruct (fetchBatch_exchanges a region b allPrices w)
      as (reply & extra & Hex & Hlen & Hshape).
    assert (Hhere : Forall (priceRequestFor region (concat (b :: bs)))
                           ((getPayAsYouGoPriceRequest region b, reply) :: extra)).
    { constructor.
      - exists b. split; [reflexivity |]. split; [exact Hb |].
        intros t Ht. cbn. apply elem_of_app. left. exact Ht.
      - apply Forall_forall. intros x Hx. destruct (Hshape x Hx) as (t & Ht & Heq).
        exists [t]. split; [exact Heq |]. split; [cbn; lia |].
        intros t' Ht'. apply list_elem_of_singleton in Ht'. subst t'.
        cbn. apply elem_of_app. left. exact Ht. }
    destruct (fetchBatch a region b allPrices w) as [w1 [allPrices1 | e |]]; cbn [fst] in *.
    + destruct (IH allPrices1 w1) as (new & Hnew & Hcount & Hall).
      exists (((getPayAsYouGoPriceRequest region b, reply) :: extra) ++ new).
      rewrite Hnew, Hex, <- app_assoc. split; [reflexivity |]. split.
      * cbn. rewrite !length_app. cbn. lia.
      * apply Forall_app. split; [exact Hhere |].
        eapply Forall_impl; [exact Hall |].
        intros x (its & Heq & Hl & Hin). exists its. split; [exact Heq |].
        split; [exact Hl |]. intros t Ht. cbn. apply elem_of_app. right. exact (Hin t Ht).
    + exists ((getPayAsYouGoPriceRequest region b, reply) :: extra).
      split; [exact Hex |]. split; [cbn; rewrite length_app; lia | exact Hhere].
    + exists ((getPayAsYouGoPriceRequest region b, reply) :: extra).
      split; [exact Hex |]. split; [cbn; rewrite length_app; lia | exact Hhere].
Qed.

Lemma batches_length l : length (batches l) = ((length l + 24) / 25)%nat.
Proof.
  induction l as [| l Hl IH] using batches_ind; [reflexivity |].
  rewrite batches_cons by exact Hl. cbn [length]. rewrite IH, length_drop.
  assert (0 < length l)%nat by (destruct l; [congruence | cbn; lia]).
  destruct (le_lt_dec 25 (length l)) as [Hbig | Hsmall].
  - replace (length l + 24)%nat with ((length l - 25 + 24) + 1 * 25)%nat by lia.
    rewrite Nat.div_add by lia. lia.
  - replace (length l - 25 + 24)%nat with 24%nat by lia.
    replace (length l + 24)%nat with ((length l - 1) + 1 * 25)%nat by lia.
    rewrite Nat.div_add by lia. rewrite (Nat.div_small (length l - 1)) by lia.
    reflexivity.
Qed.

Lemma getOnDemandPrice_world a vms region w :
  (getOnDemandPrice a vms region w).1 =
  (fetchBatches a region (batches (map Type_ vms)) ∅ w).1.
Proof.
  unfold getOnDemandPrice, bind. rewrite fetchPrices_batches.
  destruct (fetchBatches a region (batches (map Type_ vms)) ∅ w) as [w1 [P | e |]];
    reflexivity.
Qed.

(** X3. Whatever the provider answers and however the fetch ends, every
    request that [getOnDemandPrice] sends is a price request in the given
    region for at least one and at most 25 instance types, all taken from
    the input. *)
Theorem getOnDemandPrice_requests a vms region w :
  Forall (priceRequestFor region (map Type_ vms))
         (newExchanges w (getOnDemandPrice a vms region w).1).
Proof.
  rewrite getOnDemandPrice_world.
  destruct (fetchBatches_exchanges a region (batches (map Type_ vms))
              (batches_bounded _) ∅ w) as (new & Hnew & _ & Hall).
  rewrite (newExchanges_app _ _ _ Hnew). rewrite batches_concat in Hall. exact Hall.
Qed.

(** X4. For [n] descriptors [getOnDemandPrice] sends at most [n] requests on
    top of the ceiling of [n / 25] batch requests, however the fetch ends;
    when it returns a list, it has sent at least the batch requests. *)
Theorem getOnDemandPrice_request_count a vms region w :
  let run := getOnDemandPrice a vms region w in
  let batchRequests := ((length vms + 24) / 25)%nat in
  (length (newExchanges w run.1) <= batchRequests + length vms)%nat /\
  (forall out, run.2 = Ok out -> (batchRequests <= length (newExchanges w run.1))%nat).
Proof.
  cbv zeta. split.
  - rewrite getOnDemandPrice_world.
    destruct (fetchBatches_exchanges a region (batches (map Type_ vms))
                (batches_bounded _) ∅ w) as (new & Hnew & Hcount & _).
    rewrite (newExchanges_app _ _ _ Hnew).
    rewrite batches_length, batches_concat, length_map in Hcount. exact Hcount.
  - intros out Hout.
    destruct (getOnDemandPrice a vms region w) as [w' r] eqn:Hrun. cbn in Hout. subst r.
    apply getOnDemandPrice_ok in Hrun as (allPrices & Hfetch & _).
    apply fetchPrices_ok in Hfetch as (runs & Hbs & _ & Hex & _).
    cbn [fst]. rewrite (newExchanges_app _ _ _ Hex).
    assert (Hlen : length runs = length (batches (map Type_ vms)))
      by (rewrite <- Hbs, length_fmap; reflexivity).
    rewrite batches_length, length_map in Hlen. rewrite <- Hlen.
    clear. unfold exchangesOfRuns.
    induction runs as [| [b [reply | reply followups]] runs IH]; cbn; [lia | |];
      rewrite ?length_app; cbn; lia.
Qed.

(** ** Errors, descriptors and prices of a fetch *)

(** X5. An error that [getOnDemandPrice] returns is the error of the last
    request it sent, which was the request for one of the batches, and it is
    not a parameter rejection. *)
Theorem getOnDemandPrice_error a vms region w w' e :
  getOnDemandPrice a vms region w = (w', Err e) ->
  isParameterRejection e = false /\
  exists b reply,
    b ∈ batches (map Type_ vms) /\
    last (exchanges w') = Some (getPayAsYouGoPriceRequest region b, reply) /\
    priceResult reply = inr e.
Proof.
  unfold getOnDemandPrice, bind. rewrite fetchPrices_batches.
  destruct (fetchBatches a region (batches (map Type_ vms)) ∅ w) as [w1 [P | e1 |]] eqn:Hrun;
    intros Heq; inversion Heq; subst.
  apply fetchBatches_aborts in Hrun as (b & reply & Hb & Hlast & Hres & Hrej).
  split; [exact Hrej |]. exists b, reply. repeat split; assumption.
Qed.

Lemma getOnDemandPrice_error_witness :
  let run := getOnDemandPrice (scripted [throttled]) (map vmOfType catalogue)
               "cn-hangzhou" emptyWorld in
  exists e b reply,
    run.2 = Err e /\ isParameterRejection e = false /\
    b ∈ batches catalogue /\
    last (exchanges run.1) = Some (getPayAsYouGoPriceRequest "cn-hangzhou" b, reply) /\
    priceResult reply = inr e.
Proof.
  intros run.
  pose (e := match run.2 with Err e => e | _ => jsonError end).
  assert (Hrun : getOnDemandPrice (scripted [throttled]) (map vmOfType catalogue)
                   "cn-hangzhou" emptyWorld = (run.1, Err e))
    by (vm_compute; reflexivity).
  destruct (getOnDemandPrice_error _ _ _ _ _ _ Hrun) as (Hrej & b & reply & Hb & Hlast & Hres).
  exists e, b, reply. split; [vm_compute; reflexivity |].
  split; [exact Hrej |]. split; [exact Hb |]. split; [exact Hlast | exact Hres].
Defined.

(** X6. The list that [getOnDemandPrice] returns has one descriptor for each
    descriptor of the input, in the same order and the same but for the
    price; and two descriptors of the same instance type get the same price. *)
Theorem getOnDemandPrice_descriptors a vms region w w' out :
  getOnDemandPrice a vms region w = (w', Ok out) ->
  Forall2 sameButPrice vms out /\
  (forall vm1 vm2,
     vm1 ∈ out -> vm2 ∈ out -> Type_ vm1 = Type_ vm2 ->
     OnDemandPrice vm1 = OnDemandPrice vm2).
Proof.
  intros Hrun. apply getOnDemandPrice_ok in Hrun as (allPrices & _ & ->). split.
  - induction vms as [| vm vms IH]; cbn; constructor; [| exact IH].
    repeat split; reflexivity.
  - intros vm1 vm2 H1 H2 Htype.
    apply list_elem_of_fmap in H1 as (v1 & -> & _).
    apply list_elem_of_fmap in H2 as (v2 & -> & _).
    cbn in *. rewrite Htype. reflexivity.
Qed.

Lemma getOnDemandPrice_descriptors_witness :
  let vms := map vmOfType catalogue in
  let run := getOnDemandPrice priceList vms "cn-hangzhou" emptyWorld in
  exists out, run.2 = Ok out /\ Forall2 sameButPrice vms out.
Proof.
  intros vms run.
  pose (out := match run.2 with Ok out => out | _ => [] end).
  assert (Hrun : getOnDemandPrice priceList vms "cn-hangzhou" emptyWorld = (run.1, Ok out))
    by (vm_compute; reflexivity).
  exists out. split; [vm_compute; reflexivity |].
  exact (proj1 (getOnDemandPrice_descriptors _ _ _ _ _ _ Hrun)).
Defined.

Lemma assignPrices_lookup prices instanceTypes :
  NoDup instanceTypes ->
  forall i allPrices w,
  (i + length prices <= length instanceTypes)%nat ->
  exists allPrices',
    assignPrices i prices instanceTypes allPrices w = (w, Ok allPrices') /\
    (forall j t price,
       instanceTypes !! (i + j)%nat = Some t -> prices !! j = Some price ->
       allPrices' !! t = Some price) /\
    (forall t,
       (forall j, (j < length prices)%nat -> instanceTypes !! (i + j)%nat <> Some t) ->
       allPrices' !! t = allPrices !! t).
Proof.
  intros Hnodup. induction prices as [| price prices IH]; intros i allPrices w Hlen.
  - exists allPrices. split; [reflexivity |]. split; [| reflexivity].
    intros j t p _ Hp. destruct j; discriminate.
  - cbn [assignPrices]. cbn [length] in Hlen.
    destruct (lookup_lt_is_Some_2 instanceTypes i) as [t0 Hi]; [lia |].
    rewrite Hi.
    destruct (IH (S i) (<[t0 := price]> allPrices) w) as (allPrices' & Hrun & Hin & Hout);
      [lia |].
    exists allPrices'. split; [exact Hrun |]. split.
    + intros j t p Ht Hp. destruct j as [| j].
      * rewrite Nat.add_0_r in Ht. cbn in Hp.
        assert (t = t0) as -> by congruence. assert (p = price) as -> by congruence.
        rewrite Hout; [apply lookup_insert_eq |].
        intros k _ Hk.
        pose proof (NoDup_lookup _ _ _ _ Hnodup Hi Hk). lia.
      * apply (Hin j); [| exact Hp]. rewrite <- Ht. f_equal. lia.
    + intros t Ht. rewrite Hout.
      * apply lookup_insert_ne. intros ->. apply (Ht 0%nat); [cbn; lia |].
        rewrite Nat.add_0_r. exact Hi.
      * intros j Hj Hk. apply (Ht (S j)); [cbn; lia |]. rewrite <- Hk. f_equal. lia.
Qed.

(** X7. Prices go to instance types by position. For at most 25 descriptors
    of pairwise distinct instance types, when the provider accepts the one
    request with as many prices as there are types, [getOnDemandPrice] sends
    nothing else and returns the descriptors with, for each, the price at
    its position in the reply. *)
Theorem getOnDemandPrice_by_position a vms region w prices :
  let request := getPayAsYouGoPriceRequest region (map Type_ vms) in
  let reply := client a (exchanges w) request in
  vms <> [] ->
  (length vms <= 25)%nat ->
  NoDup (map Type_ vms) ->
  priceResult reply = inl prices ->
  length prices = length vms ->
  getOnDemandPrice a vms region w =
    (mkWorld (exchanges w ++ [(request, reply)]) (logged w),
     Ok (zip_with setPrice vms prices)).
Proof.
  cbv zeta. intros Hne Hsmall Hnodup Hreply Hlen.
  unfold getOnDemandPrice, bind. rewrite fetchPrices_batches.
  rewrite batches_cons by (destruct vms; [congruence | discriminate]).
  rewrite take_ge, drop_ge by (rewrite length_map; lia).
  rewrite batches_nil. cbn [fetchBatches]. unfold bind. unfold fetchBatch.
  unfold bind, attempt. rewrite getPrice_run. cbn zeta. rewrite Hreply.
  match goal with
  | |- context [assignPrices 0 prices (map Type_ vms) ∅ ?w1] =>
      destruct (assignPrices_lookup prices (map Type_ vms) Hnodup 0 ∅ w1)
        as (allPrices & -> & Hin & _); [rewrite length_map; cbn; lia |]
  end.
  unfold ret. f_equal. f_equal.
  apply list_eq. intros i. rewrite list_lookup_fmap, lookup_zip_with.
  destruct (vms !! i) as [vm |] eqn:Hvm; cbn; [| reflexivity].
  destruct (lookup_lt_is_Some_2 prices i) as [price Hp].
  { apply lookup_lt_Some in Hvm. lia. }
  rewrite Hp. cbn. f_equal. unfold withPrice, setPrice, priceOf.
  rewrite (Hin i (Type_ vm) price); [reflexivity | | exact Hp].
  cbn. rewrite list_lookup_fmap, Hvm. reflexivity.
Qed.

Lemma getOnDemandPrice_by_position_witness :
  getOnDemandPrice (scripted [successWith [0.5%float; 0.25%float]])
    [vmOfType "ecs.g5.large"; vmOfType "ecs.c5.large"] "cn-hangzhou" emptyWorld =
  (mkWorld [(getPayAsYouGoPriceRequest "cn-hangzhou" ["ecs.g5.large"; "ecs.c5.large"],
             successWith [0.5%float; 0.25%float])] [],
   Ok [setPrice (vmOfType "ecs.g5.large") 0.5%float;
       setPrice (vmOfType "ecs.c5.large") 0.25%float]).
Proof.
  apply (getOnDemandPrice_by_position (scripted [successWith [0.5%float; 0.25%float]])
           [vmOfType "ecs.g5.large"; vmOfType "ecs.c5.large"] "cn-hangzhou" emptyWorld
           [0.5%float; 0.25%float]).
  - discriminate.
  - cbn; lia.
  - apply (bool_decide_unpack _); vm_compute; reflexivity.
  - reflexivity.
  - reflexivity.
Defined.

Lemma fetchBatches_pricesAll a region :
  pricesAll a region ->
  forall bs allPrices w,
  exists w' allPrices',
    fetchBatches a region bs allPrices w = (w', Ok allPrices') /\
    logged w' = logged w /\
    length (exchanges w') = (length (exchanges w) + length bs)%nat /\
    dom allPrices' = dom allPrices ∪ list_to_set (concat bs).
Proof.
  intros Hprovider. induction bs as [| b bs IH]; intros allPrices w.
  - exists w, allPrices. cbn. rewrite union_empty_r_L. repeat split; lia || reflexivity.
  - cbn [fetchBatches]. unfold bind at 1. unfold fetchBatch. unfold bind at 1.
    unfold attempt. rewrite getPrice_run. cbn zeta.
    destruct (Hprovider (exchanges w) b) as (prices & -> & Hlen).
    match goal with
    | |- context [assignPrices 0 prices b allPrices ?w1] =>
        destruct (assignPrices_completes prices b 0 allPrices w1) as [allPrices1 Hassign];
          [lia |];
        destruct (IH allPrices1 w1) as (w' & allPrices' & Hrun & Hlog & Hex & Hdom)
    end.
    rewrite Hassign.
    apply assignPrices_ok in Hassign as (_ & _ & Hdom1); [| lia].
    exists w', allPrices'. split; [exact Hrun |]. split; [exact Hlog |]. split.
    + rewrite Hex. cbn. rewrite length_app. cbn. lia.
    + rewrite Hdom, Hdom1, Hlen, drop_0, take_ge by lia. cbn.
      rewrite list_to_set_app_L, union_assoc_L. reflexivity.
Qed.

(** X8. With a provider that accepts every price request with one price per
    instance type, [getOnDemandPrice] returns a list, sends the batch
    requests and no other, logs nothing, and has a price from the provider
    for every instance type of the input. *)
Theorem getOnDemandPrice_all_priced a vms region w :
  pricesAll a region ->
  exists w' allPrices,
    fetchPrices a vms region w = (w', Ok allPrices) /\
    getOnDemandPrice a vms region w = (w', Ok (map (withPrice allPrices) vms)) /\
    logged w' = logged w /\
    length (newExchanges w w') = ((length vms + 24) / 25)%nat /\
    (forall vm, vm ∈ vms -> is_Some (allPrices !! Type_ vm)).
Proof.
  intros Hprovider.
  destruct (fetchBatches_pricesAll a region Hprovider (batches (map Type_ vms)) ∅ w)
    as (w' & allPrices & Hrun & Hlog & Hex & Hdom).
  exists w', allPrices. rewrite <- fetchPrices_batches in Hrun.
  split; [exact Hrun |]. split.
  { unfold getOnDemandPrice, bind. rewrite Hrun. reflexivity. }
  split; [exact Hlog |]. split.
  - unfold newExchanges. rewrite length_drop, Hex, batches_length, length_map. lia.
  - intros vm Hvm. apply elem_of_dom. rewrite Hdom, batches_concat.
    apply elem_of_union. right. apply elem_of_list_to_set.
    apply list_elem_of_fmap. exists vm. split; [reflexivity | exact Hvm].
Qed.

Lemma hangzhou_pricesAll : pricesAll hangzhou "cn-hangzhou".
Proof.
  intros history instanceTypes. eexists. split; [reflexivity |]. apply length_map.
Qed.

Lemma getOnDemandPrice_all_priced_witness :
  let vms := map vmOfType catalogue in
  exists w' (allPrices : gmap string float64),
    getOnDemandPrice hangzhou vms "cn-hangzhou" emptyWorld
      = (w', Ok (map (withPrice allPrices) vms)) /\
    logged w' = [] /\
    length (newExchanges emptyWorld w') = 2%nat /\
    (forall vm, vm ∈ vms -> is_Some (allPrices !! Type_ vm)).
Proof.
  intros vms.
  destruct (getOnDemandPrice_all_priced hangzhou vms "cn-hangzhou" emptyWorld
              hangzhou_pricesAll) as (w' & allPrices & _ & Hrun & Hlog & Hcount & Hall).
  exists w', allPrices. split; [exact Hrun |]. split; [exact Hlog |].
  split; [exact Hcount | exact Hall].
Defined.

Lemma getOnDemandPrice_request_count_witness :
  let run := getOnDemandPrice priceList (map vmOfType catalogue) "cn-hangzhou" emptyWorld in
  (2 <= length (newExchanges emptyWorld run.1) <= 2 + 27)%nat.
Proof.
  intros run.
  destruct (getOnDemandPrice_request_count priceList (map vmOfType catalogue)
              "cn-hangzhou" emptyWorld) as [Hupper Hlower].
  pose (out := match run.2 with Ok out => out | _ => [] end).
  split.
  - apply (Hlower out). vm_compute. reflexivity.
  - exact Hupper.
Defined.

(** ** The zones and the order of the descriptors *)

Lemma zonesOfResources_replicate zoneId resourcesInfo instanceTypeId :
  forall zones,
  zonesOfResources zoneId resourcesInfo instanceTypeId zones =
  zones ++
  replicate
    (length (filter (fun supported => supports supported instanceTypeId = true) resourcesInfo))
    zoneId.
Proof.
  induction resourcesInfo as [| supported rest IH]; intros zones; cbn [zonesOfResources].
  - cbn. rewrite app_nil_r. reflexivity.
  - rewrite IH. destruct (supports supported instanceTypeId) eqn:Hs.
    + rewrite filter_cons_True by exact Hs. cbn. rewrite <- app_assoc. reflexivity.
    + rewrite filter_cons_False by (rewrite Hs; discriminate). reflexivity.
Qed.

Lemma zonesOf_replicate availableZones instanceTypeId :
  forall zones,
  zonesOf availableZones instanceTypeId zones =
  zones ++
  concat (map (fun zone => replicate (offers zone instanceTypeId) (ZoneId zone))
              availableZones).
Proof.
  induction availableZones as [| zone rest IH]; intros zones; cbn.
  - rewrite app_nil_r. reflexivity.
  - rewrite IH, zonesOfResources_replicate, <- app_assoc. reflexivity.
Qed.

(** X9. In every descriptor that [GetVirtualMachines] returns, the zones are
    the ids of the region's zones in the provider's order, each as many
    times as the zone has resource entries that support the instance type:
    a zone with two such entries is listed twice. *)
Theorem GetVirtualMachines_zone_listing MapNetworkPerf mapCategory cloudinfoAttributes
    a region w w' vms :
  GetVirtualMachines MapNetworkPerf mapCategory cloudinfoAttributes a region w
    = (w', Ok vms) ->
  exists availableZones,
    zonesResult (zonesReply a region w) = Ok availableZones /\
    forall vm, vm ∈ vms ->
      Zones vm =
      concat (map (fun zone => replicate (offers zone (Type_ vm)) (ZoneId zone))
                  availableZones).
Proof.
  intros Hrun.
  apply GetVirtualMachines_ok in Hrun
    as (instanceTypes & availableZones & allPrices & lines & _ & Hzs & -> & _).
  exists availableZones. split; [exact Hzs |].
  intros vm Hvm.
  apply list_elem_of_fmap in Hvm as (vm0 & -> & Hvm).
  apply list_elem_of_fmap in Hvm as (instanceType & -> & _).
  cbn. apply (zonesOf_replicate availableZones (InstanceTypeId instanceType) []).
Qed.

Lemma described_offered MapNetworkPerf mapCategory cloudinfoAttributes
    availableZones allPrices instanceTypes :
  Forall2 (describes mapCategory MapNetworkPerf)
    (filter (fun instanceType =>
               zonesOf availableZones (InstanceTypeId instanceType) [] <> [])
            instanceTypes)
    (map (withPrice allPrices)
         (map (fun instanceType =>
                 vmInfoOf MapNetworkPerf mapCategory cloudinfoAttributes instanceType
                          (zonesOf availableZones (InstanceTypeId instanceType) []))
              (offered availableZones instanceTypes))).
Proof.
  unfold offered.
  induction instanceTypes as [| instanceType rest IH]; [constructor |].
  destruct (hasZones availableZones instanceType) eqn:Hhas.
  - rewrite (filter_cons_True (fun instanceType => hasZones availableZones instanceType = true))
      by exact Hhas.
    rewrite filter_cons_True by (apply hasZones_true; exact Hhas).
    cbn. constructor; [repeat split; reflexivity | exact IH].
  - rewrite (filter_cons_False (fun instanceType => hasZones availableZones instanceType = true))
      by (rewrite Hhas; discriminate).
    rewrite filter_cons_False; [exact IH |].
    intros Hne. apply hasZones_true in Hne. congruence.
Qed.

(** X10. The descriptors that [GetVirtualMachines] returns are those of the
    instance types of the catalogue that have a zone, one for each entry of
    the catalogue and in its order; the type, the CPU, memory and GPU
    figures and the network performance of a descriptor are those of its
    catalogue entry, and its categories are what the two mappers returned. *)
Theorem GetVirtualMachines_catalogue_order MapNetworkPerf mapCategory cloudinfoAttributes
    a region w w' vms :
  GetVirtualMachines MapNetworkPerf mapCategory cloudinfoAttributes a region w
    = (w', Ok vms) ->
  exists instanceTypes availableZones,
    instanceTypesResult (catalogueReply a w) = Ok instanceTypes /\
    zonesResult (zonesReply a region w) = Ok availableZones /\
    Forall2 (describes mapCategory MapNetworkPerf)
            (filter (fun instanceType =>
                       zonesOf availableZones (InstanceTypeId instanceType) [] <> [])
                    instanceTypes)
            vms.
Proof.
  intros Hrun.
  apply GetVirtualMachines_ok in Hrun
    as (instanceTypes & availableZones & allPrices & lines & Hits & Hzs & -> & _).
  exists instanceTypes, availableZones. split; [exact Hits |]. split; [exact Hzs |].
  apply described_offered.
Qed.

Lemma GetVirtualMachines_catalogue_order_witness :
  let run := GetVirtualMachines specMapNetworkPerf exampleCategory exampleAttributes
               hangzhou "cn-hangzhou" emptyWorld in
  exists vms,
    run.2 = Ok vms /\
    Forall2 (describes exampleCategory specMapNetworkPerf)
            (filter (fun instanceType =>
                       zonesOf hangzhouZones (InstanceTypeId instanceType) [] <> [])
                    hangzhouTypes)
            vms.
Proof.
  intros run.
  pose (vms := match run.2 with Ok vms => vms | _ => [] end).
  assert (Hrun : GetVirtualMachines specMapNetworkPerf exampleCategory exampleAttributes
                   hangzhou "cn-hangzhou" emptyWorld = (run.1, Ok vms))
    by (vm_compute; reflexivity).
  destruct (GetVirtualMachines_catalogue_order _ _ _ _ _ _ _ _ Hrun)
    as (instanceTypes & availableZones & Hits & Hzs & Hall).
  assert (instanceTypes = hangzhouTypes) as <-
    by (vm_compute in Hits; injection Hits as <-; reflexivity).
  assert (availableZones = hangzhouZones) as <-
    by (vm_compute in Hzs; injection Hzs as <-; reflexivity).
  exists vms. split; [vm_compute; reflexivity | exact Hall].
Defined.

Lemma GetVirtualMachines_zone_listing_witness :
  let run := GetVirtualMachines specMapNetworkPerf exampleCategory exampleAttributes
               doubled "cn-hangzhou" emptyWorld in
  exists vm,
    run.2 = Ok [vm] /\ Zones vm = ["cn-hangzhou-b"; "cn-hangzhou-b"].
Proof.
  intros run.
  pose (vms := match run.2 with Ok vms => vms | _ => [] end).
  assert (Hrun : GetVirtualMachines specMapNetworkPerf exampleCategory exampleAttributes
                   doubled "cn-hangzhou" emptyWorld = (run.1, Ok vms))
    by (vm_compute; reflexivity).
  destruct (GetVirtualMachines_zone_listing _ _ _ _ _ _ _ _ Hrun)
    as (availableZones & Hzs & Hall).
  assert (Hzones : availableZones =
                   [mkZone "cn-hangzhou-b" ["ecs.g5.large"]
                           [["ecs.g5.large"]; ["ecs.c5.large"]; ["ecs.g5.large"]]])
    by (vm_compute in Hzs; injection Hzs as <-; reflexivity).
  subst availableZones.
  pose (vm := match vms with vm :: _ => vm | [] => vmOfType "" end).
  exists vm. split; [vm_compute; reflexivity |].
  rewrite (Hall vm); [vm_compute; reflexivity |].
  vm_compute. left.
Defined.

(** ** The failures of [GetVirtualMachines] *)

Lemma GetVirtualMachines_run MapNetworkPerf mapCategory cloudinfoAttributes a region w :
  GetVirtualMachines MapNetworkPerf mapCategory cloudinfoAttributes a region w =
  let w1 :=
    mkWorld (exchanges w ++ [(describeInstanceTypesRequest, catalogueReply a w)])
            (logged w ++ [mkLogLine LevelDebug "getting product info"
                                    [("region", FieldString region)]]) in
  match instanceTypesResult (catalogueReply a w) with
  | Ok instanceTypes =>
      let w2 :=
        mkWorld (exchanges w1 ++ [(describeZonesRequest region, zonesReply a region w)])
                (logged w1) in
      match zonesResult (zonesReply a region w) with
      | Ok availableZones =>
          let w3 :=
            mkWorld (exchanges w2)
                    (logged w2 ++
                     concat (map (mappingLines MapNetworkPerf mapCategory region)
                                 (offered availableZones instanceTypes))) in
          let vms :=
            map (fun instanceType =>
                   vmInfoOf MapNetworkPerf mapCategory cloudinfoAttributes instanceType
                            (zonesOf availableZones (InstanceTypeId instanceType) []))
                (offered availableZones instanceTypes) in
          match getOnDemandPrice a vms region w3 with
          | (w4, Ok out) =>
              (mkWorld (exchanges w4)
                       (logged w4 ++
                        [mkLogLine LevelDebug "found vms"
                                   [("region", FieldString region);
                                    ("numberOfVms", FieldInt (Z.of_nat (length out)))]]),
               Ok out)
          | (w4, Err e) => (w4, Err e)
          | (w4, Panic) => (w4, Panic)
          end
      | Err e => (w2, Err e)
      | Panic => (w2, Panic)
      end
  | Err e => (w1, Err e)
  | Panic => (w1, Panic)
  end.
Proof.
  unfold GetVirtualMachines, catalogueReply, zonesReply.
  unfold bind at 1. unfold writeLog at 1. cbn beta iota.
  unfold bind at 1. rewrite getInstanceTypes_run. cbn zeta. cbn [exchanges logged].
  destruct (instanceTypesResult (client a (exchanges w) describeInstanceTypesRequest))
    as [instanceTypes | e |]; [| reflexivity | reflexivity].
  unfold bind at 1. rewrite getZones_run. cbn zeta. cbn [exchanges logged].
  destruct (zonesResult _) as [availableZones | e |]; [| reflexivity | reflexivity].
  unfold bind at 1. rewrite describeVMs_run. cbn [exchanges logged app].
  unfold bind at 1.
  destruct (getOnDemandPrice a _ region _) as [w4 [out | e |]]; reflexivity.
Qed.

(** X11. [GetVirtualMachines] returns an error in three cases only: the
    catalogue could not be fetched or decoded, and then it has sent that one
    request; the zones could not be fetched or decoded, and then it has sent
    those two; or a price request, the last one sent, failed with an error
    that is not a parameter rejection. A mapper's error is never among
    them. *)
Theorem GetVirtualMachines_failure MapNetworkPerf mapCategory cloudinfoAttributes
    a region w w' e :
  GetVirtualMachines MapNetworkPerf mapCategory cloudinfoAttributes a region w
    = (w', Err e) ->
  (instanceTypesResult (catalogueReply a w) = Err e /\
   newExchanges w w' = [(describeInstanceTypesRequest, catalogueReply a w)]) \/
  (zonesResult (zonesReply a region w) = Err e /\
   newExchanges w w' = [(describeInstanceTypesRequest, catalogueReply a w);
                        (describeZonesRequest region, zonesReply a region w)]) \/
  (isParameterRejection e = false /\
   exists instanceTypes reply,
     last (exchanges w') = Some (getPayAsYouGoPriceRequest region instanceTypes, reply) /\
     priceResult reply = inr e).
Proof.
  rewrite GetVirtualMachines_run. cbv zeta.
  destruct (instanceTypesResult (catalogueReply a w)) as [instanceTypes | e1 |].
  - destruct (zonesResult (zonesReply a region w)) as [availableZones | e2 |].
    + destruct (getOnDemandPrice a _ region _) as [w4 [out | e3 |]] eqn:Hfetch;
        intros Heq; inversion Heq; subst.
      right. right.
      unfold getOnDemandPrice, bind in Hfetch. rewrite fetchPrices_batches in Hfetch.
      destruct (fetchBatches a region _ ∅ _) as [w5 [P | e5 |]] eqn:Hrun;
        inversion Hfetch; subst.
      apply fetchBatches_aborts in Hrun as (b & reply & _ & Hlast & Hres & Hrej).
      split; [exact Hrej |]. exists b, reply. split; assumption.
    + intros Heq. inversion Heq; subst. right. left. split; [reflexivity |].
      apply newExchanges_app. cbn. rewrite <- app_assoc. reflexivity.
    + discriminate.
  - intros Heq. inversion Heq; subst. left. split; [reflexivity |].
    apply newExchanges_app. reflexivity.
  - discriminate.
Qed.

Lemma GetVirtualMachines_failure_witness :
  let a := scripted [inl (InstanceTypesDocument hangzhouTypes);
                     inl (Malformed (errors_New "unexpected end of JSON input"))] in
  let run := GetVirtualMachines specMapNetworkPerf exampleCategory exampleAttributes
               a "cn-hangzhou" emptyWorld in
  run.2 = Err (errors_New "unexpected end of JSON input") /\
  length (newExchanges emptyWorld run.1) = 2%nat.
Proof.
  intros a run.
  assert (Hrun : GetVirtualMachines specMapNetworkPerf exampleCategory exampleAttributes
                   a "cn-hangzhou" emptyWorld
                 = (run.1, Err (errors_New "unexpected end of JSON input")))
    by (vm_compute; reflexivity).
  split; [vm_compute; reflexivity |].
  destruct (GetVirtualMachines_failure _ _ _ _ _ _ _ _ Hrun)
    as [[Hits _] | [[_ Hnew] | [_ (b & reply & Hlast & _)]]].
  - vm_compute in Hits. discriminate.
  - rewrite Hnew. reflexivity.
  - vm_compute in Hlast. discriminate.
Defined.

(** ** The zones of a region *)

Lemma foldl_snoc_map {A B} (f : A -> B) (l : list A) (acc : list B) :
  foldl (fun acc x => acc ++ [f x]) acc l = acc ++ map f l.
Proof.
  revert acc. induction l as [| x l IH]; intros acc; cbn.
  - rewrite app_nil_r. reflexivity.
  - rewrite IH, <- app_assoc. reflexivity.
Qed.

Lemma GetZones_run a region w :
  GetZones a region w =
  let reply := client a (exchanges w) (describeZonesRequest region) in
  let w1 :=
    mkWorld (exchanges w ++ [(describeZonesRequest region, reply)])
            (logged w ++ [mkLogLine LevelDebug "getting zones"
                                    [("region", FieldString region)]]) in
  match zonesResult reply with
  | Ok availableZones =>
      (mkWorld (exchanges w1)
               (logged w1 ++
                [mkLogLine LevelDebug "found zones"
                           [("region", FieldString region);
                            ("numberOfZones",
                             FieldInt (Z.of_nat (length availableZones)))]]),
       Ok (map ZoneId availableZones))
  | Err e => (w1, Err e)
  | Panic => (w1, Panic)
  end.
Proof.
  unfold GetZones.
  unfold bind at 1. unfold writeLog at 1. cbn beta iota.
  unfold bind at 1. rewrite getZones_run. cbn zeta. cbn [exchanges logged].
  destruct (zonesResult (client a (exchanges w) (describeZonesRequest region)))
    as [availableZones | e |]; [| reflexivity | reflexivity].
  unfold bind, writeLog, ret. cbn [fst snd exchanges logged].
  rewrite foldl_snoc_map. cbn [app]. rewrite length_map. reflexivity.
Qed.

(** X12. [GetZones] sends one request, the one for the zones of the region,
    whatever the reply. When the reply decodes, it returns the ids of the
    zones, one for each zone and in the provider's order, and logs their
    number; otherwise it returns the error of [getZones] and logs only its
    first line. *)
Theorem GetZones_ids a region w :
  let reply := client a (exchanges w) (describeZonesRequest region) in
  let run := GetZones a region w in
  newExchanges w run.1 = [(describeZonesRequest region, reply)] /\
  match zonesResult reply with
  | Ok availableZones =>
      run.2 = Ok (map ZoneId availableZones) /\
      newLines w run.1 =
        [mkLogLine LevelDebug "getting zones" [("region", FieldString region)];
         mkLogLine LevelDebug "found zones"
                   [("region", FieldString region);
                    ("numberOfZones", FieldInt (Z.of_nat (length availableZones)))]]
  | Err e =>
      run.2 = Err e /\
      newLines w run.1 =
        [mkLogLine LevelDebug "getting zones" [("region", FieldString region)]]
  | Panic => False
  end.
Proof.
  cbv zeta. rewrite GetZones_run. cbv zeta.
  destruct (zonesResult (client a (exchanges w) (describeZonesRequest region)))
    as [availableZones | e |] eqn:Hres.
  - split; [apply newExchanges_app; reflexivity |].
    split; [reflexivity |].
    apply newLines_app. cbn. rewrite <- app_assoc. reflexivity.
  - split; [apply newExchanges_app; reflexivity |].
    split; [reflexivity | apply newLines_app; reflexivity].
  - exfalso. revert Hres. unfold zonesResult.
    destruct (client a (exchanges w) (describeZonesRequest region)) as [[] |]; discriminate.
Qed.

(** ** The entries of the spot price map *)

Lemma find_first {A} (f : A -> bool) (l : list A) x :
  find f l = Some x ->
  exists before after,
    l = before ++ x :: after /\ f x = true /\ forall y, y ∈ before -> f y = false.
Proof.
  induction l as [| y l IH]; cbn; [discriminate |].
  destruct (f y) eqn:Hy.
  - intros [= <-]. exists [], l. split; [reflexivity |]. split; [exact Hy |].
    intros z Hz. inversion Hz.
  - intros Hfind. destruct (IH Hfind) as (before & after & -> & Hx & Hbefore).
    exists (y :: before), after. split; [reflexivity |]. split; [exact Hx |].
    intros z Hz. apply elem_of_cons in Hz as [-> | Hz]; [exact Hy | exact (Hbefore z Hz)].
Qed.

Lemma find_nowhere {A} (f : A -> bool) (l : list A) :
  find f l = None -> forall y, y ∈ l -> f y = false.
Proof.
  intros Hfind y Hy. apply list_elem_of_In in Hy. exact (find_none f l Hfind y Hy).
Qed.

Lemma spotPriceOf_Some zoneId priceTypes sp :
  spotPriceOf zoneId priceTypes = Some sp ->
  exists first rest,
    priceTypes = first :: rest /\
    SpotZoneId first <> zoneId /\
    ((sp = ∅ /\ forall priceType, priceType ∈ rest -> SpotZoneId priceType <> zoneId) \/
     (exists before priceType after,
        rest = before ++ priceType :: after /\
        (forall earlier, earlier ∈ before -> SpotZoneId earlier <> zoneId) /\
        SpotZoneId priceType = zoneId /\
        sp = {[ zoneId := SpotPrice priceType ]})).
Proof.
  destruct priceTypes as [| first rest]; cbn; [discriminate |].
  destruct (String.eqb zoneId (SpotZoneId first)) eqn:Hfirst; [discriminate |].
  intros [= <-]. exists first, rest. split; [reflexivity |].
  apply String.eqb_neq in Hfirst. split; [congruence |].
  destruct (find _ rest) as [priceType |] eqn:Hfind.
  - right. apply find_first in Hfind as (before & after & -> & Hhit & Hbefore).
    exists before, priceType, after. split; [reflexivity |].
    split.
    + intros earlier Hin Heq. specialize (Hbefore earlier Hin). cbn in Hbefore.
      apply String.eqb_neq in Hbefore. congruence.
    + apply String.eqb_eq in Hhit. split; [congruence | reflexivity].
  - left. split; [reflexivity |]. intros priceType Hin Heq.
    pose proof (find_nowhere _ _ Hfind priceType Hin) as Hmiss. cbn in Hmiss.
    apply String.eqb_neq in Hmiss. congruence.
Qed.

(** X13. Every entry of the map that [getCurrentSpotPrices] returns belongs to
    an instance type that a zone of the region lists, and comes from a price
    history received for that type whose first entry is of another zone: the
    entry is the empty map when no later entry of the history is of the zone,
    and otherwise it holds one price, under the zone, that of the first
    later entry of the zone. *)
Theorem getCurrentSpotPrices_entries a region w w' spotPrices :
  getCurrentSpotPrices a region w = (w', Ok spotPrices) ->
  exists zones,
    zonesResult (client a (exchanges w) (describeZonesRequest region)) = Ok zones /\
    forall instanceType sp,
      spotPrices !! instanceType = Some sp ->
      exists zone first rest,
        zone ∈ zones /\
        instanceType ∈ AvailableInstanceTypes zone /\
        (describeSpotPriceHistoryRequest region instanceType,
         inl (SpotPriceHistoryDocument (first :: rest))) ∈ newExchanges w w' /\
        SpotZoneId first <> ZoneId zone /\
        ((sp = ∅ /\
          forall priceType, priceType ∈ rest -> SpotZoneId priceType <> ZoneId zone) \/
         (exists before priceType after,
            rest = before ++ priceType :: after /\
            (forall earlier, earlier ∈ before -> SpotZoneId earlier <> ZoneId zone) /\
            SpotZoneId priceType = ZoneId zone /\
            sp = {[ ZoneId zone := SpotPrice priceType ]})).
Proof.
  intros Hrun.
  apply getCurrentSpotPrices_entriesFrom in Hrun as (zones & Hzones & Hfrom).
  exists zones. split; [exact Hzones |].
  intros instanceType sp Hlook.
  destruct (Hfrom instanceType sp Hlook)
    as (zone & priceTypes & Hzone & Hlisted & Hsent & Hsp).
  apply spotPriceOf_Some in Hsp as (first & rest & -> & Hfirst & Hshape).
  exists zone, first, rest. repeat split; assumption.
Qed.

Lemma getCurrentSpotPrices_entries_witness :
  let run := getCurrentSpotPrices hangzhou "cn-hangzhou" emptyWorld in
  exists spotPrices,
    run.2 = Ok spotPrices /\
    forall instanceType sp,
      spotPrices !! instanceType = Some sp ->
      exists zone, zone ∈ hangzhouZones /\ instanceType ∈ AvailableInstanceTypes zone.
Proof.
  intros run.
  pose (spotPrices := match run.2 with Ok m => m | _ => ∅ end).
  assert (Hrun : getCurrentSpotPrices hangzhou "cn-hangzhou" emptyWorld
                 = (run.1, Ok spotPrices))
    by (vm_compute; reflexivity).
  exists spotPrices. split; [vm_compute; reflexivity |].
  destruct (getCurrentSpotPrices_entries _ _ _ _ _ Hrun) as (zones & Hzones & Hall).
  assert (zones = hangzhouZones) as ->
    by (vm_compute in Hzones; injection Hzones as <-; reflexivity).
  intros instanceType sp Hlook.
  destruct (Hall instanceType sp Hlook) as (zone & _ & _ & Hzone & Hlisted & _).
  exists zone. split; assumption.
Defined.

(** X14. In a region of a single zone, an instance type whose price history
    begins with the entry of that zone gets no entry at all: when every
    history received begins so, [getCurrentSpotPrices] returns the empty
    map. *)
Theorem getCurrentSpotPrices_first_entry_lost a region w w' spotPrices zone :
  getCurrentSpotPrices a region w = (w', Ok spotPrices) ->
  zonesResult (client a (exchanges w) (describeZonesRequest region)) = Ok [zone] ->
  (forall instanceType first rest,
     (describeSpotPriceHistoryRequest region instanceType,
      inl (SpotPriceHistoryDocument (first :: rest))) ∈ newExchanges w w' ->
     SpotZoneId first = ZoneId zone) ->
  spotPrices = ∅.
Proof.
  intros Hrun Hzone Hfirst.
  apply getCurrentSpotPrices_entriesFrom in Hrun as (zones & Hzones & Hfrom).
  rewrite Hzone in Hzones. injection Hzones as <-.
  apply map_empty. intros instanceType.
  destruct (spotPrices !! instanceType) as [sp |] eqn:Hlook; [exfalso | reflexivity].
  destruct (Hfrom instanceType sp Hlook)
    as (zone' & priceTypes & Hin & _ & Hsent & Hsp).
  apply list_elem_of_singleton in Hin. subst zone'.
  apply spotPriceOf_Some in Hsp as (first & rest & -> & Hne & _).
  apply Hne. exact (Hfirst instanceType first rest Hsent).
Qed.

Lemma getCurrentSpotPrices_first_entry_lost_witness :
  (getCurrentSpotPrices singleZone "cn-hangzhou" emptyWorld).2 = Ok ∅.
Proof.
  pose (run := getCurrentSpotPrices singleZone "cn-hangzhou" emptyWorld).
  pose (spotPrices := match run.2 with Ok m => m | _ => ∅ end).
  assert (Hrun : getCurrentSpotPrices singleZone "cn-hangzhou" emptyWorld
                 = (run.1, Ok spotPrices))
    by (vm_compute; reflexivity).
  rewrite Hrun. cbn [snd]. apply (f_equal Ok).
  apply (getCurrentSpotPrices_first_entry_lost singleZone "cn-hangzhou" emptyWorld run.1
           spotPrices (mkZone "cn-hangzhou-b" ["ecs.g5.large"; "ecs.t1.small"] []) Hrun).
  - vm_compute. reflexivity.
  - intros instanceType first rest Hin. vm_compute in Hin.
    repeat (apply elem_of_cons in Hin as [Hin | Hin]; [inversion Hin; reflexivity |]).
    inversion Hin.
Defined.

(** ** The requests of a spot price fetch *)

Lemma spotRequestFor_more region (l1 l2 : list string) x :
  (forall instanceType, instanceType ∈ l1 -> instanceType ∈ l2) ->
  spotRequestFor region l1 x -> spotRequestFor region l2 x.
Proof. intros Hsub (T & HT & Hx). exists T. split; [apply Hsub; exact HT | exact Hx]. Qed.

Lemma spotPricesOfZone_requests a region zoneId instanceTypes :
  forall st w,
  exists new,
    exchanges (spotPricesOfZone a region zoneId instanceTypes st w).1 = exchanges w ++ new /\
    Forall (spotRequestFor region instanceTypes) new /\
    (length new <= length instanceTypes)%nat.
Proof.
  induction instanceTypes as [| instanceType rest IH]; intros st w.
  - exists []. cbn. rewrite app_nil_r. repeat split; [constructor | lia].
  - assert (Hmore : forall new,
              Forall (spotRequestFor region rest) new ->
              Forall (spotRequestFor region (instanceType :: rest)) new).
    { intros new Hall. apply (Forall_impl _ _ _ Hall). intros x.
      apply spotRequestFor_more. intros T HT. right. exact HT. }
    assert (Hhere : forall reply,
              spotRequestFor region (instanceType :: rest)
                (describeSpotPriceHistoryRequest region instanceType, reply)).
    { intros reply. exists instanceType. split; [left | reflexivity]. }
    cbn [spotPricesOfZone].
    destruct (priceInfo st !! instanceType) as [spotPrice |].
    { destruct (IH st w) as (new & Hnew & Hall & Hlen).
      exists new. split; [exact Hnew |]. split; [apply Hmore; exact Hall | cbn; lia]. }
    unfold bind at 1. unfold attempt, ProcessCommonRequest. cbn zeta.
    set (request := describeSpotPriceHistoryRequest region instanceType).
    destruct (client a (exchanges w) request) as [content | err].
    + unfold bind at 1. rewrite UnmarshalSpotPriceHistory_run.
      destruct (spotPriceHistoryResult content) as [priceTypes | e |].
      * match goal with
        | |- context [spotPricesOfZone a region zoneId rest ?st1 ?w1] =>
            destruct (IH st1 w1) as (new & Hnew & Hall & Hlen)
        end.
        exists ((request, inl content) :: new).
        split; [rewrite Hnew; cbn; rewrite <- app_assoc; reflexivity |].
        split; [constructor; [apply Hhere | apply Hmore; exact Hall] | cbn; lia].
      * exists [(request, inl content)]. cbn.
        split; [reflexivity |]. split; [repeat constructor; apply Hhere | lia].
      * exists [(request, inl content)]. cbn.
        split; [reflexivity |]. split; [repeat constructor; apply Hhere | lia].
    + unfold bind at 1. unfold writeLog. cbn [fst snd].
      match goal with
      | |- context [spotPricesOfZone a region zoneId rest ?st1 ?w1] =>
          destruct (IH st1 w1) as (new & Hnew & Hall & Hlen)
      end.
      exists ((request, inr err) :: new).
      split; [rewrite Hnew; cbn; rewrite <- app_assoc; reflexivity |].
      split; [constructor; [apply Hhere | apply Hmore; exact Hall] | cbn; lia].
Qed.

Lemma spotPricesOfZones_requests a region zones :
  forall st w,
  exists new,
    exchanges (spotPricesOfZones a region zones st w).1 = exchanges w ++ new /\
    Forall (spotRequestFor region (concat (map AvailableInstanceTypes zones))) new /\
    (length new <= length (concat (map AvailableInstanceTypes zones)))%nat.
Proof.
  induction zones as [| zone rest IH]; intros st w.
  - exists []. cbn. rewrite app_nil_r. repeat split; [constructor | lia].
  - cbn [spotPricesOfZones map concat]. unfold bind.
    destruct (spotPricesOfZone_requests a region (ZoneId zone)
                (AvailableInstanceTypes zone) st w) as (new1 & Hnew1 & Hall1 & Hlen1).
    destruct (spotPricesOfZone a region (ZoneId zone) (AvailableInstanceTypes zone) st w)
      as [w1 [st1 | e |]]; cbn [fst snd] in *.
    + destruct (IH st1 w1) as (new & Hnew & Hall & Hlen).
      exists (new1 ++ new).
      split; [rewrite Hnew, Hnew1, <- app_assoc; reflexivity |].
      split.
      * apply Forall_app. split.
        -- apply (Forall_impl _ _ _ Hall1). intros x. apply spotRequestFor_more.
           intros T HT. apply elem_of_app. left. exact HT.
        -- apply (Forall_impl _ _ _ Hall). intros x. apply spotRequestFor_more.
           intros T HT. apply elem_of_app. right. exact HT.
      * rewrite !length_app. lia.
    + exists new1. split; [exact Hnew1 |]. split.
      * apply (Forall_impl _ _ _ Hall1). intros x. apply spotRequestFor_more.
        intros T HT. apply elem_of_app. left. exact HT.
      * rewrite length_app. lia.
    + exists new1. split; [exact Hnew1 |]. split.
      * apply (Forall_impl _ _ _ Hall1). intros x. apply spotRequestFor_more.
        intros T HT. apply elem_of_app. left. exact HT.
      * rewrite length_app. lia.
Qed.

(** X15. After the request for the zones, [getCurrentSpotPrices] sends only
    requests for the spot price history of instance types that the zones
    list, in the given region, and at most one for each listing of a type in
    a zone, however the fetch ends. *)
Theorem getCurrentSpotPrices_requests a region w zones :
  let reply := client a (exchanges w) (describeZonesRequest region) in
  zonesResult reply = Ok zones ->
  exists new,
    newExchanges w (getCurrentSpotPrices a region w).1
      = (describeZonesRequest region, reply) :: new /\
    Forall (spotRequestFor region (concat (map AvailableInstanceTypes zones))) new /\
    (length new <= length (concat (map AvailableInstanceTypes zones)))%nat.
Proof.
  cbv zeta. intros Hzones.
  unfold getCurrentSpotPrices.
  unfold bind at 1. unfold writeLog at 1. cbn beta iota.
  unfold bind at 1. rewrite getZones_run. cbn zeta. cbn [exchanges logged].
  rewrite Hzones. unfold bind at 1.
  match goal with
  | |- context [spotPricesOfZones a region zones ?st1 ?w1] =>
      destruct (spotPricesOfZones_requests a region zones st1 w1)
        as (new & Hnew & Hall & Hlen);
      destruct (spotPricesOfZones a region zones st1 w1) as [w2 [st | e |]]
  end; cbn [fst snd exchanges] in Hnew;
    exists new; (split; [| split; [exact Hall | exact Hlen]]);
    apply newExchanges_app; unfold bind, writeLog, ret; cbn;
    rewrite Hnew, <- app_assoc; reflexivity.
Qed.

Lemma getCurrentSpotPrices_requests_witness :
  (length (newExchanges emptyWorld
             (getCurrentSpotPrices hangzhou "cn-hangzhou" emptyWorld).1) <= 4)%nat.
Proof.
  destruct (getCurrentSpotPrices_requests hangzhou "cn-hangzhou" emptyWorld hangzhouZones)
    as (new & Hnew & _ & Hlen); [vm_compute; reflexivity |].
  rewrite Hnew. cbn [length]. cbn in Hlen. lia.
Defined.

(** ** The requests of [GetVirtualMachines] *)

(** X16. When the catalogue and the zones decode, [GetVirtualMachines] sends
    the request for the catalogue, the request for the zones and then price
    requests only, each in the given region for at most 25 instance types
    that have a zone; for [n] such types there are at most [n] price
    requests on top of the ceiling of [n / 25], however the fetch ends. When
    no instance type has a zone it sends no price request and returns the
    empty list. *)
Theorem GetVirtualMachines_requests MapNetworkPerf mapCategory cloudinfoAttributes
    a region w instanceTypes availableZones :
  let run := GetVirtualMachines MapNetworkPerf mapCategory cloudinfoAttributes
               a region w in
  let types := map InstanceTypeId (offered availableZones instanceTypes) in
  instanceTypesResult (catalogueReply a w) = Ok instanceTypes ->
  zonesResult (zonesReply a region w) = Ok availableZones ->
  (exists new,
     newExchanges w run.1 =
       (describeInstanceTypesRequest, catalogueReply a w)
       :: (describeZonesRequest region, zonesReply a region w) :: new /\
     Forall (priceRequestFor region types) new /\
     (length new <= (length types + 24) / 25 + length types)%nat) /\
  (types = [] -> run.2 = Ok []).
Proof.
  cbv zeta. intros Hits Hzs.
  rewrite GetVirtualMachines_run, Hits, Hzs. cbv zeta.
  set (vms := map _ (offered availableZones instanceTypes)).
  assert (Htypes : map Type_ vms = map InstanceTypeId (offered availableZones instanceTypes)).
  { unfold vms. rewrite map_map. reflexivity. }
  match goal with
  | |- context [getOnDemandPrice a vms region ?w0] => set (w3 := w0)
  end.
  split.
  - destruct (fetchBatches_exchanges a region (batches (map Type_ vms))
                (batches_bounded _) ∅ w3) as (new & Hnew & Hlen & Hall).
    rewrite <- getOnDemandPrice_world in Hnew.
    rewrite batches_concat, batches_length, Htypes in Hlen.
    rewrite batches_concat, Htypes in Hall.
    exists new. split; [| split; [exact Hall | exact Hlen]].
    apply newExchanges_app.
    destruct (getOnDemandPrice a vms region w3) as [w4 [out | e |]];
      cbn [fst exchanges] in *; rewrite Hnew; unfold w3; cbn;
      rewrite <- !app_assoc; reflexivity.
  - intros Hnone. rewrite <- Htypes in Hnone. apply map_eq_nil in Hnone.
    rewrite Hnone. reflexivity.
Qed.

Lemma GetVirtualMachines_requests_witness :
  let run := GetVirtualMachines specMapNetworkPerf exampleCategory exampleAttributes
               hangzhou "cn-hangzhou" emptyWorld in
  (length (newExchanges emptyWorld run.1) <= 5)%nat.
Proof.
  intros run.
  destruct (GetVirtualMachines_requests specMapNetworkPerf exampleCategory
              exampleAttributes hangzhou "cn-hangzhou" emptyWorld
              hangzhouTypes hangzhouZones)
    as [(new & Hnew & _ & Hlen) _]; [vm_compute; reflexivity | vm_compute; reflexivity |].
  unfold run. rewrite Hnew. cbn [length].
  assert (Hn : ((length (map InstanceTypeId (offered hangzhouZones hangzhouTypes)) + 24) / 25
                + length (map InstanceTypeId (offered hangzhouZones hangzhouTypes)) = 3)%nat)
    by (vm_compute; reflexivity).
  rewrite Hn in Hlen. lia.
Defined.

(** ** Regions *)

Lemma regions_lookup (regions : list Region) :
  forall (regionIdMap : gmap string string) id,
  foldl (fun regionIdMap region => <[RegionId region := LocalName region]> regionIdMap)
        regionIdMap regions !! id =
  match last (filter (fun region => RegionId region = id) regions) with
  | Some region => Some (LocalName region)
  | None => regionIdMap !! id
  end.
Proof.
  induction regions as [| region rest IH]; intros regionIdMap id; [reflexivity |].
  cbn [foldl]. rewrite IH, filter_cons.
  destruct (decide (RegionId region = id)) as [Heq | Hne].
  - rewrite last_cons.
    destruct (last (filter (fun region => RegionId region = id) rest)); [reflexivity |].
    rewrite <- Heq. apply lookup_insert_eq.
  - destruct (last (filter (fun region => RegionId region = id) rest)); [reflexivity |].
    apply lookup_insert_ne. exact Hne.
Qed.

Lemma regions_size (regions : list Region) :
  forall regionIdMap : gmap string string,
  (size (foldl (fun regionIdMap region =>
                  <[RegionId region := LocalName region]> regionIdMap)
               regionIdMap regions)
   <= size regionIdMap + length regions)%nat.
Proof.
  induction regions as [| region rest IH]; intros regionIdMap; cbn [foldl length]; [lia |].
  etransitivity; [apply IH |]. rewrite map_size_insert.
  destruct (regionIdMap !! RegionId region); cbn; lia.
Qed.

(** X17. In the map that [GetRegions] returns, a region id is bound exactly
    when the reply lists a region of that id, and to the local name of the
    last one listed, so that of two entries of one id the later wins; the map
    has at most as many entries as the reply has regions, and the number
    logged is that of the entries of the map, not of the regions. *)
Theorem GetRegions_last_wins l service regionIdMap :
  (GetRegions l service).2 = Ok regionIdMap ->
  exists regions,
    describeRegions l = inl (DecodedAs regions) /\
    (forall id,
       regionIdMap !! id =
       LocalName <$> last (filter (fun region => RegionId region = id) regions)) /\
    (size regionIdMap <= length regions)%nat /\
    (GetRegions l service).1 =
      [mkLogLine LevelDebug "getting regions" [("service", FieldString service)];
       mkLogLine LevelDebug "found regions"
                 [("service", FieldString service);
                  ("numberOfRegions", FieldInt (Z.of_nat (size regionIdMap)))]].
Proof.
  unfold GetRegions.
  destruct (describeRegions l) as [[e | regions] | err]; cbn; [discriminate | | discriminate].
  intros [= <-]. exists regions. split; [reflexivity |].
  split; [| split; [| reflexivity]].
  - intros id. rewrite regions_lookup, lookup_empty.
    destruct (last _); reflexivity.
  - pose proof (regions_size regions ∅) as Hsize. rewrite map_size_empty in Hsize. exact Hsize.
Qed.

Lemma GetRegions_last_wins_witness :
  exists regionIdMap,
    (GetRegions exampleListing "compute").2 = Ok regionIdMap /\
    regionIdMap !! "cn-hangzhou" = Some "China (Hangzhou)" /\
    (size regionIdMap <= 3)%nat.
Proof.
  pose (regionIdMap := match (GetRegions exampleListing "compute").2 with
                       | Ok m => m
                       | _ => ∅
                       end).
  assert (Hrun : (GetRegions exampleListing "compute").2 = Ok regionIdMap)
    by (vm_compute; reflexivity).
  exists regionIdMap. split; [exact Hrun |].
  destruct (GetRegions_last_wins _ _ _ Hrun) as (regions & Hreply & Hlookup & Hsize & _).
  assert (regions = [mkRegion "cn-hangzhou" "Hangzhou";
                     mkRegion "cn-beijing" "Beijing";
                     mkRegion "cn-hangzhou" "China (Hangzhou)"]) as ->
    by (vm_compute in Hreply; injection Hreply as <-; reflexivity).
  split; [rewrite Hlookup; vm_compute; reflexivity | exact Hsize].
Defined.

(** ** Images *)

Lemma append_String c (s1 s2 : string) : String c s1 +:+ s2 = String c (s1 +:+ s2).
Proof. reflexivity. Qed.

Lemma append_empty (s : string) : "" +:+ s = s.
Proof. reflexivity. Qed.

Lemma prefix_append (p s : string) :
  String.prefix p s = true <-> exists post, s = p +:+ post.
Proof.
  revert s. induction p as [| c p IH]; intros s.
  - destruct s; cbn; (split; [intros _; eexists; reflexivity | reflexivity]).
  - destruct s as [| d s]; cbn.
    + split; [discriminate | intros [post Hpost]; discriminate].
    + destruct (ascii_dec c d) as [<- | Hne].
      * rewrite IH. split; intros [post Hpost]; exists post;
          rewrite append_String in *; congruence.
      * split; [discriminate |].
        intros [post Hpost]. rewrite append_String in Hpost. congruence.
Qed.

Lemma Contains_append (s substr : string) :
  Contains s substr = true <-> exists pre post, s = pre +:+ substr +:+ post.
Proof.
  split.
  - induction s as [| c s IH]; cbn [Contains];
      destruct (String.prefix substr _) eqn:Hprefix.
    + intros _. apply prefix_append in Hprefix as [post ->]. exists "", post. reflexivity.
    + discriminate.
    + intros _. apply prefix_append in Hprefix as [post Hpost]. exists "", post.
      rewrite append_empty. exact Hpost.
    + intros Hrest. destruct (IH Hrest) as (pre & post & ->).
      exists (String c pre), post. reflexivity.
  - intros (pre & post & ->). induction pre as [| c pre IH].
    + assert (Hprefix : String.prefix substr (substr +:+ post) = true)
        by (apply prefix_append; exists post; reflexivity).
      rewrite append_empty. destruct (substr +:+ post); cbn [Contains]; rewrite Hprefix;
        reflexivity.
    + rewrite append_String. cbn [Contains]. rewrite IH.
      destruct (String.prefix substr _); reflexivity.
Qed.

Lemma images_filter (response : list EcsImage) :
  forall images,
  foldl (fun images image =>
           if Contains (ImageId image) "centos_7"
           then images ++ [mkImage (ImageId image)]
           else images)
        images response =
  images ++ map (fun image => mkImage (ImageId image))
                (filter (fun image => Contains (ImageId image) "centos_7" = true) response).
Proof.
  induction response as [| image rest IH]; intros images; cbn [foldl].
  - cbn. rewrite app_nil_r. reflexivity.
  - rewrite IH, filter_cons.
    destruct (Contains (ImageId image) "centos_7") eqn:Hhit.
    + rewrite decide_True by reflexivity. cbn. rewrite <- app_assoc. reflexivity.
    + rewrite decide_False by discriminate. reflexivity.
Qed.

(** X18. The images that [GetServiceImages] returns are named by image ids of
    the reply, in the order of the reply; an image id names a returned image
    exactly when the reply lists it and it has "centos_7" somewhere in it.
    The service is not looked at. *)
Theorem GetServiceImages_centos l service region images :
  GetServiceImages l service region = Ok images ->
  exists response,
    describeImages l region = inl (DecodedAs response) /\
    map Name images `sublist_of` map ImageId response /\
    (forall id,
       id ∈ map Name images <->
       id ∈ map ImageId response /\ exists pre post, id = pre +:+ "centos_7" +:+ post) /\
    forall service', GetServiceImages l service' region = Ok images.
Proof.
  unfold GetServiceImages.
  destruct (describeImages l region) as [[e | response] | err];
    [discriminate | | discriminate].
  intros [= <-]. exists response. split; [reflexivity |].
  rewrite images_filter. cbn [app]. rewrite map_map. cbn [Name].
  split; [| split; [| reflexivity]].
  - change (map (fun image => ImageId image)
                (filter (fun image => Contains (ImageId image) "centos_7" = true) response))
      with (ImageId <$> filter (fun image => Contains (ImageId image) "centos_7" = true)
                               response).
    apply fmap_sublist, sublist_filter.
  - intros id. rewrite !list_elem_of_fmap. split.
    + intros (image & -> & Hin). apply list_elem_of_filter in Hin as [Hhit Hin].
      split; [exists image; split; [reflexivity | exact Hin] |].
      apply Contains_append. exact Hhit.
    + intros [(image & -> & Hin) Hhit]. exists image. split; [reflexivity |].
      apply list_elem_of_filter. split; [apply Contains_append; exact Hhit | exact Hin].
Qed.

Lemma GetServiceImages_centos_witness :
  exists images,
    GetServiceImages exampleListing "ack" "cn-hangzhou" = Ok images /\
    "m-centos_7_custom" ∈ map Name images.
Proof.
  pose (images := match GetServiceImages exampleListing "ack" "cn-hangzhou" with
                  | Ok images => images
                  | _ => []
                  end).
  assert (Hrun : GetServiceImages exampleListing "ack" "cn-hangzhou" = Ok images)
    by (vm_compute; reflexivity).
  exists images. split; [exact Hrun |].
  destruct (GetServiceImages_centos _ _ _ _ Hrun) as (response & Hreply & _ & Hiff & _).
  apply Hiff. split.
  - assert (response = [mkEcsImage "centos_7_06_64_20G_alibase_20190711.vhd";
                        mkEcsImage "ubuntu_18_04_64_20G_alibase_20190624.vhd";
                        mkEcsImage "centos_6_10_64_20G_alibase_20190621.vhd";
                        mkEcsImage "m-centos_7_custom"]) as ->
      by (vm_compute in Hreply; injection Hreply as <-; reflexivity).
    cbn. do 3 right. left.
  - exists "m-", "_custom". reflexivity.
Defined.
